(* ===== verification/_CoqProject ===== *)
-Q . S2P
Prelude.v
JsValue.v
Http.v
Binary64.v
Json.v
FileStorage.v
Payment.v
Wire.v
User.v
Deployment.v
TopNav.v
