(* ===== verification/Prelude.v ===== *)
(** * A verification library for the AvioSync service stubs (async_dev)

    The repository under [src/] is four independent fragments of a
    multi-service product:

    - [src/apps/backend/src/entities/user.entity.ts]: the TypeORM entity
      [User], mapped to the table [users] (uuid primary key, unique email,
      varchar role restricted by its TypeScript type to four literals,
      creation timestamp);
    - [src/apps/file-storage/src/index.ts]: a Fastify process on port 3002
      with the multipart plugin and one route [POST /upload];
    - [src/apps/payment-service/src/index.ts]: an Express process on port
      3003 with the JSON body parser and one route
      [POST /api/v1/payments/invoices];
    - [src/apps/frontend/src/components/layout/TopNav.tsx]: a React
      component returning static markup.

    They share no state and talk to nobody: each process is a pure function
    from one request to one reply, composed of the framework's request
    pipeline (body parsing, routing, error replies) and the handler written
    in the repository.  What the handlers call of their framework
    ([request.file()], [express.json()], [res.json], [reply.code().send()])
    is modelled as executable definitions of the framework's documented
    behaviour, kept apart from the definitions that translate the
    repository's lines, so that a reader can see which is which.

    ** Files, in dependency order

    - [Prelude] (this file): the scope [avio_scope], the result type of
      fallible code with its bind notation, association lists with the
      JavaScript own-property discipline (lookup of the first binding,
      in-place update of an existing key, append of a new one), a list
      lemma, lemmas on string concatenation and [strip_prefix], the hint
      databases [avio] and [avio_rw] and shared tactics ([avio_simp],
      [str_len]).
    - [JsValue]: the values a JSON body parser produces and a response
      serializer consumes ([undefined], [null], booleans, integer numbers,
      strings, arrays, objects as ordered property lists) with a nested
      induction principle and decidable equality; property access
      [js_get]; [require_object_coercible], with which destructuring
      throws a [TypeError] on [undefined] and [null]; [ToBoolean] and
      [||]; and [json_normalize], what [JSON.stringify] keeps (properties
      holding [undefined] are dropped).
    - [Http]: requests (method, URL, [Content-Type], the body as its parser
      yields it), replies, media types, the path matching of the two
      routers (Express: case-insensitive, optional trailing slash;
      Fastify: exact) and the class [HttpService] a process offers to the
      deployment (its port, its reply to each request or none).
    - [Binary64]: the engine's numbers, as far as integers go: rounding
      of a decimal literal [mant * 10^scale] to the nearest binary64
      value with ties to even ([of_decimal], exact rational arithmetic on
      [Z], subnormals, overflow beyond 2^1024), and the shortest digits
      that read back as a value ([shortest], Number::toString).  Lemmas:
      integers of magnitude at most 2^53 are exact, odd integers between
      2^53 and 2^54 are not, rounding is idempotent.
    - [Json]: [JSON.parse] and [JSON.stringify] over [string]: a lexer
      for numbers and strings, the recursive-descent parser
      [parse_value]/[parse_elems]/[parse_members] with fuel, object
      creation by CreateDataProperty (array-index keys first, in
      ascending order, as V8 lays them out), and the printer [text_of].
      Lemmas: the parser reads back what the printer writes
      ([parse_stringify]), it never runs out of its fuel
      ([json_parse_terminates]), and what it yields is a value of the
      engine ([json_parse_ok]).
    - [FileStorage]: [Module Fastify] is the framework as the handler sees
      it (application builders, content-type parsers, route lookup,
      [request.file()] of [@fastify/multipart], default error handler);
      [Module FileStorage] translates [file-storage/src/index.ts]:
      [upload_handler] (lines 7-12) and [file_storage_app] (lines 4-14).
      Theorems C1, C2, C6, C8, C16, C26: the reply on every branch (no
      file: 400; a file: 200 with id, filename, url; not multipart: the
      plugin's 406; other routes: 404, or 400 when the JSON parser
      refuses the body first), the refinement of the endpoint contract
      of the spec by the service for every request on the route, and
      that the filename is the last path segment of the name the client
      sent (busboy's [basename]).
    - [Payment]: [Module Express] is the framework (builders, body-parser
      [json] in strict mode, router, final handler), for Express 4 and 5,
      which differ in the default [req.body] and in what happens to a
      rejected async handler, and the router's answer to OPTIONS on a
      routed path; [Module Payment] translates
      [payment-service/src/index.ts]: [invoice_handler] (lines 6-9) and
      [payment_app] (lines 3-11).  Theorems C3, C9-C12, C17, C25: the
      echo of [amount_cents] and [currency] for every JSON object, a
      malformed or scalar body refused with 400 before routing, a request
      without JSON (200 without the fields on Express 4, 500 on Express
      5), an answer to every request, 404 off the route except the
      router's 200 to an OPTIONS preflight on the invoice path, and the
      two versions agree on every other request.
    - [Wire]: the payment service at the level of characters: the body
      text goes through body-parser's [json] (strict mode, an empty body
      is [{}]) and [JSON.parse], the reply through [JSON.stringify].
      Theorems C19-C21: the echo read back by a client is the typed
      model's echo (a refinement of [Payment] by the text level), exact
      up to 2^53 and altered above it.
    - [User]: [Module User] translates [user.entity.ts]: [Role], its
      varchar spelling, the entity [User], the stored [user_row],
      [insert_user], the insertion with the generated uuid, the creation
      date and the primary-key and unique-email constraints, on a [gmap]
      from id to row, and [save_user], [repository.save] of an entity
      with its id (an update that keeps the id and [created_at]).  The
      inductive [step] is the table over time with its clock (ticks,
      insertions, saves, deletions).  Theorems C4, C5, C7, C13-C15,
      C22-C24: the table invariant [table_wf] preserved by every
      insertion, insertion on each branch and its exact success
      condition, typed insertions keep roles typed, the schema accepts
      any role string; by induction on [rtc step], every reachable table
      is well formed with its creation dates between the start and the
      clock, and reads back as entities when only entities are saved; a
      save keeps the creation date.
    - [Deployment]: the two processes keyed by their ports, built from
      their [HttpService] instances.  Theorem C18: the payment process on
      port 3003 answers a request for [/upload] with Express's 404 page,
      whatever its method.
    - [TopNav]: [TopNav.tsx] as a markup tree with React's static
      rendering.  The component is a constant tree; no theorem is stated
      of it.

    ** Fuel and bounds

    Every function of the model computes, so the witnesses run by
    [reflexivity] or [vm_compute].  All are structurally recursive except
    two, which take fuel.  [Json.json_parse] gives its parser
    [2 * length + 1]: each nested call either consumes a character or
    returns, and [parse_progress] proves that this fuel is never
    exhausted ([json_parse_terminates]: the result is never
    [OutOfFuel]).  [Binary64.dec_digits] takes
    [log2 n + 1] steps, at least the number of decimal digits of [n]
    ([dec_digits_range]).
    Numbers are integers: the handled [amount_cents] is an integer count
    of minor units, exact up to 2^53 and rounded to binary64 beyond.

    ** What is not modelled

    Logging ([logger: true]) and the console message of [app.listen]; the
    multipart text format (an upload is modelled by the parts its parser
    yields); JSON numbers with a fraction or an exponent that leaves the
    integers, and [\u] escapes above 127 (the parser reports them as
    [Unsupported], outside the model); the file stream of an upload (the
    handler never reads it); the SQL TypeORM emits, transactions and
    concurrent writers; the [Allow] header of Express's OPTIONS answer,
    body-parser's 100 kB limit and its refusal of non-UTF charsets
    (a JSON payload stands for a body the parser decoded); busboy's
    error on a multipart type without a boundary; the network stack and
    host binding.

    ** Further work

    The multipart text format with its parser, so that the file-storage
    service is served at the level of characters like the payment
    service (the parser's rule for telling files from fields differs
    between busboy versions, and the repository does not pin one);
    JSON numbers with fractions. *)

From stdpp Require Export base strings list gmap.
From Stdlib Require Export ZArith.

Declare Scope avio_scope.
Delimit Scope avio_scope with avio.
Open Scope avio_scope.

Create HintDb avio discriminated.
Create Rewrite HintDb avio_rw.

(** ** Results of fallible code *)

(** [Ok a] is a normal completion, [Err e] an exception or an error reply
    travelling up to the framework's error handler. *)
Inductive result (E A : Type) : Type :=
| Ok (a : A)
| Err (e : E).
Arguments Ok {E A} a.
Arguments Err {E A} e.

Definition result_bind {E A B} (m : result E A) (k : A -> result E B) : result E B :=
  match m with
  | Ok a => k a
  | Err e => Err e
  end.

Notation "x <- m ;; k" := (result_bind m (fun x => k))
  (at level 100, m at next level, right associativity) : avio_scope.

Lemma result_bind_Ok {E A B} (a : A) (k : A -> result E B) :
  result_bind (Ok a) k = k a.
Proof. reflexivity. Qed.

Lemma result_bind_Err {E A B} (e : E) (k : A -> result E B) :
  result_bind (Err e) k = Err e.
Proof. reflexivity. Qed.

Lemma result_bind_eq_Ok {E A B} (m : result E A) (k : A -> result E B) b :
  result_bind m k = Ok b -> exists a, m = Ok a /\ k a = Ok b.
Proof. destruct m; simpl; [eauto | discriminate]. Qed.

#[export] Hint Rewrite @result_bind_Ok @result_bind_Err : avio_rw.

(** ** Association lists with the own-property discipline of JavaScript

    An ordinary object keeps its own properties in creation order;
    assigning an existing key replaces the value in place, a new key is
    appended.  HTTP header lists and parsed JSON objects follow it. *)

Section Assoc.
Context {K V : Type} `{EqDecision K}.

Fixpoint assoc_get (k : K) (l : list (K * V)) : option V :=
  match l with
  | [] => None
  | (k', v) :: l' => if decide (k = k') then Some v else assoc_get k l'
  end.

Fixpoint assoc_put (k : K) (v : V) (l : list (K * V)) : list (K * V) :=
  match l with
  | [] => [(k, v)]
  | (k', v') :: l' =>
      if decide (k = k') then (k', v) :: l' else (k', v') :: assoc_put k v l'
  end.

Lemma assoc_get_put_eq k v l : assoc_get k (assoc_put k v l) = Some v.
Proof.
  induction l as [|[k' v'] l IH]; simpl; [by rewrite decide_True |].
  case_decide; simpl; [by rewrite decide_True | by rewrite decide_False].
Qed.

Lemma assoc_get_put_ne k k2 v l :
  k <> k2 -> assoc_get k2 (assoc_put k v l) = assoc_get k2 l.
Proof.
  intros Hne. induction l as [|[k' v'] l IH]; simpl.
  - by rewrite decide_False.
  - case_decide; subst; simpl; case_decide; congruence.
Qed.

Lemma assoc_get_Some_In k l v : assoc_get k l = Some v -> In (k, v) l.
Proof.
  induction l as [|[k' v'] l IH]; simpl; [discriminate |].
  case_decide; [intros [= <-]; subst; auto | auto].
Qed.

Lemma assoc_get_None k l : assoc_get k l = None <-> k ∉ map fst l.
Proof.
  induction l as [|[k' v'] l IH]; simpl; [set_solver |].
  case_decide; subst; [split; [discriminate | set_solver] |].
  rewrite IH. set_solver.
Qed.

Lemma assoc_put_keys_in k v l :
  k ∈ map fst l -> map fst (assoc_put k v l) = map fst l.
Proof.
  induction l as [|[k' v'] l IH]; simpl; [set_solver |].
  intros Hin. case_decide; subst; [done |].
  cbn [map fst]. rewrite IH; [done | set_solver].
Qed.

Lemma assoc_put_keys_notin k v l :
  k ∉ map fst l -> map fst (assoc_put k v l) = map fst l ++ [k].
Proof.
  induction l as [|[k' v'] l IH]; simpl; [done |].
  intros Hin. rewrite decide_False by set_solver.
  cbn [map]. rewrite IH; [done | set_solver].
Qed.

(** Keys stay distinct: an object built by [assoc_put] never holds the
    same key twice. *)
Lemma assoc_put_NoDup k v l :
  NoDup (map fst l) -> NoDup (map fst (assoc_put k v l)).
Proof.
  intros Hnd. destruct (decide (k ∈ map fst l)).
  - by rewrite assoc_put_keys_in.
  - rewrite assoc_put_keys_notin by done.
    apply NoDup_app. split; [done | split; [set_solver | apply NoDup_singleton]].
Qed.
End Assoc.

#[export] Hint Rewrite @assoc_get_put_eq : avio_rw.

(** ** Lists *)

(** Two members of a list whose images are duplicate-free and equal are
    the same member. *)
Lemma NoDup_map_eq {A B} (f : A -> B) (l : list A) x y :
  NoDup (map f l) -> x ∈ l -> y ∈ l -> f x = f y -> x = y.
Proof.
  induction l as [|z l IH]; simpl; [set_solver |].
  intros [Hz Hnd]%NoDup_cons Hx Hy Hf.
  apply elem_of_cons in Hx as [-> | Hx], Hy as [-> | Hy]; [done | | | by apply IH].
  - destruct Hz. rewrite Hf. apply list_elem_of_In, in_map, list_elem_of_In, Hy.
  - destruct Hz. rewrite <- Hf. apply list_elem_of_In, in_map, list_elem_of_In, Hx.
Qed.
#[export] Hint Resolve assoc_put_NoDup assoc_get_Some_In : avio.

(** A route table of one route: the lookup keeps the route exactly when
    its test holds. *)
Lemma head_filter_singleton {A} (f : A -> bool) (x : A) :
  head (filter (fun y => Is_true (f y)) [x]) = if f x then Some x else None.
Proof. cbn. case_decide as Hx; destruct (f x); done. Qed.

#[export] Hint Rewrite @head_filter_singleton : avio_rw.

(** ** Strings *)

(** [String.append] does not unfold under [simpl] (stdpp); these are its
    equations. *)
Lemma str_app_cons c s t : String c s +:+ t = String c (s +:+ t).
Proof. reflexivity. Qed.

Lemma str_app_nil_l t : EmptyString +:+ t = t.
Proof. reflexivity. Qed.

Lemma str_app_nil_r s : s +:+ EmptyString = s.
Proof. induction s as [|c s IH]; [done |]. by rewrite str_app_cons, IH. Qed.

Lemma str_app_assoc s t u : (s +:+ t) +:+ u = s +:+ (t +:+ u).
Proof. induction s as [|c s IH]; [done |]. by rewrite !str_app_cons, IH. Qed.

Lemma str_length_app s t : String.length (s +:+ t) = (String.length s + String.length t)%nat.
Proof. induction s as [|c s IH]; [done |]. rewrite str_app_cons. simpl. by rewrite IH. Qed.

#[export] Hint Rewrite str_app_cons str_app_nil_l str_app_assoc : avio_rw.

(** The rest of [s] after the prefix [w], if [s] starts with it. *)
Fixpoint strip_prefix (w s : string) : option string :=
  match w, s with
  | EmptyString, _ => Some s
  | String a w', String b s' => if Ascii.eqb a b then strip_prefix w' s' else None
  | _, _ => None
  end.

Lemma strip_prefix_app w r : strip_prefix w (w +:+ r) = Some r.
Proof. induction w as [|a w IH]; simpl; [done |]. by rewrite Ascii.eqb_refl. Qed.

(** ** Shared tactics *)

(** [avio_simp] rewrites with the development's equations and closes what
    is then a matter of computation. *)
Ltac avio_simp :=
  repeat (progress (autorewrite with avio_rw; cbn -[decide bool_decide String.eqb]));
  try done.

(** [str_len] turns the lengths of concatenations into sums, for [lia]. *)
Ltac str_len :=
  repeat progress (
    repeat match goal with
           | H : context [String.length (_ +:+ _)] |- _ => rewrite str_length_app in H
           | |- context [String.length (_ +:+ _)] => rewrite str_length_app
           end;
    cbn [String.length] in * ).

