(* ===== verification/JsValue.v ===== *)
(** * JavaScript values at the boundary of the services

    The values a JSON body parser hands to a handler and the values a
    handler hands to a JSON response serializer: [undefined] (what a
    missing property reads as), [null], booleans, numbers, strings, arrays
    and objects.  An object is its list of own properties in property
    order; parsed objects never repeat a key ([assoc_put] of the prelude).
    Numbers are kept as the integers the handled fields carry
    ([amount_cents] is an integer count of minor units); which integers a
    JSON text yields, after rounding to binary64, is the business of
    [Json] and [Binary64].

    The file holds: the value type with its nested induction principle and
    decidable equality; property access [v[k]] ([js_get]); the check that
    opens the object destructuring [const { k1, k2 } = v] of the handlers
    ([require_object_coercible]), which throws a [TypeError] on
    [undefined] and [null]; and
    [json_normalize], the value a client reads back from
    [JSON.stringify v]: properties holding [undefined] are omitted, array
    slots holding [undefined] become [null], a top-level [undefined]
    serializes to nothing. *)

From S2P Require Import Prelude.
From Stdlib Require Import DecimalString DecimalN.

Inductive jsval : Type :=
| JUndefined
| JNull
| JBool (b : bool)
| JNum (n : Z)
| JStr (s : string)
| JArr (xs : list jsval)
| JObj (props : list (string * jsval)).

(** ** Induction through arrays and objects *)

Section jsval_rect.
Variable P : jsval -> Prop.
Hypothesis HUndefined : P JUndefined.
Hypothesis HNull : P JNull.
Hypothesis HBool : forall b, P (JBool b).
Hypothesis HNum : forall n, P (JNum n).
Hypothesis HStr : forall s, P (JStr s).
Hypothesis HArr : forall xs, Forall P xs -> P (JArr xs).
Hypothesis HObj : forall ps, Forall (fun p => P p.2) ps -> P (JObj ps).

Fixpoint jsval_ind' (v : jsval) : P v :=
  match v with
  | JUndefined => HUndefined
  | JNull => HNull
  | JBool b => HBool b
  | JNum n => HNum n
  | JStr s => HStr s
  | JArr xs =>
      HArr xs ((fix go (l : list jsval) : Forall P l :=
                  match l with
                  | [] => Forall_nil_2 _
                  | x :: l' => Forall_cons_2 _ _ _ (jsval_ind' x) (go l')
                  end) xs)
  | JObj ps =>
      HObj ps ((fix go (l : list (string * jsval)) : Forall (fun p => P p.2) l :=
                  match l with
                  | [] => Forall_nil_2 _
                  | p :: l' => Forall_cons_2 _ _ _ (jsval_ind' p.2) (go l')
                  end) ps)
  end.
End jsval_rect.

(** ** Decidable equality *)

Fixpoint jsval_eqb (x y : jsval) : bool :=
  match x, y with
  | JUndefined, JUndefined | JNull, JNull => true
  | JBool a, JBool b => Bool.eqb a b
  | JNum a, JNum b => Z.eqb a b
  | JStr a, JStr b => String.eqb a b
  | JArr xs, JArr ys =>
      (fix go (xs ys : list jsval) : bool :=
         match xs, ys with
         | [], [] => true
         | x :: xs', y :: ys' => jsval_eqb x y && go xs' ys'
         | _, _ => false
         end) xs ys
  | JObj ps, JObj qs =>
      (fix go (ps qs : list (string * jsval)) : bool :=
         match ps, qs with
         | [], [] => true
         | (k, x) :: ps', (k', y) :: qs' =>
             String.eqb k k' && jsval_eqb x y && go ps' qs'
         | _, _ => false
         end) ps qs
  | _, _ => false
  end.

Lemma jsval_eqb_eq x y : jsval_eqb x y = true <-> x = y.
Proof.
  revert y. induction x as [| | b | n | s | xs IH | ps IH] using jsval_ind';
    intros [| | b' | n' | s' | ys | qs]; simpl;
    rewrite ?Bool.eqb_true_iff, ?Z.eqb_eq, ?String.eqb_eq;
    try (split; congruence).
  - revert ys. induction IH as [|x xs Hx _ IHxs]; intros [|y ys]; simpl;
      try (split; congruence).
    rewrite andb_true_iff, Hx, IHxs. split; [intros [-> [= ->]] | intros [= -> ->]]; auto.
  - revert qs. induction IH as [|[k x] ps Hx _ IHps]; intros [|[k' y] qs]; simpl;
      try (split; congruence).
    cbn [snd] in Hx. rewrite !andb_true_iff, String.eqb_eq, Hx, IHps.
    split; [intros [[-> ->] [= ->]] | intros [= -> -> ->]]; auto.
Qed.

#[export] Instance jsval_eq_dec : EqDecision jsval.
Proof.
  intros x y. destruct (jsval_eqb x y) eqn:E.
  - left. by apply jsval_eqb_eq.
  - right. intros Hxy. apply jsval_eqb_eq in Hxy. congruence.
Defined.

(** ** Property access

    [array_index k] is the array index a property key denotes: the
    canonical decimal spelling of a natural number ("01" and "" denote
    none).  [js_get v k] is [v[k]] for a value [v] that is neither
    [undefined] nor [null], for a key that no prototype defines
    ([handler_keys_plain] below checks the handlers' keys): an object
    reads its own property, an array its slot or its [length], a string
    its code unit or its [length], and a missing property reads as
    [undefined]. *)

Definition array_index (k : string) : option nat :=
  match NilEmpty.uint_of_string k with
  | Some u =>
      let n := N.of_uint u in
      if String.eqb (NilEmpty.string_of_uint (N.to_uint n)) k
      then Some (N.to_nat n) else None
  | None => None
  end.

Definition js_get (v : jsval) (k : string) : jsval :=
  match v with
  | JObj ps => default JUndefined (assoc_get k ps)
  | JArr xs =>
      if String.eqb k "length" then JNum (Z.of_nat (length xs))
      else match array_index k with
           | Some i => default JUndefined (xs !! i)
           | None => JUndefined
           end
  | JStr s =>
      if String.eqb k "length" then JNum (Z.of_nat (String.length s))
      else match array_index k with
           | Some i =>
               match String.get i s with
               | Some c => JStr (String c EmptyString)
               | None => JUndefined
               end
           | None => JUndefined
           end
  | _ => JUndefined
  end.

(** The keys [Object.prototype] and [Array.prototype] and
    [String.prototype] define; [js_get] is the property read only for
    keys outside this list. *)
Definition prototype_keys : list string :=
  ["constructor"; "__proto__"; "hasOwnProperty"; "isPrototypeOf";
   "propertyIsEnumerable"; "toLocaleString"; "toString"; "valueOf";
   "__defineGetter__"; "__defineSetter__"; "__lookupGetter__";
   "__lookupSetter__"; "length"; "at"; "concat"; "entries"; "every";
   "filter"; "find"; "forEach"; "includes"; "indexOf"; "join"; "keys";
   "map"; "pop"; "push"; "reduce"; "reverse"; "slice"; "some"; "sort";
   "splice"; "values"; "charAt"; "split"; "trim"; "replace";
   "toUpperCase"; "toLowerCase"].

(** [ToBoolean]: the falsy values are [undefined], [null], [false], [0]
    and the empty string. *)
Definition js_truthy (v : jsval) : bool :=
  match v with
  | JUndefined | JNull => false
  | JBool b => b
  | JNum n => negb (Z.eqb n 0)
  | JStr s => negb (String.eqb s "")
  | JArr _ | JObj _ => true
  end.

(** [a || b] *)
Definition js_or (a b : jsval) : jsval := if js_truthy a then a else b.

(** ** Thrown values *)

(** What the modelled code can throw: a [TypeError] of the engine, or an
    error object carrying an HTTP status, as body parsers and framework
    plugins throw them ([status] or [statusCode] property, a [code]). *)
Inductive js_error : Type :=
| TypeError (msg : string)
| HttpError (status : Z) (code : option string) (msg : string).

(** [const { k1, ..., kn } = v] starts with RequireObjectCoercible: it
    throws a [TypeError] on [undefined] and [null], then reads each key
    with [js_get]. *)
Definition require_object_coercible (v : jsval) : result js_error jsval :=
  match v with
  | JUndefined => Err (TypeError "Cannot destructure property of undefined")
  | JNull => Err (TypeError "Cannot destructure property of null")
  | _ => Ok v
  end.

(** ** What [JSON.stringify] keeps *)

(** The properties of an object a serializer keeps: those whose value
    [f] keeps, in order. *)
Fixpoint props_filter_map (f : jsval -> option jsval)
    (l : list (string * jsval)) : list (string * jsval) :=
  match l with
  | [] => []
  | (k, x) :: l' =>
      match f x with
      | Some y => (k, y) :: props_filter_map f l'
      | None => props_filter_map f l'
      end
  end.

Fixpoint json_normalize (v : jsval) : option jsval :=
  match v with
  | JUndefined => None
  | JArr xs => Some (JArr (map (fun x => default JNull (json_normalize x)) xs))
  | JObj ps => Some (JObj (props_filter_map json_normalize ps))
  | v => Some v
  end.

(** A JSON value: no [undefined] anywhere inside. *)
Fixpoint is_json (v : jsval) : bool :=
  match v with
  | JUndefined => false
  | JArr xs => forallb is_json xs
  | JObj ps => forallb (fun p => is_json p.2) ps
  | _ => true
  end.

(** ** Lemmas *)

Lemma require_object_coercible_Ok v :
  v <> JUndefined -> v <> JNull -> require_object_coercible v = Ok v.
Proof. destruct v; simpl; congruence. Qed.

Lemma js_get_obj ps k : js_get (JObj ps) k = default JUndefined (assoc_get k ps).
Proof. reflexivity. Qed.

(** A JSON value is left as it is by the serializer. *)
Lemma json_normalize_json v : is_json v = true -> json_normalize v = Some v.
Proof.
  induction v as [| | | | | xs IH | ps IH] using jsval_ind'; simpl; try done.
  - rewrite forallb_forall. intros Hall. f_equal. f_equal.
    induction IH as [|x xs Hx _ IHxs]; simpl in *; [done |].
    rewrite Hx by auto. rewrite IHxs; auto.
  - rewrite forallb_forall. intros Hall. f_equal. f_equal.
    induction IH as [|[k x] ps Hx _ IHps]; simpl in *; [done |].
    cbn [snd] in Hx. rewrite Hx by (apply (Hall (k, x)); auto). rewrite IHps; auto.
Qed.

(** What the serializer yields is a JSON value. *)
Lemma json_normalize_is_json v w : json_normalize v = Some w -> is_json w = true.
Proof.
  revert w. induction v as [| | | | | xs IH | ps IH] using jsval_ind';
    simpl; intros w Hw; simplify_eq/=; try done.
  - induction IH as [|x xs Hx _ IHxs]; simpl; [done |].
    apply andb_true_iff. split; [| done].
    destruct (json_normalize x) eqn:E; [by apply Hx | done].
  - induction IH as [|[k x] ps Hx _ IHps]; simpl; [done |].
    cbn [snd] in Hx. destruct (json_normalize x) eqn:E; simpl; [| done].
    apply andb_true_iff. split; [by apply Hx | done].
Qed.

Lemma props_filter_map_app f l1 l2 :
  props_filter_map f (l1 ++ l2) = props_filter_map f l1 ++ props_filter_map f l2.
Proof. induction l1 as [|[k x] l1 IH]; simpl; [done |]. destruct (f x); simpl; by rewrite IH. Qed.

Lemma props_filter_map_get f ps k x y :
  assoc_get k ps = Some x -> f x = Some y ->
  assoc_get k (props_filter_map f ps) = Some y.
Proof.
  intros Hget Hf. induction ps as [|[k' z] ps IHps]; simpl in *; [done |].
  case_decide; simplify_eq/=.
  - rewrite Hf. simpl. by rewrite decide_True.
  - destruct (f z); simpl; [rewrite decide_False by done |]; auto.
Qed.

(** A property of an object holding a JSON value survives serialization
    with its value. *)
Lemma json_normalize_obj_get ps k x :
  assoc_get k ps = Some x -> is_json x = true ->
  exists qs, json_normalize (JObj ps) = Some (JObj qs) /\ assoc_get k qs = Some x.
Proof.
  intros Hget Hx. eexists. split; [reflexivity |].
  eapply props_filter_map_get; eauto using json_normalize_json.
Qed.

#[export] Hint Resolve json_normalize_json json_normalize_is_json : avio.
