(* ===== verification/Http.v ===== *)
(** * HTTP requests and replies, and what the two routers match

    A request is its method, its URL (path and query), its [Content-Type]
    header and its body as the body parser of that content type yields it
    (JSON text as the value [JSON.parse] returns or a syntax error; a
    [multipart/form-data] body as its list of parts in order).  A reply is
    a status code and a body: a serialized JSON value, an HTML error page
    of Express's final handler, or nothing.

    Route matching differs between the two frameworks the services use:
    Express ([path-to-regexp] with the defaults [sensitive: false],
    [strict: false]) matches a route path case-insensitively and with an
    optional trailing slash; Fastify ([find-my-way] with
    [caseSensitive: true], [ignoreTrailingSlash: false]) matches the path
    exactly.  Both match on the path before the query string.

    [HttpService] is what a process offers to the deployment: the port it
    listens on and its function from requests to replies, if any. *)

From S2P Require Import Prelude JsValue.
From Stdlib Require Import Ascii.

Inductive method : Type := GET | POST | PUT | PATCH | DELETE | HEAD | OPTIONS.

#[export] Instance method_eq_dec : EqDecision method.
Proof. solve_decision. Defined.

Definition method_name (m : method) : string :=
  match m with
  | GET => "GET" | POST => "POST" | PUT => "PUT" | PATCH => "PATCH"
  | DELETE => "DELETE" | HEAD => "HEAD" | OPTIONS => "OPTIONS"
  end.

(** One part of a [multipart/form-data] body. *)
Inductive part : Type :=
| FilePart (fieldname filename mimetype : string) (content : list Byte.byte)
| FieldPart (fieldname value : string).

(** A body as the parser of its content type yields it. *)
Inductive payload : Type :=
| PNone
| PJson (parsed : option jsval)
| PMultipart (parts : list part)
| PText (s : string).

Record request : Type := mk_request {
  req_method : method;
  req_url : string;
  req_content_type : option string;
  req_payload : payload;
}.

Inductive body : Type :=
| BodyEmpty
| BodyJson (v : jsval)
| BodyHtml (message : string).

Record reply : Type := mk_reply {
  rep_status : Z;
  rep_body : body;
}.

(** The reply of a framework serializing [v] with [JSON.stringify]. *)
Definition json_reply (status : Z) (v : jsval) : reply :=
  {| rep_status := status;
     rep_body := match json_normalize v with Some w => BodyJson w | None => BodyEmpty end |}.

(** ** Strings of the protocol *)

Definition ascii_lower (c : Ascii.ascii) : Ascii.ascii :=
  let n := Ascii.nat_of_ascii c in
  if (65 <=? n) && (n <=? 90) then Ascii.ascii_of_nat (n + 32) else c.

Fixpoint str_lower (s : string) : string :=
  match s with
  | EmptyString => EmptyString
  | String c s' => String (ascii_lower c) (str_lower s')
  end.

(** The prefix of [s] before the first [c]. *)
Fixpoint str_before (c : Ascii.ascii) (s : string) : string :=
  match s with
  | EmptyString => EmptyString
  | String c' s' => if Ascii.eqb c c' then EmptyString else String c' (str_before c s')
  end.

Definition is_space (c : Ascii.ascii) : bool :=
  Ascii.eqb c " "%char || Ascii.eqb c (Ascii.ascii_of_nat 9).

Fixpoint str_trim_left (s : string) : string :=
  match s with
  | String c s' => if is_space c then str_trim_left s' else s
  | EmptyString => EmptyString
  end.

Fixpoint str_rev_app (s acc : string) : string :=
  match s with
  | EmptyString => acc
  | String c s' => str_rev_app s' (String c acc)
  end.

Definition str_rev (s : string) : string := str_rev_app s EmptyString.

Definition str_trim (s : string) : string :=
  str_rev (str_trim_left (str_rev (str_trim_left s))).

(** The media type of a [Content-Type] header: before the parameters,
    without surrounding blanks, in lower case. *)
Definition media_type (ct : string) : string :=
  str_lower (str_trim (str_before ";" ct)).

(** The path of a URL: before the query string. *)
Definition url_path (url : string) : string := str_before "?" url.

(** ** Route matching *)

Definition express_path_match (route url : string) : bool :=
  let p := str_lower (url_path url) in
  let r := str_lower route in
  String.eqb p r || String.eqb p (r +:+ "/").

Definition fastify_path_match (route url : string) : bool :=
  String.eqb (url_path url) route.

(** ** What a process offers to the deployment

    [svc_serve a rq] is [None] when the process never answers the request
    (a rejected promise nobody handles). *)

Class HttpService (App : Type) := {
  svc_port : App -> Z;
  svc_serve : App -> request -> option reply;
}.

(** ** Lemmas *)

Lemma str_lower_app s t : str_lower (s +:+ t) = str_lower s +:+ str_lower t.
Proof. induction s as [|c s IH]; simpl; [done | by rewrite IH]. Qed.

Lemma str_before_no_char c s :
  (forall i, String.get i s <> Some c) -> str_before c s = s.
Proof.
  induction s as [|c' s IH]; intros Hno; simpl; [done |].
  destruct (Ascii.eqb_spec c c') as [<- | Hne].
  - by specialize (Hno 0).
  - f_equal. apply IH. intros i. apply (Hno (S i)).
Qed.

Lemma fastify_path_match_exact route url :
  fastify_path_match route url = true <-> url_path url = route.
Proof. unfold fastify_path_match. apply String.eqb_eq. Qed.

#[export] Hint Rewrite str_lower_app : avio_rw.
