(* ===== verification/Binary64.v ===== *)
(** * Numbers of JavaScript at integer values (IEEE 754 binary64)

    A JavaScript number is a binary64 value.  The services only carry
    integers ([amount_cents]), so the development keeps a number as the
    integer it denotes ([JNum (n : Z)]), and this file supplies what the
    engine does to integers at the two ends of a JSON body:

    - [JSON.parse] reads a decimal literal [-? digits (. digits)? (e
      exponent)?] and rounds its exact value to the nearest binary64 (ties
      to the even mantissa, 53 significant bits, subnormals down to
      2^-1074, overflow to infinity at 2^1024): [round_q] rounds a positive
      rational, [of_decimal] rounds a literal and keeps it when the result
      is an integer, [of_int] is the rounding of an integer;
    - [Number.prototype.toString] (which [JSON.stringify] uses) prints an
      integer-valued number with the fewest significant digits that round
      back to it ([shortest]), as plain digits below 10^21 and in
      exponent form above; the digits of an integer are [dec_digits].

    The theorems show that every integer of absolute value at most 2^53
    is kept exactly and that every odd integer between 2^53 and 2^54 is
    not, and that the digits printed for a number read back as that
    number. *)

From S2P Require Import Prelude.

Local Open Scope Z_scope.

Module Binary64.

(** ** Rounding *)

Definition prec : Z := 53.
Definition emin : Z := -1074.
Definition emax : Z := 1024.

(** [a / b] rounded to the nearest integer, ties to even, for [a >= 0]
    and [b > 0]. *)
Definition round_div (a b : Z) : Z :=
  let q := a / b in
  match Z.compare (2 * (a mod b)) b with
  | Lt => q
  | Gt => q + 1
  | Eq => if Z.even q then q else q + 1
  end.

(** [a >= b * 2^e], for an exponent of either sign. *)
Definition ge_scaled (a b e : Z) : bool :=
  if 0 <=? e then b * 2 ^ e <=? a else b <=? a * 2 ^ (- e).

(** The exponent of the last mantissa bit of the binary64 nearest to the
    positive rational [a / b]: the [e] with [2^52 <= a / (b 2^e) < 2^53],
    or [emin] for a subnormal. *)
Definition exponent (a b : Z) : Z :=
  let e0 := Z.log2 a - Z.log2 b - (prec - 1) in
  Z.max emin (if ge_scaled a (2 ^ (prec - 1) * b) e0 then e0 else e0 - 1).

(** The binary64 nearest to [a / b] ([a >= 0], [b > 0]) as its mantissa
    and exponent, or [None] when it overflows to infinity. *)
Definition round_q (a b : Z) : option (Z * Z) :=
  if a =? 0 then Some (0, 0) else
  let e := exponent a b in
  let m := if 0 <=? e then round_div a (b * 2 ^ e) else round_div (a * 2 ^ (- e)) b in
  if 2 ^ (emax - e) <=? m then None else Some (m, e).

(** The integer a binary64 [m 2^e] denotes, when it is one. *)
Definition to_int (me : Z * Z) : option Z :=
  let '(m, e) := me in
  if 0 <=? e then Some (m * 2 ^ e)
  else if m mod 2 ^ (- e) =? 0 then Some (m / 2 ^ (- e)) else None.

(** The number a decimal literal denotes: sign [neg], digits [mant] and
    power of ten [scale]; [None] when it is not a finite integer. *)
Definition of_decimal (neg : bool) (mant scale : Z) : option Z :=
  let r := if 0 <=? scale then round_q (mant * 10 ^ scale) 1
           else round_q mant (10 ^ (- scale)) in
  n ← r ≫= to_int; Some (if neg then - n else n).

(** The number an integer becomes in the engine. *)
Definition of_int (n : Z) : option Z := of_decimal (n <? 0) (Z.abs n) 0.

(** [n] is a number of the engine. *)
Definition representable (n : Z) : bool := bool_decide (of_int n = Some n).

(** ** Decimal digits *)

Fixpoint dec_digits_aux (fuel : nat) (n : Z) (acc : list Z) : list Z :=
  match fuel with
  | O => n :: acc
  | S f => if n <? 10 then n :: acc else dec_digits_aux f (n / 10) (n mod 10 :: acc)
  end.

(** The decimal digits of [n >= 0], most significant first; a number
    below [2^k] has at most [k] digits, so [log2 n + 1] steps suffice. *)
Definition dec_digits (n : Z) : list Z := dec_digits_aux (Z.to_nat (Z.log2 n + 1)) n [].

Definition digits_value (ds : list Z) : Z := fold_left (fun acc d => 10 * acc + d) ds 0.

(** ** Shortest digits *)

(** [c] reads back as [x]. *)
Definition rounds_to (x c : Z) : bool := bool_decide (of_int c = Some x).

(** Of the two candidates [lo < x < hi], the closer to [x], the one with
    the even last digit on a tie. *)
Definition closer (x lo hi u : Z) : Z :=
  if x - lo <? hi - x then lo
  else if hi - x <? x - lo then hi
  else if Z.even (lo / u) then lo else hi.

(** Try [k], [k+1], ... significant digits: the multiples [lo] and [hi]
    of [10^(L-k)] around [x] are the closest numbers with [k] digits. *)
Fixpoint shortest_from (x L : Z) (fuel : nat) (k : Z) : Z :=
  match fuel with
  | O => x
  | S f =>
      let u := 10 ^ (L - k) in
      let lo := x - x mod u in
      let hi := lo + u in
      match rounds_to x lo, rounds_to x hi with
      | true, true => closer x lo hi u
      | true, false => lo
      | false, true => hi
      | false, false => shortest_from x L f (k + 1)
      end
  end.

(** The integer with the fewest significant digits that reads back as
    [x > 0], as [Number::toString] chooses it. *)
Definition shortest (x : Z) : Z :=
  let L := Z.of_nat (length (dec_digits x)) in
  shortest_from x L (Z.to_nat L) 1.

(** [a / b] scaled by [2^-e] is below 2^53. *)
Definition below_2_53 (a b e : Z) : Prop :=
  if 0 <=? e then a < 2 ^ 53 * (b * 2 ^ e) else a * 2 ^ (- e) < 2 ^ 53 * b.

(** ** Lemmas *)

Lemma round_div_exact q b : 0 < b -> round_div (q * b) b = q.
Proof.
  intros Hb. unfold round_div. rewrite Z.div_mul, Z.mod_mul by lia.
  replace (2 * 0) with 0 by lia. by destruct b.
Qed.

(** For an integer the exponent is read off its bit length. *)
Lemma exponent_int a : 0 < a -> exponent a 1 = Z.log2 a - 52.
Proof.
  intros Ha. pose proof (Z.log2_spec a Ha) as [Hlo _]. pose proof (Z.log2_nonneg a).
  unfold exponent. cbn [Z.log2]. unfold prec.
  replace (Z.log2 a - 0 - (53 - 1)) with (Z.log2 a - 52) by lia.
  assert (Hge : ge_scaled a (2 ^ (53 - 1) * 1) (Z.log2 a - 52) = true).
  { unfold ge_scaled. rewrite Z.mul_1_r.
    destruct (Z.leb_spec 0 (Z.log2 a - 52)); apply Z.leb_le.
    - rewrite <- Z.pow_add_r by lia. by replace (53 - 1 + (Z.log2 a - 52)) with (Z.log2 a) by lia.
    - transitivity (2 ^ Z.log2 a * 2 ^ (- (Z.log2 a - 52))).
      + rewrite <- Z.pow_add_r by lia. by replace (Z.log2 a + - (Z.log2 a - 52)) with (53 - 1) by lia.
      + apply Z.mul_le_mono_nonneg_r; [apply Z.pow_nonneg |]; lia. }
  rewrite Hge. unfold emin. lia.
Qed.

(** The engine's value of an integer, unsigned. *)
Lemma of_int_spec n :
  of_int n = (fun m => if n <? 0 then - m else m) <$> (round_q (Z.abs n) 1 ≫= to_int).
Proof.
  unfold of_int, of_decimal. cbn -[round_q]. rewrite Z.mul_1_r.
  by destruct (round_q (Z.abs n) 1 ≫= to_int).
Qed.

Lemma of_int_fixed n :
  of_int n = Some n <-> round_q (Z.abs n) 1 ≫= to_int = Some (Z.abs n).
Proof.
  rewrite of_int_spec. destruct (round_q (Z.abs n) 1 ≫= to_int) as [m |]; simpl; [| done].
  split; intros [= Hm]; f_equal; destruct (Z.ltb_spec n 0); lia.
Qed.

(** The rounding of an integer whose exponent is not positive is
    exact. *)
Lemma round_q_int_exact a :
  0 < a -> exponent a 1 <= 0 -> round_q a 1 ≫= to_int = Some a.
Proof.
  intros Ha He. unfold round_q. rewrite (proj2 (Z.eqb_neq a 0)) by lia.
  pose proof (exponent_int a Ha) as Hx.
  set (e := exponent a 1) in *. clearbody e.
  assert (Hm : (if 0 <=? e then round_div a (1 * 2 ^ e) else round_div (a * 2 ^ (- e)) 1)
               = a * 2 ^ (- e)).
  { destruct (Z.leb_spec 0 e).
    - assert (e = 0) as -> by lia. rewrite Z.opp_0, Z.pow_0_r, !Z.mul_1_r.
      rewrite <- (Z.mul_1_r a) at 1. apply round_div_exact; lia.
    - rewrite <- (Z.mul_1_r (a * 2 ^ (- e))) at 1. apply round_div_exact; lia. }
  rewrite Hm. clear Hm.
  assert (Hlt : a * 2 ^ (- e) < 2 ^ (emax - e)).
  { pose proof (Z.log2_spec a Ha) as [_ Hu]. pose proof (Z.log2_nonneg a).
    replace (emax - e) with (Z.succ (Z.log2 a) + (emax - Z.succ (Z.log2 a) - e)) by lia.
    rewrite Z.pow_add_r by (unfold emax; lia).
    apply Z.lt_le_trans with (2 ^ Z.succ (Z.log2 a) * 2 ^ (- e)).
    - apply Z.mul_lt_mono_pos_r; [apply Z.pow_pos_nonneg |]; lia.
    - apply Z.mul_le_mono_nonneg_l; [apply Z.pow_nonneg; lia | apply Z.pow_le_mono_r; unfold emax; lia]. }
  rewrite (proj2 (Z.leb_gt _ _) Hlt). simpl.
  destruct (Z.leb_spec 0 e).
  - assert (e = 0) as -> by lia. by rewrite Z.opp_0, Z.pow_0_r, !Z.mul_1_r.
  - rewrite Z.mod_mul, Z.div_mul by (apply Z.pow_nonzero; lia). done.
Qed.

(** Integers of at most 53 bits are binary64 values. *)
Lemma round_q_small a : 0 <= a <= 2 ^ 53 -> round_q a 1 ≫= to_int = Some a.
Proof.
  intros Ha. destruct (Z.eqb_spec a 0) as [-> | Ha0]; [done |].
  assert (Z.log2 a <= 53) by (rewrite <- (Z.log2_pow2 53) by lia; apply Z.log2_le_mono; lia).
  pose proof (Z.log2_spec a) as [Hl _]; [lia |].
  destruct (Z.eqb_spec (Z.log2 a) 53) as [E | E].
  - assert (a = 2 ^ 53) as -> by (rewrite E in Hl; lia). reflexivity.
  - apply round_q_int_exact; [lia |]. rewrite exponent_int by lia. lia.
Qed.

Lemma of_int_small n : Z.abs n <= 2 ^ 53 -> of_int n = Some n.
Proof. intros Hn. apply of_int_fixed, round_q_small. lia. Qed.

(** Between 2^53 and 2^54 the last mantissa bit weighs 2: an odd integer
    there is not a binary64 value. *)
Lemma of_int_odd_above n :
  2 ^ 53 < Z.abs n < 2 ^ 54 -> Z.odd n = true -> of_int n <> Some n.
Proof.
  intros Hn Hodd. rewrite of_int_fixed. unfold round_q.
  rewrite (proj2 (Z.eqb_neq _ 0)) by lia. rewrite exponent_int by lia.
  replace (Z.log2 (Z.abs n)) with 53 by (symmetry; apply Z.log2_unique; lia).
  cbn -[round_div Z.pow]. destruct (_ <=? _); [done |]. simpl.
  intros [= Hm]. assert (Z.odd (Z.abs n) = true) as Ho.
  { destruct (Z.abs_eq_or_opp n) as [E | E]; rewrite E; [done | by rewrite Z.odd_opp]. }
  rewrite <- Hm, Z.odd_mul in Ho. rewrite andb_false_r in Ho. discriminate.
Qed.

(** *** Digits *)

Lemma fold_digits_aux f n acc :
  fold_left (fun acc d => 10 * acc + d) (dec_digits_aux f n acc) 0 =
  fold_left (fun acc d => 10 * acc + d) acc n.
Proof.
  revert n acc. induction f as [|f IH]; intros n acc; simpl; [done |].
  destruct (n <? 10); [done |]. rewrite IH. simpl. by rewrite <- Z.div_mod by lia.
Qed.

Lemma dec_digits_aux_nonempty f n acc : dec_digits_aux f n acc <> [].
Proof.
  revert n acc. induction f as [|f IH]; intros m acc; simpl; [congruence |].
  destruct (m <? 10); [congruence | apply IH].
Qed.

Lemma dec_digits_nonempty n : dec_digits n <> [].
Proof. apply dec_digits_aux_nonempty. Qed.

(** The digits read back as the number. *)
Lemma digits_value_dec_digits n : digits_value (dec_digits n) = n.
Proof. apply fold_digits_aux. Qed.

Lemma dec_digits_aux_range f n acc :
  0 <= n < 2 ^ Z.of_nat f -> Forall (fun d => 0 <= d < 10) acc ->
  Forall (fun d => 0 <= d < 10) (dec_digits_aux f n acc).
Proof.
  revert n acc. induction f as [|f IH]; intros n acc Hn Hacc; simpl.
  - constructor; [simpl in Hn; lia | done].
  - destruct (Z.ltb_spec n 10); [constructor; [lia | done] |].
    apply IH; [| constructor; [apply Z.mod_pos_bound; lia | done]].
    split; [apply Z.div_pos; lia |].
    rewrite Nat2Z.inj_succ, Z.pow_succ_r in Hn by lia.
    apply Z.le_lt_trans with (n / 2); [apply Z.div_le_compat_l; lia |].
    apply Z.div_lt_upper_bound; lia.
Qed.

(** Every member of [dec_digits n] is a digit. *)
Lemma dec_digits_range n : 0 <= n -> Forall (fun d => 0 <= d < 10) (dec_digits n).
Proof.
  intros Hn. apply dec_digits_aux_range; [| constructor].
  rewrite Z2Nat.id by (pose proof (Z.log2_nonneg n); lia).
  split; [done |]. destruct (Z.eqb_spec n 0) as [-> | Hn0]; [done |].
  apply Z.log2_spec. lia.
Qed.

Lemma dec_digits_aux_head f n acc :
  1 <= n -> exists d ds, dec_digits_aux f n acc = d :: ds /\ 1 <= d.
Proof.
  revert n acc. induction f as [|f IH]; intros n acc Hn; simpl; [eauto |].
  destruct (Z.ltb_spec n 10); [eauto |].
  apply IH. apply Z.div_le_lower_bound; lia.
Qed.

(** A positive number has a nonzero first digit. *)
Lemma dec_digits_head n : 1 <= n -> exists d ds, dec_digits n = d :: ds /\ 1 <= d.
Proof. apply dec_digits_aux_head. Qed.

Lemma digits_value_app ds1 ds2 :
  digits_value (ds1 ++ ds2) =
  digits_value ds1 * 10 ^ Z.of_nat (length ds2) + digits_value ds2.
Proof.
  unfold digits_value. rewrite fold_left_app. generalize (fold_left (fun acc d => 10 * acc + d) ds1 0).
  induction ds2 as [|d ds2 IH] using rev_ind; intros a; simpl; [lia |].
  rewrite !fold_left_app. simpl. rewrite IH, length_app, Nat2Z.inj_add. simpl.
  rewrite Z.pow_add_r by lia. lia.
Qed.

(** Trailing zeros multiply by ten. *)
Lemma digits_value_zeros ds j :
  digits_value (ds ++ replicate j 0) = digits_value ds * 10 ^ Z.of_nat j.
Proof.
  rewrite digits_value_app, length_replicate.
  assert (digits_value (replicate j 0) = 0) as ->; [| lia].
  unfold digits_value. induction j as [|j IH]; [done |].
  rewrite replicate_S_end, fold_left_app, IH. done.
Qed.

(** *** Shortest digits *)

Lemma closer_cases x lo hi u : closer x lo hi u = lo \/ closer x lo hi u = hi.
Proof. unfold closer. repeat case_match; auto. Qed.

Lemma shortest_from_rounds x L f k :
  of_int x = Some x -> of_int (shortest_from x L f k) = Some x.
Proof.
  intros Hx. revert k. induction f as [|f IH]; intros k; simpl; [done |].
  set (u := 10 ^ (L - k)). set (lo := x - x mod u).
  unfold rounds_to. repeat case_bool_decide; auto.
  by destruct (closer_cases x lo (lo + u) u) as [-> | ->].
Qed.

Lemma shortest_from_nonneg x L f k : 0 <= x -> 0 <= shortest_from x L f k.
Proof.
  intros Hx. revert k. induction f as [|f IH]; intros k; simpl; [done |].
  set (u := 10 ^ (L - k)). set (lo := x - x mod u).
  assert (0 <= lo /\ 0 <= lo + u) as [Hlo Hhi].
  { assert (0 <= u) by (apply Z.pow_nonneg; lia).
    destruct (Z.eq_dec u 0) as [E | E]; unfold lo; [rewrite E, Z.mod_0_r; lia |].
    pose proof (Z.mod_pos_bound x u) as Hm. pose proof (Z.mod_le x u). lia. }
  repeat case_match; auto. by destruct (closer_cases x lo (lo + u) u) as [-> | ->].
Qed.

Lemma shortest_nonneg x : 0 <= x -> 0 <= shortest x.
Proof. apply shortest_from_nonneg. Qed.

Lemma representable_abs n :
  representable n = true -> of_int (Z.abs n) = Some (Z.abs n).
Proof.
  unfold representable. rewrite bool_decide_eq_true, !of_int_fixed, Z.abs_idemp. done.
Qed.

(** The digits [Number::toString] prints for a number read back as it. *)
Lemma shortest_rounds x : of_int x = Some x -> of_int (shortest x) = Some x.
Proof. apply shortest_from_rounds. Qed.

(** A literal with a power of ten is the integer it spells. *)
Lemma of_decimal_scale neg m s :
  0 <= s -> of_decimal neg m s = of_decimal neg (m * 10 ^ s) 0.
Proof.
  intros Hs. unfold of_decimal. rewrite (proj2 (Z.leb_le 0 s)) by done. by rewrite Z.mul_1_r.
Qed.

(** A literal's sign applies to the rounded magnitude. *)
Lemma of_decimal_neg neg m s :
  of_decimal neg m s = (fun n => if neg then - n else n) <$> of_decimal false m s.
Proof. unfold of_decimal. by destruct (_ ≫= to_int). Qed.

Lemma of_int_pos c : 0 <= c -> of_int c = of_decimal false c 0.
Proof.
  intros Hc. unfold of_int. rewrite (proj2 (Z.ltb_ge c 0)) by done. by rewrite Z.abs_eq.
Qed.

(** *** Rounded values are fixed points *)

Lemma below_2_53_succ a b e : 0 <= a -> 0 < b -> below_2_53 a b e -> below_2_53 a b (e + 1).
Proof.
  unfold below_2_53. intros Ha Hb.
  destruct (Z.leb_spec 0 e), (Z.leb_spec 0 (e + 1)); try lia.
  - rewrite Z.pow_add_r by lia. nia.
  - assert (e = -1) as -> by lia. simpl. lia.
  - replace (- e) with (- (e + 1) + 1) by lia. rewrite Z.pow_add_r by lia.
    pose proof (Z.pow_pos_nonneg 2 (- (e + 1))). nia.
Qed.

Lemma below_2_53_mono a b e e' :
  0 <= a -> 0 < b -> e <= e' -> below_2_53 a b e -> below_2_53 a b e'.
Proof.
  intros Ha Hb He H. remember (Z.to_nat (e' - e)) as k eqn:Hk.
  assert (e' = e + Z.of_nat k) as -> by lia. clear Hk He.
  induction k as [|k IH]; [by rewrite Z.add_0_r |].
  rewrite Nat2Z.inj_succ, Z.add_succ_r, <- Z.add_1_r. apply below_2_53_succ; auto.
Qed.

Lemma exponent_below a b : 0 < a -> 0 < b -> below_2_53 a b (exponent a b).
Proof.
  intros Ha Hb. pose proof (Z.log2_spec a Ha) as [Ha1 Ha2]. pose proof (Z.log2_spec b Hb) as [Hb1 Hb2].
  pose proof (Z.log2_nonneg a). pose proof (Z.log2_nonneg b).
  set (la := Z.log2 a) in *. set (lb := Z.log2 b) in *.
  unfold exponent. fold la lb. unfold prec.
  apply below_2_53_mono with (if ge_scaled a (2 ^ (53 - 1) * b) (la - lb - (53 - 1))
                              then la - lb - (53 - 1) else la - lb - (53 - 1) - 1); [lia | lia | lia |].
  unfold ge_scaled, below_2_53. replace (53 - 1) with 52 by lia.
  destruct (Z.leb_spec 0 (la - lb - 52)) as [He | He].
  - destruct (Z.leb_spec (2 ^ 52 * b * 2 ^ (la - lb - 52)) a) as [Hge | Hlt].
    + rewrite (proj2 (Z.leb_le 0 _)) by lia.
      assert (2 ^ Z.succ la <= 2 ^ 53 * (b * 2 ^ (la - lb - 52))); [| lia].
      replace (Z.succ la) with (53 + lb + (la - lb - 52)) by lia.
      rewrite !Z.pow_add_r by lia. pose proof (Z.pow_pos_nonneg 2 (la - lb - 52)). nia.
    + destruct (Z.leb_spec 0 (la - lb - 52 - 1)).
      * replace (la - lb - 52) with (la - lb - 52 - 1 + 1) in Hlt by lia.
        rewrite Z.pow_add_r in Hlt by lia. nia.
      * assert (la - lb - 52 = 0) as E by lia. rewrite E in Hlt |- *. simpl in *. lia.
  - destruct (Z.leb_spec (2 ^ 52 * b) (a * 2 ^ (- (la - lb - 52)))) as [Hge | Hlt].
    + rewrite (proj2 (Z.leb_gt 0 _)) by lia.
      assert (a * 2 ^ (- (la - lb - 52)) < 2 ^ Z.succ la * 2 ^ (- (la - lb - 52))).
      { apply Z.mul_lt_mono_pos_r; [apply Z.pow_pos_nonneg |]; lia. }
      assert (2 ^ Z.succ la * 2 ^ (- (la - lb - 52)) = 2 ^ 53 * 2 ^ lb).
      { rewrite <- !Z.pow_add_r by lia. f_equal. lia. }
      nia.
    + rewrite (proj2 (Z.leb_gt 0 _)) by lia.
      replace (- (la - lb - 52 - 1)) with (- (la - lb - 52) + 1) by lia.
      rewrite Z.pow_add_r by lia. nia.
Qed.

Lemma round_div_le A B K : 0 <= A -> 0 < B -> A < K * B -> 0 <= round_div A B <= K.
Proof.
  intros HA HB HK. assert (0 <= A / B < K) by (split; [apply Z.div_pos | apply Z.div_lt_upper_bound]; lia).
  unfold round_div. destruct (Z.compare _ _); [destruct (Z.even _) |..]; lia.
Qed.

(** A rounded mantissa has at most 53 bits and does not overflow. *)
Lemma round_q_mant a b m e :
  0 <= a -> 0 < b -> round_q a b = Some (m, e) -> 0 <= m <= 2 ^ 53 /\ m < 2 ^ (emax - e).
Proof.
  intros Ha Hb. unfold round_q. destruct (Z.eqb_spec a 0) as [-> | Ha0].
  { intros [= <- <-]. unfold emax. lia. }
  pose proof (exponent_below a b ltac:(lia) Hb) as Hbelow.
  set (x := exponent a b) in *. clearbody x. unfold below_2_53 in Hbelow.
  destruct (Z.leb_spec 0 x) as [Hx | Hx].
  - destruct (Z.leb_spec (2 ^ (emax - x)) (round_div a (b * 2 ^ x))); [done |].
    intros [= <- <-]. split; [| lia].
    apply round_div_le; [lia | apply Z.mul_pos_pos; [lia | apply Z.pow_pos_nonneg; lia] | lia].
  - destruct (Z.leb_spec (2 ^ (emax - x)) (round_div (a * 2 ^ (- x)) b)); [done |].
    intros [= <- <-]. split; [| lia]. pose proof (Z.pow_pos_nonneg 2 (- x)).
    apply round_div_le; nia.
Qed.

(** A number [m 2^e] with a mantissa of at most 53 bits, below 2^1024,
    is kept by rounding. *)
Lemma pow2_mult_fixed m e :
  0 < m <= 2 ^ 53 -> 0 <= e -> m * 2 ^ e < 2 ^ emax -> round_q (m * 2 ^ e) 1 ≫= to_int = Some (m * 2 ^ e).
Proof.
  intros Hm He Hov. assert (0 < m * 2 ^ e) as Ha by (apply Z.mul_pos_pos; [lia | apply Z.pow_pos_nonneg; lia]).
  assert (Z.log2 m <= 53) by (rewrite <- (Z.log2_pow2 53) by lia; apply Z.log2_le_mono; lia).
  pose proof (Z.log2_nonneg m).
  assert (Hl : Z.log2 (m * 2 ^ e) = e + Z.log2 m) by (apply Z.log2_mul_pow2; lia).
  destruct (Z.leb_spec (Z.log2 m + e - 52) 0) as [Hle | Hgt].
  { apply round_q_int_exact; [done |]. rewrite exponent_int, Hl by done. lia. }
  assert (e + Z.log2 m < emax) by (rewrite <- Hl; apply Z.log2_lt_pow2; [lia | done]).
  set (e' := Z.log2 m + e - 52).
  assert (exists q, m * 2 ^ e = q * 2 ^ e') as [q Hq].
  { destruct (Z.eqb_spec (Z.log2 m) 53) as [E | E].
    - assert (m = 2 ^ 53) as ->.
      { pose proof (Z.log2_spec m ltac:(lia)) as [Hlo _]. rewrite E in Hlo. lia. }
      exists (2 ^ 52). unfold e'. rewrite E, <- !Z.pow_add_r by lia. f_equal. lia.
    - exists (m * 2 ^ (e - e')). rewrite <- Z.mul_assoc, <- Z.pow_add_r by (unfold e'; lia).
      f_equal. f_equal. lia. }
  assert (0 < 2 ^ e') by (apply Z.pow_pos_nonneg; unfold e'; lia).
  unfold round_q. rewrite (proj2 (Z.eqb_neq _ 0)) by lia. rewrite exponent_int, Hl by done.
  replace (e + Z.log2 m - 52) with e' by (unfold e'; lia).
  rewrite (proj2 (Z.leb_le 0 e')) by lia. rewrite Z.mul_1_l, Hq, round_div_exact by done.
  rewrite (proj2 (Z.leb_gt _ _)).
  - simpl. rewrite (proj2 (Z.leb_le 0 e')) by lia. done.
  - assert (q * 2 ^ e' < 2 ^ (emax - e') * 2 ^ e') as Hlt.
    { rewrite <- Z.pow_add_r by (unfold e'; unfold emax in *; lia).
      replace (emax - e' + e') with emax by lia. lia. }
    nia.
Qed.

(** The value of a literal is kept by rounding it again: [JSON.parse]
    yields binary64 values. *)
Lemma round_to_int_fixed a b n :
  0 <= a -> 0 < b -> round_q a b ≫= to_int = Some n -> 0 <= n /\ round_q n 1 ≫= to_int = Some n.
Proof.
  intros Ha Hb. destruct (round_q a b) as [[m e] |] eqn:E; simpl; [| done].
  destruct (round_q_mant a b m e Ha Hb E) as [Hm Hov]. unfold to_int.
  destruct (Z.leb_spec 0 e) as [He | He].
  - intros [= <-]. assert (0 <= 2 ^ e) by (apply Z.pow_nonneg; lia).
    split; [nia |]. destruct (Z.eqb_spec m 0) as [-> | Hm0]; [reflexivity |].
    apply pow2_mult_fixed; [lia | done |].
    assert (0 <= emax - e).
    { destruct (Z.ltb_spec (emax - e) 0); [rewrite Z.pow_neg_r in Hov by lia |]; lia. }
    assert (m * 2 ^ e < 2 ^ (emax - e) * 2 ^ e) as Hlt
      by (apply Z.mul_lt_mono_pos_r; [apply Z.pow_pos_nonneg |]; lia).
    rewrite <- Z.pow_add_r in Hlt by lia. by replace (emax - e + e) with emax in Hlt by lia.
  - destruct (Z.eqb_spec (m mod 2 ^ (- e)) 0); [| done]. intros [= <-].
    assert (0 < 2 ^ (- e)) by (apply Z.pow_pos_nonneg; lia).
    assert (0 <= m / 2 ^ (- e) <= m) by (split; [apply Z.div_pos | apply Z.div_le_upper_bound]; nia).
    split; [lia |]. apply round_q_small. lia.
Qed.

Lemma of_decimal_representable neg mant scale n :
  0 <= mant -> of_decimal neg mant scale = Some n -> representable n = true.
Proof.
  intros Hm Hd. unfold representable. apply bool_decide_eq_true_2. unfold of_decimal in Hd.
  set (r := if 0 <=? scale then round_q (mant * 10 ^ scale) 1 else round_q mant (10 ^ (- scale))) in Hd.
  destruct (r ≫= to_int) as [n0 |] eqn:E; simpl in Hd; [| done]. injection Hd as <-.
  assert (0 <= n0 /\ round_q n0 1 ≫= to_int = Some n0) as [Hn0 Hfix].
  { unfold r in E. destruct (Z.leb_spec 0 scale).
    - apply (round_to_int_fixed (mant * 10 ^ scale) 1); [apply Z.mul_nonneg_nonneg; [| apply Z.pow_nonneg] | |]; lia || done.
    - apply (round_to_int_fixed mant (10 ^ (- scale))); [lia | apply Z.pow_pos_nonneg; lia | done]. }
  apply of_int_fixed. destruct neg; rewrite ?Z.abs_opp, Z.abs_eq by lia; done.
Qed.

(** Integers far below 2^1024 round to a finite number. *)
Lemma of_int_finite n : Z.abs n < 2 ^ 1000 -> exists m, of_int n = Some m.
Proof.
  intros Hn. rewrite of_int_spec.
  destruct (Z.eqb_spec n 0) as [-> | Hn0]; [by eexists |].
  assert (0 < Z.abs n) as Ha by lia.
  assert (Z.log2 (Z.abs n) < 1000) by (apply Z.log2_lt_pow2; lia).
  destruct (Z.leb_spec (exponent (Z.abs n) 1) 0).
  { rewrite round_q_int_exact by done. by eexists. }
  unfold round_q. rewrite (proj2 (Z.eqb_neq _ 0)) by lia.
  pose proof (exponent_below (Z.abs n) 1 Ha ltac:(lia)) as Hb. rewrite exponent_int in * by done.
  unfold below_2_53 in Hb. rewrite (proj2 (Z.leb_le 0 _)) in Hb |- * by lia.
  pose proof (round_div_le (Z.abs n) (1 * 2 ^ (Z.log2 (Z.abs n) - 52)) (2 ^ 53)) as Hm.
  rewrite (proj2 (Z.leb_gt _ _)).
  - simpl. rewrite (proj2 (Z.leb_le 0 _)) by lia. by eexists.
  - assert (2 ^ 53 < 2 ^ (emax - (Z.log2 (Z.abs n) - 52))) by (apply Z.pow_lt_mono_r; unfold emax; lia).
    assert (0 < 2 ^ (Z.log2 (Z.abs n) - 52)) by (apply Z.pow_pos_nonneg; lia).
    lia.
Qed.

End Binary64.
