(* ===== verification/Json.v ===== *)
(** * The JSON text of request and reply bodies

    The payment service reads its body with [express.json()], which calls
    [JSON.parse] on the text, and answers with [res.json], which calls
    [JSON.stringify].  This file models both at the level of characters:

    - [parse_value], [parse_elems] and [parse_members] are the recursive
      descent of [JSON.parse] (ECMA-262, section 25.5.1, over the grammar
      of RFC 8259), on fuel; [json_parse] runs them on a whole text with
      [2 * length + 1] units of fuel, which is always enough
      ([parse_value_fuel]);
    - a number literal is rounded to binary64 ([Binary64.of_decimal]); a
      string literal is unescaped ([lex_string]); an object is built with
      [obj_set], the [CreateDataProperty] of an ordinary object: a
      repeated key keeps its first position and takes the last value,
      array-index keys come first in ascending order;
    - [text_of] and [stringify] are [JSON.stringify] without replacer or
      indentation: [undefined] is dropped from objects, printed [null] in
      arrays, and has no text at the top; a number is printed by
      [Number::toString] ([number_text]); a string is quoted by
      [QuoteJSONString] ([quote_json]).

    Strings are byte strings: the characters of the model are the bytes
    of the UTF-8 text, passed through unchanged by both functions; a
    [\uXXXX] escape of a code point above 127 is outside the model
    ([Unsupported]), as are numbers that are not finite integers. *)

From S2P Require Import Prelude JsValue Binary64.
From Stdlib Require Import Ascii DecimalString DecimalN.

Local Open Scope Z_scope.

Module Json.

(** ** Characters *)

Definition dquote : ascii := ascii_of_nat 34.
Definition backslash : ascii := ascii_of_nat 92.

(** JSON's whitespace: space, tab, line feed, carriage return. *)
Definition is_ws (c : ascii) : bool :=
  match c with " " | "009" | "010" | "013" => true | _ => false end%char.

Fixpoint skip_ws (s : string) : string :=
  match s with
  | String c r => if is_ws c then skip_ws r else s
  | EmptyString => EmptyString
  end.

Definition digit_of (c : ascii) : option Z :=
  let n := Z.of_nat (nat_of_ascii c) in
  if (48 <=? n) && (n <? 58) then Some (n - 48) else None.

Definition digit_char (d : Z) : ascii := ascii_of_nat (Z.to_nat (48 + d)).

Definition hex_of (c : ascii) : option Z :=
  let n := Z.of_nat (nat_of_ascii c) in
  if (48 <=? n) && (n <? 58) then Some (n - 48)
  else if (97 <=? n) && (n <? 103) then Some (n - 87)
  else if (65 <=? n) && (n <? 71) then Some (n - 55)
  else None.

(** Lowercase hexadecimal digit, as [QuoteJSONString] writes it. *)
Definition hex_char (d : Z) : ascii :=
  ascii_of_nat (Z.to_nat (if d <? 10 then 48 + d else 87 + d)).

(** ** Errors *)

(** [SyntaxError] is the exception of [JSON.parse]; [Unsupported] a text
    whose value the model does not hold; [OutOfFuel] never happens with
    the fuel [json_parse] gives. *)
Inductive json_error : Type :=
| SyntaxError
| Unsupported
| OutOfFuel.

(** ** Numbers *)

Fixpoint span_digits (s : string) : list Z * string :=
  match s with
  | String c r =>
      match digit_of c with
      | Some d => let '(ds, r') := span_digits r in (d :: ds, r')
      | None => ([], s)
      end
  | EmptyString => ([], EmptyString)
  end.

(** [int = 0 | [1-9] [0-9]*] *)
Definition lex_int (s : string) : result json_error (list Z * string) :=
  match s with
  | String c r =>
      match digit_of c with
      | Some 0 => Ok ([0], r)
      | Some d => let '(ds, r') := span_digits r in Ok (d :: ds, r')
      | None => Err SyntaxError
      end
  | EmptyString => Err SyntaxError
  end.

(** [frac = (. [0-9]+)?] *)
Definition lex_frac (s : string) : result json_error (list Z * string) :=
  match s with
  | String c r =>
      if Ascii.eqb c "." then
        match span_digits r with
        | ([], _) => Err SyntaxError
        | (ds, r') => Ok (ds, r')
        end
      else Ok ([], s)
  | EmptyString => Ok ([], s)
  end%char.

(** The sign of an exponent. *)
Definition exp_sign (s : string) : Z * string :=
  match s with
  | String c r =>
      if Ascii.eqb c "+" then (1, r) else if Ascii.eqb c "-" then (-1, r) else (1, s)
  | EmptyString => (1, s)
  end%char.

(** [exp = ([eE] [+-]? [0-9]+)?] *)
Definition lex_exp (s : string) : result json_error (Z * string) :=
  match s with
  | String c r =>
      if Ascii.eqb c "e" || Ascii.eqb c "E" then
        match span_digits (exp_sign r).2 with
        | ([], _) => Err SyntaxError
        | (ds, r2) => Ok ((exp_sign r).1 * Binary64.digits_value ds, r2)
        end
      else Ok (0, s)
  | EmptyString => Ok (0, s)
  end%char.

(** The sign of a number literal. *)
Definition num_sign (s : string) : bool * string :=
  match s with
  | String c r => if Ascii.eqb c "-" then (true, r) else (false, s)
  | EmptyString => (false, s)
  end%char.

(** A number literal, rounded to binary64. *)
Definition lex_number (s : string) : result json_error (Z * string) :=
  ip <- lex_int (num_sign s).2 ;;
  fp <- lex_frac ip.2 ;;
  ep <- lex_exp fp.2 ;;
  match Binary64.of_decimal (num_sign s).1 (Binary64.digits_value (ip.1 ++ fp.1))
          (ep.1 - Z.of_nat (length fp.1)) with
  | Some n => Ok (n, ep.2)
  | None => Err Unsupported
  end.

(** A number ends here: no digit, point or exponent follows. *)
Definition ends_number (s : string) : bool :=
  match s with
  | String c _ =>
      negb (bool_decide (is_Some (digit_of c)) || Ascii.eqb c "." || Ascii.eqb c "e" || Ascii.eqb c "E")
  | EmptyString => true
  end%char.

(** ** Strings *)

(** The character a one-letter escape stands for. *)
Definition unescape (e : ascii) : option ascii :=
  if Ascii.eqb e dquote then Some dquote
  else match e with
       | "\" => Some backslash
       | "/" => Some "/"
       | "b" => Some "008"
       | "f" => Some "012"
       | "n" => Some "010"
       | "r" => Some "013"
       | "t" => Some "009"
       | _ => None
       end%char.

Definition hex4 (h1 h2 h3 h4 : ascii) : option Z :=
  a ← hex_of h1; b ← hex_of h2; c ← hex_of h3; d ← hex_of h4;
  Some (((a * 16 + b) * 16 + c) * 16 + d).

(** The body of a string literal after its opening quote, up to and
    including the closing quote. *)
Fixpoint lex_string (s : string) : result json_error (string * string) :=
  match s with
  | EmptyString => Err SyntaxError
  | String c r =>
      if Ascii.eqb c dquote then Ok (EmptyString, r)
      else if Ascii.eqb c backslash then
        match r with
        | String e r' =>
            match unescape e with
            | Some c' => p <- lex_string r' ;; Ok (String c' p.1, p.2)
            | None =>
                if Ascii.eqb e "u" then
                  match r' with
                  | String h1 (String h2 (String h3 (String h4 r''))) =>
                      match hex4 h1 h2 h3 h4 with
                      | Some n =>
                          if n <? 128 then
                            p <- lex_string r'' ;; Ok (String (ascii_of_nat (Z.to_nat n)) p.1, p.2)
                          else Err Unsupported
                      | None => Err SyntaxError
                      end
                  | _ => Err SyntaxError
                  end
                else Err SyntaxError
            end
        | EmptyString => Err SyntaxError
        end
      else if (nat_of_ascii c <? 32)%nat then Err SyntaxError
      else p <- lex_string r ;; Ok (String c p.1, p.2)
  end.

(** ** Objects *)

(** The array index a key denotes: a canonical decimal below 2^32 - 1. *)
Definition index_key (k : string) : option N :=
  match NilEmpty.uint_of_string k with
  | Some u =>
      let n := N.of_uint u in
      if String.eqb (NilEmpty.string_of_uint (N.to_uint n)) k && (n <? 4294967295)%N
      then Some n else None
  | None => None
  end.

(** [k] comes before [k'] among the own keys of an object: indices first,
    in ascending order, then the other keys in creation order. *)
Definition goes_before (k k' : string) : bool :=
  match index_key k, index_key k' with
  | Some a, Some b => (a <? b)%N
  | Some _, None => true
  | None, _ => false
  end.

(** [CreateDataProperty(obj, k, v)] on an ordinary object whose own keys
    are listed in their order. *)
Fixpoint obj_set (k : string) (v : jsval) (ps : list (string * jsval)) : list (string * jsval) :=
  match ps with
  | [] => [(k, v)]
  | (k', v') :: ps' =>
      if String.eqb k k' then (k', v) :: ps'
      else if goes_before k k' then (k, v) :: ps
      else (k', v') :: obj_set k v ps'
  end.

(** The keys are distinct and in the order of [OrdinaryOwnPropertyKeys]. *)
Fixpoint keys_ordered (ks : list string) : bool :=
  match ks with
  | [] => true
  | k :: ks' =>
      forallb (fun k' => negb (goes_before k' k) && negb (String.eqb k' k)) ks' &&
      keys_ordered ks'
  end.

(** A value the engine can hold: its numbers are binary64 values, its
    objects list their keys in own-key order. *)
Fixpoint engine_value (v : jsval) : bool :=
  match v with
  | JNum n => Binary64.representable n
  | JArr xs => forallb engine_value xs
  | JObj ps => keys_ordered (map fst ps) && forallb (fun p => engine_value p.2) ps
  | _ => true
  end.

(** ** [JSON.parse] *)

(** The rest of [true], [false] or [null] after its first letter. *)
Definition keyword (w : string) (v : jsval) (s : string) : result json_error (jsval * string) :=
  match strip_prefix w s with
  | Some r => Ok (v, r)
  | None => Err SyntaxError
  end.

Fixpoint parse_value (fuel : nat) (s : string) : result json_error (jsval * string) :=
  match fuel with
  | O => Err OutOfFuel
  | S f =>
      match skip_ws s with
      | EmptyString => Err SyntaxError
      | String c r =>
          if Ascii.eqb c "{" then
            match skip_ws r with
            | String c' r' => if Ascii.eqb c' "}" then Ok (JObj [], r') else parse_members f [] r
            | EmptyString => Err SyntaxError
            end
          else if Ascii.eqb c "[" then
            match skip_ws r with
            | String c' r' => if Ascii.eqb c' "]" then Ok (JArr [], r') else parse_elems f [] r
            | EmptyString => Err SyntaxError
            end
          else if Ascii.eqb c dquote then
            p <- lex_string r ;; Ok (JStr p.1, p.2)
          else if Ascii.eqb c "t" then keyword "rue" (JBool true) r
          else if Ascii.eqb c "f" then keyword "alse" (JBool false) r
          else if Ascii.eqb c "n" then keyword "ull" JNull r
          else if Ascii.eqb c "-" || bool_decide (is_Some (digit_of c)) then
            p <- lex_number (String c r) ;; Ok (JNum p.1, p.2)
          else Err SyntaxError
      end
  end%char
(** The elements of an array after [[] or [,]. *)
with parse_elems (fuel : nat) (acc : list jsval) (s : string) : result json_error (jsval * string) :=
  match fuel with
  | O => Err OutOfFuel
  | S f =>
      p <- parse_value f s ;;
      match skip_ws p.2 with
      | String c r =>
          if Ascii.eqb c "," then parse_elems f (acc ++ [p.1]) r
          else if Ascii.eqb c "]" then Ok (JArr (acc ++ [p.1]), r)
          else Err SyntaxError
      | EmptyString => Err SyntaxError
      end
  end%char
(** The members of an object after [{] or [,]. *)
with parse_members (fuel : nat) (acc : list (string * jsval)) (s : string) :
    result json_error (jsval * string) :=
  match fuel with
  | O => Err OutOfFuel
  | S f =>
      match skip_ws s with
      | String c r =>
          if Ascii.eqb c dquote then
            kp <- lex_string r ;;
            match skip_ws kp.2 with
            | String c1 r2 =>
                if Ascii.eqb c1 ":" then
                  p <- parse_value f r2 ;;
                  let acc' := obj_set kp.1 p.1 acc in
                  match skip_ws p.2 with
                  | String c3 r4 =>
                      if Ascii.eqb c3 "," then parse_members f acc' r4
                      else if Ascii.eqb c3 "}" then Ok (JObj acc', r4)
                      else Err SyntaxError
                  | EmptyString => Err SyntaxError
                  end
                else Err SyntaxError
            | EmptyString => Err SyntaxError
            end
          else Err SyntaxError
      | EmptyString => Err SyntaxError
      end
  end%char.

(** [JSON.parse(text)]: one value, surrounded by whitespace only. *)
Definition json_parse (s : string) : result json_error jsval :=
  p <- parse_value (S (2 * String.length s)) s ;;
  match skip_ws p.2 with
  | EmptyString => Ok p.1
  | _ => Err SyntaxError
  end.

(** ** [JSON.stringify] *)

Definition digits_string (ds : list Z) : string :=
  fold_right (fun d acc => String (digit_char d) acc) EmptyString ds.

Fixpoint strip_zeros_rev (ds : list Z) : list Z :=
  match ds with
  | 0 :: ds' => strip_zeros_rev ds'
  | _ => ds
  end.

(** The digits without their trailing zeros. *)
Definition strip_zeros (ds : list Z) : list Z := rev (strip_zeros_rev (rev ds)).

(** [Number::toString] of a positive integer [c] whose digits are the
    shortest: below 10^21 its digits, above [d.ddd e+(n-1)] with the
    trailing zeros dropped. *)
Definition number_body (c : Z) : string :=
  let ds := Binary64.dec_digits c in
  if (length ds <=? 21)%nat then digits_string ds
  else match ds with
       | d :: rest =>
           let frac := strip_zeros rest in
           String (digit_char d)
             ((if decide (frac = []) then EmptyString else String "." (digits_string frac)) +:+
              String "e" (String "+" (digits_string (Binary64.dec_digits (Z.of_nat (length rest))))))
       | [] => EmptyString
       end%char.

(** [Number::toString(x)] for an integer [x]: the sign, then the
    shortest digits that read back as [|x|]. *)
Definition number_text (x : Z) : string :=
  let body := number_body (Binary64.shortest (Z.abs x)) in
  if x <? 0 then String "-" body else body.

(** The one-letter escape [QuoteJSONString] writes for a character. *)
Definition escape_of (c : ascii) : option ascii :=
  if Ascii.eqb c dquote then Some dquote
  else match c with
       | "\" => Some "\"
       | "008" => Some "b"
       | "012" => Some "f"
       | "010" => Some "n"
       | "013" => Some "r"
       | "009" => Some "t"
       | _ => None
       end%char.

(** [QuoteJSONString] of one character: a one-letter escape, [\u00xx]
    for the other control characters, the character itself otherwise. *)
Definition escape_char (c : ascii) : string :=
  match escape_of c with
  | Some e => String backslash (String e EmptyString)
  | None =>
      if (nat_of_ascii c <? 32)%nat then
        let n := Z.of_nat (nat_of_ascii c) in
        String backslash (String "u" (String "0" (String "0"
          (String (hex_char (n / 16)) (String (hex_char (n mod 16)) EmptyString)))))
      else String c EmptyString
  end%char.

Fixpoint escape_string (s : string) : string :=
  match s with
  | EmptyString => EmptyString
  | String c r => escape_char c +:+ escape_string r
  end.

Definition quote_json (s : string) : string :=
  String dquote (escape_string s +:+ String dquote EmptyString).

(** The texts of a list, separated by commas. *)
Fixpoint commas (l : list string) : string :=
  match l with
  | [] => EmptyString
  | [x] => x
  | x :: l' => x +:+ String "," (commas l')
  end%char.

(** The members of an object: [key:value] for each property whose value
    is not [undefined]. *)
Fixpoint members_text (f : jsval -> string) (ps : list (string * jsval)) : list string :=
  match ps with
  | [] => []
  | (_, JUndefined) :: ps' => members_text f ps'
  | (k, x) :: ps' => (quote_json k +:+ String ":" (f x)) :: members_text f ps'
  end%char.

(** [SerializeJSONProperty] of a value inside an array ([undefined] is
    printed [null] there) or of a property that is kept. *)
Fixpoint text_of (v : jsval) : string :=
  match v with
  | JUndefined | JNull => "null"
  | JBool true => "true"
  | JBool false => "false"
  | JNum n => number_text n
  | JStr s => quote_json s
  | JArr xs => String "["%char (commas (map text_of xs) +:+ "]")
  | JObj ps => String "{"%char (commas (members_text text_of ps) +:+ "}")
  end.

(** [JSON.stringify(v)]: no text for [undefined]. *)
Definition stringify (v : jsval) : option string :=
  match v with
  | JUndefined => None
  | _ => Some (text_of v)
  end.

(** ** Definitions the proofs use *)

(** The characters a value's text can start with. *)
Definition first_chars : list ascii :=
  ["n"; "t"; "f"; "["; "{"; dquote; "-"; "0"; "1"; "2"; "3"; "4"; "5"; "6"; "7"; "8"; "9"]%char.

(** [w]'s text followed by a context [r] that ends a number is parsed
    as [w], with [r] left over, given fuel above twice its length. *)
Definition parses_back (w : jsval) : Prop :=
  forall f r, ends_number r = true -> (2 * String.length (text_of w +:+ r) < f)%nat ->
  parse_value f (text_of w +:+ r) = Ok (w, r).

(** A step of the parser consumed input, or stopped on an error other
    than running out of fuel. *)
Definition progress_from {A} (s : string) (m : result json_error (A * string)) : Prop :=
  match m with
  | Ok p => (String.length p.2 < String.length s)%nat
  | Err e => e <> OutOfFuel
  end.

(** The same, where consuming nothing is allowed. *)
Definition within {A} (s : string) (m : result json_error (A * string)) : Prop :=
  match m with
  | Ok p => (String.length p.2 <= String.length s)%nat
  | Err e => e <> OutOfFuel
  end.

(** A value the parser produces holds no [undefined] and is a value of
    the engine. *)
Definition json_ok (v : jsval) : Prop := is_json v = true /\ engine_value v = true.

(** A decimal integer literal, as a client writes the number [n]. *)
Definition int_literal (n : Z) : string :=
  let body := digits_string (Binary64.dec_digits (Z.abs n)) in
  if n <? 0 then String "-" body else body.

(** ** Lemmas on the lexer *)

Lemma digit_cases (P : Z -> Prop) :
  P 0 -> P 1 -> P 2 -> P 3 -> P 4 -> P 5 -> P 6 -> P 7 -> P 8 -> P 9 ->
  forall d, 0 <= d < 10 -> P d.
Proof.
  intros H0 H1 H2 H3 H4 H5 H6 H7 H8 H9 d Hd.
  assert (d = 0 \/ d = 1 \/ d = 2 \/ d = 3 \/ d = 4 \/ d = 5 \/ d = 6 \/ d = 7 \/ d = 8 \/ d = 9)
    as Hc by lia.
  by repeat destruct Hc as [-> | Hc]; [..| subst].
Qed.

(** What the lexer sees of a digit character. *)
Lemma digit_char_class d :
  0 <= d < 10 ->
  digit_of (digit_char d) = Some d /\ is_ws (digit_char d) = false /\
  Ascii.eqb (digit_char d) "-" = false /\ Ascii.eqb (digit_char d) "." = false /\
  Ascii.eqb (digit_char d) "e" = false /\ Ascii.eqb (digit_char d) "E" = false.
Proof. revert d. apply digit_cases; split_and!; reflexivity. Qed.

Lemma span_digits_app ds r :
  Forall (fun d => 0 <= d < 10) ds ->
  span_digits (digits_string ds +:+ r) = (ds ++ (span_digits r).1, (span_digits r).2).
Proof.
  unfold digits_string. induction 1 as [|d ds Hd _ IH]; cbn [fold_right].
  - rewrite str_app_nil_l. by destruct (span_digits r).
  - rewrite str_app_cons. simpl. rewrite (proj1 (digit_char_class d Hd)), IH. done.
Qed.

Lemma ends_number_spec r :
  ends_number r = true ->
  span_digits r = ([], r) /\ lex_frac r = Ok ([], r) /\ lex_exp r = Ok (0, r).
Proof.
  destruct r as [|c r]; [done |]. simpl.
  destruct (digit_of c) eqn:Hd; [done |]. rewrite bool_decide_false by apply is_Some_None.
  destruct (Ascii.eqb c "."), (Ascii.eqb c "e"), (Ascii.eqb c "E"); done.
Qed.

Lemma strip_zeros_rev_spec l : exists j, l = replicate j 0 ++ strip_zeros_rev l.
Proof.
  induction l as [|x l [j IH]]; [by exists 0%nat |].
  destruct (Z.eq_dec x 0) as [-> | Hx].
  - exists (S j). simpl. by rewrite <- IH.
  - exists 0%nat. simpl. by destruct x.
Qed.

(** Stripping the trailing zeros leaves digits followed by zeros. *)
Lemma strip_zeros_spec ds : exists j, ds = strip_zeros ds ++ replicate j 0.
Proof.
  destruct (strip_zeros_rev_spec (rev ds)) as [j Hj]. exists j.
  unfold strip_zeros. rewrite <- (rev_involutive ds) at 1. rewrite Hj at 1.
  rewrite rev_app_distr. f_equal. clear Hj.
  induction j as [|j IH]; [done |]. simpl. by rewrite IH, <- replicate_S_end.
Qed.

Lemma number_body_first c :
  0 <= c -> exists d t, number_body c = String (digit_char d) t /\ 0 <= d < 10.
Proof.
  intros Hc. pose proof (Binary64.dec_digits_range c Hc) as Hr.
  unfold number_body. destruct (Binary64.dec_digits c) as [|d ds] eqn:E.
  - by destruct (Binary64.dec_digits_nonempty c).
  - inversion Hr; subst. case_match; simpl; eauto.
Qed.

(** A number's exponent: [e+] and the digits of [n], then [r]. *)
Lemma lex_exp_text n r :
  0 <= n -> ends_number r = true ->
  lex_exp (String "e" (String "+" (digits_string (Binary64.dec_digits n) +:+ r))) = Ok (n, r).
Proof.
  intros Hn Hr. destruct (ends_number_spec r Hr) as (Hsp & _ & _).
  unfold lex_exp. cbn -[span_digits digits_string].
  rewrite span_digits_app, Hsp by (by apply Binary64.dec_digits_range). cbn [fst snd].
  rewrite app_nil_r, Binary64.digits_value_dec_digits.
  destruct (Binary64.dec_digits n) eqn:E; [by destruct (Binary64.dec_digits_nonempty n) |].
  by rewrite Z.mul_1_l.
Qed.

(** The decimal digits of [c] followed by a context that ends a number
    are lexed as the integer part of a literal. *)
Lemma lex_int_digits c r :
  0 <= c -> ends_number r = true ->
  lex_int (digits_string (Binary64.dec_digits c) +:+ r) = Ok (Binary64.dec_digits c, r).
Proof.
  intros Hc Hr. destruct (ends_number_spec r Hr) as (Hsp & _ & _).
  pose proof (Binary64.dec_digits_range c Hc) as Hrange.
  destruct (Z.eq_dec c 0) as [-> | Hc0]; [reflexivity |].
  destruct (Binary64.dec_digits_head c) as (d & ds & E & Hd1); [lia |]. rewrite E in Hrange |- *.
  inversion Hrange as [|? ? Hd Hds]; subst.
  unfold digits_string. cbn [fold_right]. rewrite str_app_cons. cbn [lex_int].
  rewrite (proj1 (digit_char_class d Hd)). fold (digits_string ds).
  rewrite span_digits_app, Hsp by done. rewrite app_nil_r.
  by destruct d; [lia | | lia].
Qed.

(** The text [number_body] prints for [c] is lexed in three parts whose
    digits and exponent denote [c]. *)
Lemma lex_body c r :
  0 <= c -> ends_number r = true ->
  exists ip fp ep,
    lex_int (number_body c +:+ r) = Ok ip /\ lex_frac ip.2 = Ok fp /\
    lex_exp fp.2 = Ok ep /\ ep.2 = r /\ 0 <= ep.1 - Z.of_nat (length fp.1) /\
    Binary64.digits_value (ip.1 ++ fp.1) * 10 ^ (ep.1 - Z.of_nat (length fp.1)) = c.
Proof.
  intros Hc Hr. destruct (ends_number_spec r Hr) as (Hsp & Hfr & Hex).
  pose proof (Binary64.dec_digits_range c Hc) as Hrange.
  pose proof (Binary64.digits_value_dec_digits c) as Hval.
  unfold number_body. destruct (Nat.leb_spec (length (Binary64.dec_digits c)) 21) as [Hle | Hgt].
  - exists (Binary64.dec_digits c, r), ([], r), (0, r). cbn [fst snd].
    rewrite Hfr, Hex, app_nil_r, Z.mul_1_r, lex_int_digits by done. by split_and!.
  - destruct (Binary64.dec_digits_head c) as (d & rest & E & Hd1).
    { destruct (Z.eq_dec c 0) as [-> | ]; [cbv in Hgt; lia | lia]. }
    rewrite E in Hrange, Hval, Hgt |- *. inversion Hrange as [|? ? Hd Hrest]; subst.
    destruct (strip_zeros_spec rest) as [j Hj]. set (frac := strip_zeros rest) in *.
    assert (Forall (fun d => 0 <= d < 10) frac) as Hfrac
      by (rewrite Hj in Hrest; by apply Forall_app in Hrest as [? _]).
    assert (Binary64.digits_value (d :: rest) = Binary64.digits_value (d :: frac) * 10 ^ Z.of_nat j)
      as Hdv by (rewrite Hj, app_comm_cons; apply Binary64.digits_value_zeros).
    assert (length rest = length frac + j)%nat as Hlen by (rewrite Hj at 1; by rewrite length_app, length_replicate).
    rewrite str_app_cons, str_app_assoc, str_app_cons, str_app_cons.
    set (T := String "e" (String "+" (digits_string (Binary64.dec_digits (Z.of_nat (length rest))) +:+ r))).
    assert (lex_exp T = Ok (Z.of_nat (length rest), r)) as HT by (apply lex_exp_text; [lia | done]).
    cbn [lex_int]. rewrite (proj1 (digit_char_class d Hd)).
    destruct (decide (frac = [])) as [Hf | Hf].
    + rewrite str_app_nil_l. exists ([d], T), ([], T), (Z.of_nat (length rest), r).
      destruct d as [|p|p]; [lia | | lia].
      split_and!; [reflexivity | reflexivity | exact HT | reflexivity | simpl; lia |].
      rewrite Hf in Hdv, Hlen. simpl in Hlen. cbn [fst]. rewrite app_nil_r, Hdv. do 2 f_equal. simpl. lia.
    + exists ([d], String "." (digits_string frac +:+ T)), (frac, T), (Z.of_nat (length rest), r).
      destruct d as [|p|p]; [lia | | lia]. split_and!; try done.
      * cbn [snd]. unfold lex_frac. rewrite Ascii.eqb_refl, span_digits_app by done. cbn [fst snd].
        replace (span_digits T) with (@nil Z, T) by reflexivity. rewrite app_nil_r.
        by destruct frac.
      * cbn [fst]. lia.
      * rewrite Hdv. cbn [fst]. change ([Z.pos p] ++ frac) with (Z.pos p :: frac).
        do 2 f_equal. lia.
Qed.

Lemma num_sign_text n r :
  num_sign (number_text n +:+ r) = (n <? 0, number_body (Binary64.shortest (Z.abs n)) +:+ r).
Proof.
  unfold number_text. destruct (n <? 0); [by rewrite str_app_cons |].
  destruct (number_body_first (Binary64.shortest (Z.abs n))) as (d & t & E & Hd);
    [apply Binary64.shortest_nonneg; lia |].
  destruct (digit_char_class d Hd) as (_ & _ & Hm & _).
  rewrite E, str_app_cons. simpl. by rewrite Hm.
Qed.

(** The text [Number::toString] prints for a number reads back as that
    number. *)
Lemma lex_number_text n r :
  Binary64.representable n = true -> ends_number r = true ->
  lex_number (number_text n +:+ r) = Ok (n, r).
Proof.
  intros Hn Hr. set (c := Binary64.shortest (Z.abs n)).
  assert (0 <= c) as Hc by (apply Binary64.shortest_nonneg; lia).
  assert (Binary64.of_int c = Some (Z.abs n)) as Hround
    by (apply Binary64.shortest_rounds, Binary64.representable_abs, Hn).
  destruct (lex_body c r Hc Hr) as (ip & fp & ep & Hi & Hf & He & Hr' & Hs & Hv).
  unfold lex_number. rewrite num_sign_text. fold c. cbn [fst snd].
  rewrite Hi. cbn [result_bind]. rewrite Hf. cbn [result_bind]. rewrite He. cbn [result_bind].
  rewrite Binary64.of_decimal_scale, Hv, Binary64.of_decimal_neg, <- Binary64.of_int_pos, Hround
    by done.
  simpl. rewrite Hr'. f_equal. f_equal. destruct (Z.ltb_spec n 0); lia.
Qed.

(** ** Lemmas on strings *)

(** One character as [QuoteJSONString] writes it is read back by the
    string lexer; checked on each of the 256 characters. *)
Lemma lex_string_escape c t :
  lex_string (escape_char c +:+ t) = (p <- lex_string t ;; Ok (String c p.1, p.2)).
Proof. destruct c as [[] [] [] [] [] [] [] []]; reflexivity. Qed.

Lemma lex_string_quoted s r :
  lex_string (escape_string s +:+ String dquote r) = Ok (s, r).
Proof.
  induction s as [|c s IH]; [reflexivity |].
  cbn [escape_string]. rewrite str_app_assoc, lex_string_escape, IH. reflexivity.
Qed.

Lemma quote_json_app s r : quote_json s +:+ r = String dquote (escape_string s +:+ String dquote r).
Proof. unfold quote_json. by rewrite str_app_cons, str_app_assoc, str_app_cons. Qed.

(** ** Lemmas on objects *)

(** Adding a key that comes after all the others appends it. *)
Lemma obj_set_snoc k v ps :
  keys_ordered (map fst (ps ++ [(k, v)])) = true -> obj_set k v ps = ps ++ [(k, v)].
Proof.
  induction ps as [|[k' v'] ps IH]; [done |]. cbn [map fst app keys_ordered obj_set].
  rewrite map_app, forallb_app, !andb_true_iff. intros [[_ Hk] Hord].
  cbn [forallb map fst] in Hk. rewrite !andb_true_iff, !negb_true_iff in Hk.
  destruct Hk as [[Hb He] _]. rewrite He, Hb, IH; [done |].
  by rewrite map_app.
Qed.

Lemma forallb_keys_filter (P : string -> bool) f ps :
  forallb P (map fst ps) = true -> forallb P (map fst (props_filter_map f ps)) = true.
Proof.
  induction ps as [|[k x] ps IH]; [done |]. cbn [map fst forallb]. rewrite andb_true_iff.
  intros [Hk Hps]. simpl. destruct (f x); simpl; [rewrite Hk |]; auto.
Qed.

(** Dropping properties keeps the keys in order. *)
Lemma keys_ordered_filter f ps :
  keys_ordered (map fst ps) = true -> keys_ordered (map fst (props_filter_map f ps)) = true.
Proof.
  induction ps as [|[k x] ps IH]; [done |]. cbn [map fst keys_ordered]. rewrite andb_true_iff.
  intros [Hk Hps]. simpl. destruct (f x); simpl; [| auto].
  rewrite IH, forallb_keys_filter by done. done.
Qed.

(** What the serializer keeps of a value the engine holds is one too. *)
Lemma engine_value_normalize v w :
  engine_value v = true -> json_normalize v = Some w -> engine_value w = true.
Proof.
  revert w. induction v as [| | | | | xs IH | ps IH] using jsval_ind';
    simpl; intros w Hv Hw; simplify_eq/=; try done.
  - rewrite forallb_forall in Hv |- *. intros y (x & <- & Hx)%in_map_iff.
    rewrite Forall_forall in IH. destruct (json_normalize x) eqn:E; [| done].
    apply (IH x); [by apply list_elem_of_In | by apply Hv | done].
  - apply andb_true_iff in Hv as [Hk Hv]. rewrite keys_ordered_filter by done.
    clear Hk. induction IH as [|[k x] ps Hx _ IHps]; [done |].
    cbn [forallb] in Hv. apply andb_true_iff in Hv as [Hxv Hv]. simpl.
    destruct (json_normalize x) eqn:E; simpl; [| auto].
    rewrite (Hx j) by done. auto.
Qed.

(** ** The parser reads back what the printer writes *)

Lemma first_chars_cases (P : ascii -> Prop) :
  Forall P first_chars -> forall c, c ∈ first_chars -> P c.
Proof. rewrite Forall_forall. auto. Qed.

Lemma first_char_props c :
  c ∈ first_chars -> is_ws c = false /\ Ascii.eqb c "]" = false /\ Ascii.eqb c "}" = false.
Proof.
  revert c. apply (first_chars_cases (fun c => is_ws c = false /\ Ascii.eqb c "]" = false /\
                                                Ascii.eqb c "}" = false)).
  repeat constructor.
Qed.

Lemma digit_char_first d : 0 <= d < 10 -> digit_char d ∈ first_chars.
Proof. revert d. apply digit_cases; vm_compute; repeat (first [left; reflexivity | right]). Qed.

Lemma number_text_first n :
  exists c t, number_text n = String c t /\
  (c = "-"%char \/ exists d, 0 <= d < 10 /\ c = digit_char d).
Proof.
  unfold number_text. destruct (n <? 0); [eexists _, _; split; [reflexivity | by left] |].
  destruct (number_body_first (Binary64.shortest (Z.abs n))) as (d & t & -> & Hd);
    [apply Binary64.shortest_nonneg; lia |].
  eexists _, _. split; [reflexivity | right; eauto].
Qed.

Lemma text_first w : exists c t, text_of w = String c t /\ c ∈ first_chars.
Proof.
  destruct w as [| | [] | n | s | xs | ps]; cbn [text_of];
    try (eexists _, _; split; [reflexivity | vm_compute; repeat (first [left; reflexivity | right])]).
  destruct (number_text_first n) as (c & t & -> & [-> | (d & Hd & ->)]);
    eexists _, _; (split; [reflexivity |]); [| by apply digit_char_first].
  vm_compute; repeat (first [left; reflexivity | right]).
Qed.

Lemma text_length w : (1 <= String.length (text_of w))%nat.
Proof. destruct (text_first w) as (c & t & -> & _). simpl. lia. Qed.

(** A number literal starts the lexer of numbers. *)
Lemma parse_value_num f c t :
  (c = "-"%char \/ exists d, 0 <= d < 10 /\ c = digit_char d) ->
  parse_value (S f) (String c t) = (p <- lex_number (String c t) ;; Ok (JNum p.1, p.2)).
Proof.
  intros [-> | (d & Hd & ->)]; [reflexivity |]. revert d Hd. apply digit_cases; reflexivity.
Qed.

Lemma commas_cons x l :
  commas (x :: l) = match l with [] => x | _ => x +:+ String "," (commas l) end.
Proof. by destruct l. Qed.

Lemma members_text_cons f k x ps :
  x <> JUndefined -> members_text f ((k, x) :: ps) = (quote_json k +:+ String ":" (f x)) :: members_text f ps.
Proof. by destruct x. Qed.

Lemma keys_ordered_app_l ks1 ks2 :
  keys_ordered (ks1 ++ ks2) = true -> keys_ordered ks1 = true.
Proof.
  induction ks1 as [|k ks1 IH]; [done |]. cbn [app keys_ordered].
  rewrite forallb_app, !andb_true_iff. intros [[Hk _] Hks]. auto.
Qed.

Lemma parse_elems_text xs acc f r :
  Forall parses_back xs -> xs <> [] ->
  (2 * String.length (commas (map text_of xs) +:+ String "]" r) + 1 < f)%nat ->
  parse_elems f acc (commas (map text_of xs) +:+ String "]" r) = Ok (JArr (acc ++ xs), r).
Proof.
  intros Hall. revert acc f. induction Hall as [|x xs Hx Hxs IH]; intros acc f Hne Hf; [done |].
  destruct f as [|f]; [lia |].
  destruct xs as [|y ys].
  - cbn [map commas] in Hf |- *. cbn [parse_elems]. rewrite Hx by (done || lia). reflexivity.
  - change (commas (map text_of (x :: y :: ys)))
      with (text_of x +:+ String "," (commas (map text_of (y :: ys)))) in Hf |- *.
    rewrite str_app_assoc, str_app_cons in Hf |- *. cbn [parse_elems].
    rewrite Hx; [| done | str_len; lia].
    cbn [result_bind fst snd skip_ws is_ws Ascii.eqb Bool.eqb andb]. pose proof (text_length x).
    rewrite IH; [| done | str_len; lia].
    by rewrite <- app_assoc.
Qed.

Lemma commas_more x l : l <> [] -> commas (x :: l) = x +:+ String "," (commas l).
Proof. by destruct l. Qed.

(** The start of a member: its key, a colon, and the text of its
    value. *)
Lemma parse_member_text f acc k u :
  parse_members (S f) acc (quote_json k +:+ String ":" u) =
  (p <- parse_value f u ;;
   match skip_ws p.2 with
   | String c3 r4 =>
       if Ascii.eqb c3 "," then parse_members f (obj_set k p.1 acc) r4
       else if Ascii.eqb c3 "}" then Ok (JObj (obj_set k p.1 acc), r4)
       else Err SyntaxError
   | EmptyString => Err SyntaxError
   end)%char.
Proof.
  rewrite quote_json_app. cbn [parse_members skip_ws].
  change (is_ws dquote) with false. change (Ascii.eqb dquote dquote) with true. cbv iota beta.
  rewrite lex_string_quoted. reflexivity.
Qed.

(** The start of a member: its key, a colon, and its value. *)
Lemma parse_member_key f acc k x t :
  parse_members (S f) acc ((quote_json k +:+ String ":" (text_of x)) +:+ t) =
  (p <- parse_value f (text_of x +:+ t) ;;
   match skip_ws p.2 with
   | String c3 r4 =>
       if Ascii.eqb c3 "," then parse_members f (obj_set k p.1 acc) r4
       else if Ascii.eqb c3 "}" then Ok (JObj (obj_set k p.1 acc), r4)
       else Err SyntaxError
   | EmptyString => Err SyntaxError
   end)%char.
Proof. by rewrite str_app_assoc, str_app_cons, parse_member_text. Qed.

Lemma parse_members_text ps acc f r :
  Forall (fun p => parses_back p.2 /\ p.2 <> JUndefined) ps -> ps <> [] ->
  keys_ordered (map fst (acc ++ ps)) = true ->
  (2 * String.length (commas (members_text text_of ps) +:+ String "}" r) + 1 < f)%nat ->
  parse_members f acc (commas (members_text text_of ps) +:+ String "}" r) = Ok (JObj (acc ++ ps), r).
Proof.
  intros Hall. revert acc f.
  induction Hall as [|[k x] ps [Hx Hu] Hps IH]; intros acc f Hne Hord Hf; [done |].
  destruct f as [|f]; [lia |]. cbn [snd] in Hx, Hu.
  rewrite members_text_cons in Hf |- * by done. pose proof (text_length x).
  assert (Hord1 : keys_ordered (map fst (acc ++ [(k, x)])) = true)
    by (apply (keys_ordered_app_l _ (map fst ps)); by rewrite <- map_app, <- app_assoc).
  destruct ps as [|[k' y] ps].
  - change (commas ((quote_json k +:+ String ":" (text_of x)) :: members_text text_of []))
      with (quote_json k +:+ String ":" (text_of x)) in Hf |- *.
    rewrite parse_member_key, Hx; [| done | str_len; lia].
    cbn [result_bind fst snd skip_ws is_ws Ascii.eqb Bool.eqb andb]. by rewrite obj_set_snoc.
  - inversion Hps as [|? ? [_ Hy] _]; subst. cbn [snd] in Hy.
    rewrite commas_more in Hf |- * by (by rewrite members_text_cons).
    rewrite str_app_assoc, str_app_cons in Hf |- *. rewrite parse_member_key.
    rewrite Hx; [| done | str_len; lia].
    cbn [result_bind fst snd skip_ws is_ws Ascii.eqb Bool.eqb andb]. rewrite obj_set_snoc by done.
    rewrite IH; [by rewrite <- app_assoc | done | by rewrite <- app_assoc |].
    str_len. lia.
Qed.

Lemma parse_value_str f t :
  parse_value (S f) (String dquote t) = (p <- lex_string t ;; Ok (JStr p.1, p.2)).
Proof. reflexivity. Qed.

Lemma parse_value_arr f t :
  parse_value (S f) (String "[" t) =
  match skip_ws t with
  | String c' r' => if Ascii.eqb c' "]" then Ok (JArr [], r') else parse_elems f [] t
  | EmptyString => Err SyntaxError
  end.
Proof. reflexivity. Qed.

Lemma parse_value_obj f t :
  parse_value (S f) (String "{" t) =
  match skip_ws t with
  | String c' r' => if Ascii.eqb c' "}" then Ok (JObj [], r') else parse_members f [] t
  | EmptyString => Err SyntaxError
  end.
Proof. reflexivity. Qed.

(** A nonempty list of texts starts with the first character of its
    first text. *)
Lemma commas_first x l r :
  exists t, commas (text_of x :: l) +:+ r = String (match text_of x with String c _ => c | _ => "a"%char end) t.
Proof.
  destruct (text_first x) as (c & t0 & Ex & _). rewrite Ex.
  destruct l; cbn [commas]; rewrite ?Ex, ?str_app_assoc, str_app_cons; eauto.
Qed.

Lemma first_char_text x c t : text_of x = String c t -> c ∈ first_chars.
Proof. destruct (text_first x) as (c' & t' & E & Hc). rewrite E. by intros [= <- _]. Qed.

(** A JSON value the engine holds is read back from its text. *)
Lemma parse_text w : is_json w = true -> engine_value w = true -> parses_back w.
Proof.
  induction w as [| | b | n | s | xs IH | ps IH] using jsval_ind';
    intros Hj He f r Hr Hf; (destruct f as [|f]; [lia |]); cbn [text_of] in Hf |- *.
  - done.
  - rewrite !str_app_cons, str_app_nil_l. reflexivity.
  - destruct b; rewrite !str_app_cons, str_app_nil_l; reflexivity.
  - destruct (number_text_first n) as (c & t & Ec & Hc).
    rewrite Ec, str_app_cons, parse_value_num by done.
    rewrite <- str_app_cons, <- Ec, lex_number_text by done. reflexivity.
  - by rewrite quote_json_app, parse_value_str, lex_string_quoted.
  - rewrite str_app_cons, str_app_assoc, str_app_cons, str_app_nil_l, parse_value_arr.
    destruct xs as [|x xs]; [reflexivity |]. cbn [map].
    destruct (commas_first x (map text_of xs) (String "]" r)) as [t Ht]. rewrite Ht.
    destruct (text_of x) as [|c t0] eqn:Ex; [by pose proof (text_length x) as Hl; rewrite Ex in Hl; simpl in Hl; lia |].
    destruct (first_char_props c) as (Hws & Hbr & _); [by apply (first_char_text x c t0) |].
    cbn [skip_ws]. rewrite Hws, Hbr, <- Ht, <- Ex.
    change (text_of x :: map text_of xs) with (map text_of (x :: xs)).
    apply parse_elems_text; [| done | str_len; lia].
    cbn [is_json engine_value] in Hj, He. rewrite forallb_forall in Hj, He.
    rewrite Forall_forall in IH |- *. intros y Hy.
    apply IH; [done | apply Hj | apply He]; by apply list_elem_of_In.
  - rewrite str_app_cons, str_app_assoc, str_app_cons, str_app_nil_l, parse_value_obj.
    cbn [is_json engine_value] in Hj, He. apply andb_true_iff in He as [Hord He].
    destruct ps as [|[k x] ps]; [reflexivity |].
    assert (x <> JUndefined) as Hx by (intros ->; simpl in Hj; done).
    rewrite members_text_cons in Hf |- * by done.
    assert (exists t, commas ((quote_json k +:+ String ":" (text_of x)) :: members_text text_of ps)
                        +:+ String "}" r = String dquote t) as [t Ht].
    { destruct (members_text text_of ps); cbn [commas];
        rewrite ?str_app_assoc, quote_json_app; eauto. }
    rewrite Ht. cbn [skip_ws]. change (is_ws dquote) with false. change (Ascii.eqb dquote "}") with false.
    cbv iota beta. rewrite <- Ht, <- members_text_cons by done.
    apply parse_members_text; [| done | done | rewrite members_text_cons by done; str_len; lia].
    rewrite forallb_forall in Hj, He. rewrite Forall_forall in IH |- *. intros [k' y] Hy.
    assert (In (k', y) ((k, x) :: ps)) as Hin by by apply list_elem_of_In.
    cbn [snd]. split; [apply (IH (k', y)); [done | apply (Hj _ Hin) | apply (He _ Hin)] |].
    intros ->. by specialize (Hj _ Hin).
Qed.

(** ** Printing ignores what [json_normalize] drops *)

Lemma json_normalize_None v : json_normalize v = None <-> v = JUndefined.
Proof. destruct v; simpl; done. Qed.

Lemma json_normalize_defined v w : json_normalize v = Some w -> w <> JUndefined.
Proof. destruct v; simpl; intros [= <-]; done. Qed.

Lemma text_of_normalize v : text_of v = text_of (default JNull (json_normalize v)).
Proof.
  induction v as [| | | | | xs IH | ps IH] using jsval_ind'; try reflexivity.
  - cbn [json_normalize default from_option id text_of]. do 3 f_equal. rewrite map_map.
    apply map_ext_Forall. exact IH.
  - cbn [json_normalize default from_option id text_of]. do 3 f_equal.
    induction IH as [|[k x] ps Hx _ IHps]; [done |]. cbn [snd] in Hx.
    destruct (json_normalize x) as [w |] eqn:E.
    + pose proof (json_normalize_defined x w E) as Hw.
      assert (x <> JUndefined) as Hxu by (intros ->; done).
      cbn [props_filter_map]. rewrite E, !members_text_cons, IHps, Hx by done. done.
    + apply json_normalize_None in E as ->. cbn [props_filter_map json_normalize members_text].
      exact IHps.
Qed.

(** A whole text printed from a JSON value parses back to it. *)
Lemma json_parse_text w :
  is_json w = true -> engine_value w = true -> json_parse (text_of w) = Ok w.
Proof.
  intros Hj He. unfold json_parse.
  pose proof (parse_text w Hj He (S (2 * String.length (text_of w))) EmptyString eq_refl) as H.
  rewrite str_app_nil_r in H. rewrite H by lia. reflexivity.
Qed.

(** [JSON.parse(JSON.stringify(v))] is what the serializer keeps of
    [v]: the printer and the parser refine [json_normalize]. *)
Lemma parse_stringify v :
  engine_value v = true -> json_parse <$> stringify v = Ok <$> json_normalize v.
Proof.
  intros He. destruct (json_normalize v) as [w |] eqn:E.
  - assert (v <> JUndefined) as Hv by (intros ->; done).
    assert (stringify v = Some (text_of v)) as -> by (by destruct v).
    simpl. rewrite text_of_normalize, E. cbn [default].
    by rewrite json_parse_text by eauto using json_normalize_is_json, engine_value_normalize.
  - apply json_normalize_None in E as ->. done.
Qed.

(** ** Termination *)

Lemma progress_within {A} s (m : result json_error (A * string)) :
  progress_from s m -> within s m.
Proof. destruct m; simpl; [lia | done]. Qed.

Lemma progress_bind {A B} s (m : result json_error (A * string))
    (k : A * string -> result json_error (B * string)) :
  progress_from s m -> (forall p, m = Ok p -> within p.2 (k p)) ->
  progress_from s (result_bind m k).
Proof.
  destruct m as [p | e]; simpl; [| done]. intros Hp Hk. specialize (Hk p eq_refl).
  destruct (k p); simpl in *; [lia | done].
Qed.

Lemma progress_weaken {A} s s' (m : result json_error (A * string)) :
  progress_from s' m -> (String.length s' <= String.length s)%nat -> progress_from s m.
Proof. destruct m; simpl; [lia | done]. Qed.

Lemma skip_ws_length s : (String.length (skip_ws s) <= String.length s)%nat.
Proof. induction s as [|c s IH]; simpl; [lia |]. destruct (is_ws c); simpl; lia. Qed.

Lemma span_digits_length s : (String.length (span_digits s).2 <= String.length s)%nat.
Proof.
  induction s as [|c s IH]; simpl; [lia |].
  destruct (digit_of c); [destruct (span_digits s); simpl in *; lia | simpl; lia].
Qed.

Lemma lex_string_progress s : progress_from s (lex_string s).
Proof.
  induction s as [s IH] using (induction_ltof1 _ String.length); unfold ltof in IH.
  destruct s as [|c s]; simpl; [done |].
  destruct (Ascii.eqb c dquote); [simpl; lia |].
  destruct (Ascii.eqb c backslash).
  - destruct s as [|e s]; [done |]. destruct (unescape e).
    + apply progress_bind; [apply progress_weaken with s; [apply IH | ]; simpl; lia |].
      intros [x r] _. simpl. lia.
    + destruct (Ascii.eqb e "u"); [| done].
      destruct s as [|h1 [|h2 [|h3 [|h4 s]]]]; try done.
      destruct (hex4 h1 h2 h3 h4) as [n |]; [| done]. destruct (n <? 128); [| done].
      apply progress_bind; [apply progress_weaken with s; [apply IH |]; simpl; lia |].
      intros [x r] _. simpl. lia.
  - destruct (nat_of_ascii c <? 32)%nat; [done |].
    apply progress_bind; [apply progress_weaken with s; [apply IH |]; simpl; lia |].
    intros [x r] _. simpl. lia.
Qed.

Lemma within_bind {A B} s (m : result json_error (A * string))
    (k : A * string -> result json_error (B * string)) :
  within s m -> (forall p, m = Ok p -> within p.2 (k p)) -> within s (result_bind m k).
Proof.
  destruct m as [p | e]; simpl; [| done]. intros Hp Hk. specialize (Hk p eq_refl).
  destruct (k p); simpl in *; [lia | done].
Qed.

Lemma within_weaken {A} s s' (m : result json_error (A * string)) :
  within s' m -> (String.length s' <= String.length s)%nat -> within s m.
Proof. destruct m; simpl; [lia | done]. Qed.

Lemma within_progress {A} s s' (m : result json_error (A * string)) :
  within s' m -> (String.length s' < String.length s)%nat -> progress_from s m.
Proof. destruct m; simpl; [lia | done]. Qed.

Lemma lex_int_progress s : progress_from s (lex_int s).
Proof.
  destruct s as [|c r]; [done |]. cbn [lex_int]. pose proof (span_digits_length r).
  destruct (digit_of c) as [[|d|d] |]; try done; simpl; [lia | |];
    destruct (span_digits r); simpl in *; lia.
Qed.

Lemma lex_frac_within s : within s (lex_frac s).
Proof.
  destruct s as [|c r]; [simpl; lia |]. cbn [lex_frac]. pose proof (span_digits_length r).
  destruct (Ascii.eqb c "."); [| simpl; lia].
  destruct (span_digits r) as [[|d ds] r']; simpl in *; [done | lia].
Qed.

Lemma lex_exp_within s : within s (lex_exp s).
Proof.
  destruct s as [|c r]; [simpl; lia |]. cbn [lex_exp].
  assert (String.length (exp_sign r).2 <= String.length r)%nat.
  { destruct r as [|c' r']; simpl; [lia |]. destruct (Ascii.eqb c' "+"), (Ascii.eqb c' "-"); simpl; lia. }
  pose proof (span_digits_length (exp_sign r).2).
  destruct (Ascii.eqb c "e" || Ascii.eqb c "E"); [| simpl; lia].
  destruct (span_digits (exp_sign r).2) as [[|d ds] r']; simpl in *; [done | lia].
Qed.

Lemma num_sign_length s : (String.length (num_sign s).2 <= String.length s)%nat.
Proof. destruct s as [|c r]; simpl; [lia |]. destruct (Ascii.eqb c "-"); simpl; lia. Qed.

Lemma lex_number_progress s : progress_from s (lex_number s).
Proof.
  unfold lex_number. apply progress_weaken with (num_sign s).2; [| apply num_sign_length].
  apply progress_bind; [apply lex_int_progress |]. intros ip _.
  apply within_bind; [apply lex_frac_within |]. intros fp _.
  apply within_bind; [apply lex_exp_within |]. intros ep _.
  destruct (Binary64.of_decimal _ _ _); simpl; [lia | done].
Qed.

Lemma keyword_within w v s : within s (keyword w v s).
Proof.
  unfold keyword. destruct (strip_prefix w s) as [r |] eqn:E; simpl; [| done].
  revert s E. induction w as [|a w IH]; intros [|b s] E; simpl in E; try done.
  - injection E as <-. lia.
  - injection E as <-. simpl. lia.
  - destruct (Ascii.eqb a b); [| done]. apply IH in E. simpl. lia.
Qed.

(** With fuel above twice the length of the input (plus one inside an
    array or object), every call consumes input or stops on an error of
    the text: it never runs out of fuel. *)
Lemma parse_progress f :
  (forall s, (2 * String.length s < f)%nat -> progress_from s (parse_value f s)) /\
  (forall acc s, (2 * String.length s + 1 < f)%nat -> progress_from s (parse_elems f acc s)) /\
  (forall acc s, (2 * String.length s + 1 < f)%nat -> progress_from s (parse_members f acc s)).
Proof.
  induction f as [|f [IHv [IHe IHm]]]; [split_and!; intros; lia |].
  split_and!.
  - intros s Hs. cbn [parse_value]. pose proof (skip_ws_length s) as Hw.
    destruct (skip_ws s) as [|c r]; [done |]. simpl in Hw.
    destruct (Ascii.eqb c "{").
    { pose proof (skip_ws_length r). destruct (skip_ws r) as [|c' r']; [done |]. simpl in *.
      destruct (Ascii.eqb c' "}"); [simpl; lia |].
      apply progress_weaken with r; [apply IHm |]; lia. }
    destruct (Ascii.eqb c "[").
    { pose proof (skip_ws_length r). destruct (skip_ws r) as [|c' r']; [done |]. simpl in *.
      destruct (Ascii.eqb c' "]"); [simpl; lia |].
      apply progress_weaken with r; [apply IHe |]; lia. }
    destruct (Ascii.eqb c dquote).
    { apply progress_bind; [apply progress_weaken with r; [apply lex_string_progress | lia] |].
      intros p _. simpl. lia. }
    destruct (Ascii.eqb c "t"); [apply within_progress with r; [apply keyword_within | lia] |].
    destruct (Ascii.eqb c "f"); [apply within_progress with r; [apply keyword_within | lia] |].
    destruct (Ascii.eqb c "n"); [apply within_progress with r; [apply keyword_within | lia] |].
    destruct (_ || _); [| done].
    apply progress_bind; [apply progress_weaken with (String c r); [apply lex_number_progress | simpl; lia] |].
    intros p _. simpl. lia.
  - intros acc s Hs. cbn [parse_elems].
    apply progress_bind; [apply IHv; lia |]. intros [v r] Hv. cbn [fst snd].
    pose proof (IHv s ltac:(lia)) as Hr. rewrite Hv in Hr. simpl in Hr.
    pose proof (skip_ws_length r). destruct (skip_ws r) as [|c r']; [done |]. simpl in *.
    destruct (Ascii.eqb c ","); [| destruct (Ascii.eqb c "]"); simpl; [lia | done]].
    apply progress_within, progress_weaken with r'; [apply IHe |]; lia.
  - intros acc s Hs. cbn [parse_members]. pose proof (skip_ws_length s) as Hw.
    destruct (skip_ws s) as [|c r]; [done |]. simpl in Hw.
    destruct (Ascii.eqb c dquote); [| done].
    apply progress_bind; [apply progress_weaken with r; [apply lex_string_progress | lia] |].
    intros [k r1] Hk. cbn [fst snd]. pose proof (lex_string_progress r) as Hr1. rewrite Hk in Hr1.
    simpl in Hr1. pose proof (skip_ws_length r1).
    destruct (skip_ws r1) as [|c1 r2]; [done |]. simpl in *.
    destruct (Ascii.eqb c1 ":"); [| done].
    apply within_bind; [apply within_weaken with r2; [apply progress_within, IHv |]; lia |].
    intros [v r3] Hv. cbn [fst snd].
    pose proof (IHv r2 ltac:(lia)) as Hr3. rewrite Hv in Hr3. simpl in Hr3.
    pose proof (skip_ws_length r3). destruct (skip_ws r3) as [|c3 r4]; [done |]. simpl in *.
    destruct (Ascii.eqb c3 ","); [| destruct (Ascii.eqb c3 "}"); simpl; [lia | done]].
    apply progress_within, progress_weaken with r4; [apply IHm |]; lia.
Qed.

(** [JSON.parse] always answers: with the fuel it gives, the parser never
    runs out. *)
Lemma json_parse_terminates s : json_parse s <> Err OutOfFuel.
Proof.
  unfold json_parse. pose proof (proj1 (parse_progress (S (2 * String.length s))) s ltac:(lia)) as H.
  destruct (parse_value _ s) as [[v r] | e]; simpl in *; [| congruence].
  destruct (skip_ws r); discriminate.
Qed.

(** ** [JSON.parse] yields values the engine holds *)

Lemma goes_before_asym k k' : goes_before k k' = true -> goes_before k' k = false.
Proof.
  unfold goes_before. destruct (index_key k), (index_key k'); try done.
  intros H%N.ltb_lt. apply N.ltb_ge. lia.
Qed.

Lemma goes_before_trans x k k' :
  goes_before x k = true -> goes_before k k' = true -> goes_before x k' = true.
Proof.
  unfold goes_before. destruct (index_key x), (index_key k), (index_key k'); try done.
  intros H1%N.ltb_lt H2%N.ltb_lt. apply N.ltb_lt. lia.
Qed.

Lemma obj_set_keys k v ps y : In y (map fst (obj_set k v ps)) -> y = k \/ In y (map fst ps).
Proof.
  induction ps as [|[k' v'] ps IH]; simpl; [intuition |].
  destruct (String.eqb_spec k k'); simpl; [intuition |].
  destruct (goes_before k k'); simpl; [intuition |].
  intros [-> | Hy]; [auto | destruct (IH Hy); auto].
Qed.

(** [CreateDataProperty] keeps the own keys distinct and in order. *)
Lemma obj_set_ordered k v ps :
  keys_ordered (map fst ps) = true -> keys_ordered (map fst (obj_set k v ps)) = true.
Proof.
  induction ps as [|[k' v'] ps IH]; [done |]. cbn [map fst keys_ordered obj_set].
  rewrite andb_true_iff, forallb_forall. intros [Hall Hord].
  destruct (String.eqb_spec k k') as [-> | Hne].
  - cbn [map fst keys_ordered]. by rewrite andb_true_iff, forallb_forall.
  - destruct (goes_before k k') eqn:Hgb.
    + cbn [map fst keys_ordered]. rewrite !andb_true_iff, !forallb_forall. split_and!; try done.
      * intros x [<- | Hx]; cbn [fst snd].
        { rewrite goes_before_asym by done. simpl. by apply negb_true_iff, String.eqb_neq. }
        specialize (Hall x Hx). apply andb_true_iff in Hall as [Hx1 Hx2].
        apply negb_true_iff in Hx1, Hx2. apply String.eqb_neq in Hx2.
        apply andb_true_iff. split.
        { apply negb_true_iff. destruct (goes_before x k) eqn:E; [| done].
          by rewrite (goes_before_trans x k k') in Hx1. }
        apply negb_true_iff, String.eqb_neq. intros ->. by rewrite Hgb in Hx1.
    + cbn [map fst keys_ordered]. rewrite andb_true_iff, forallb_forall. split; [| by apply IH].
      intros y Hy. destruct (obj_set_keys k v ps y Hy) as [-> | Hin]; [| by apply Hall].
      rewrite Hgb. simpl. by apply negb_true_iff, String.eqb_neq.
Qed.

Lemma obj_set_props k v ps p : In p (obj_set k v ps) -> p.2 = v \/ In p ps.
Proof.
  induction ps as [|[k' v'] ps IH]; simpl; [intuition subst; auto |].
  destruct (String.eqb k k'); simpl; [intuition subst; auto |].
  destruct (goes_before k k'); simpl; [intuition subst; auto |].
  intros [<- | Hp]; [auto | destruct (IH Hp); auto].
Qed.

Lemma digit_of_range c d : digit_of c = Some d -> 0 <= d < 10.
Proof.
  unfold digit_of. destruct (_ && _) eqn:E; [| done]. intros [= <-].
  apply andb_true_iff in E as [E1%Z.leb_le E2%Z.ltb_lt]. lia.
Qed.

Lemma span_digits_range s : Forall (fun d => 0 <= d < 10) (span_digits s).1.
Proof.
  induction s as [|c s IH]; simpl; [constructor |].
  destruct (digit_of c) eqn:E; [| constructor].
  destruct (span_digits s); simpl in *. constructor; [by eapply digit_of_range | done].
Qed.

Lemma digits_value_nonneg ds : Forall (fun d => 0 <= d < 10) ds -> 0 <= Binary64.digits_value ds.
Proof.
  unfold Binary64.digits_value. intros Hds.
  assert (forall a, 0 <= a -> 0 <= fold_left (fun acc d => 10 * acc + d) ds a) as H; [| by apply H].
  induction Hds as [|d ds Hd _ IH]; simpl; intros a Ha; [lia |]. apply IH. lia.
Qed.

Lemma lex_int_range s ds r : lex_int s = Ok (ds, r) -> Forall (fun d => 0 <= d < 10) ds.
Proof.
  destruct s as [|c s]; [done |]. cbn [lex_int]. pose proof (span_digits_range s).
  destruct (digit_of c) as [[|d|d] |] eqn:E; try done; [intros [= <- _]; repeat constructor; lia | |];
    apply digit_of_range in E; destruct (span_digits s); intros [= <- _]; by constructor.
Qed.

Lemma lex_frac_range s ds r : lex_frac s = Ok (ds, r) -> Forall (fun d => 0 <= d < 10) ds.
Proof.
  destruct s as [|c s]; [by intros [= <- _] |]. cbn [lex_frac]. pose proof (span_digits_range s).
  destruct (Ascii.eqb c "."); [| by intros [= <- _]].
  destruct (span_digits s) as [[|d ds'] r']; [done |]. by intros [= <- _].
Qed.

(** The numbers [JSON.parse] reads are binary64 values. *)
Lemma lex_number_representable s n r :
  lex_number s = Ok (n, r) -> Binary64.representable n = true.
Proof.
  unfold lex_number.
  destruct (lex_int _) as [[ids s2] |] eqn:Hi; cbn [result_bind fst snd]; [| done].
  destruct (lex_frac s2) as [[fds s3] |] eqn:Hf; cbn [result_bind fst snd]; [| done].
  destruct (lex_exp s3) as [[ex s4] |] eqn:He; cbn [result_bind fst snd]; [| done].
  destruct (Binary64.of_decimal _ _ _) as [m |] eqn:Ho; [intros [= <- _] | done].
  eapply Binary64.of_decimal_representable; [| exact Ho].
  apply digits_value_nonneg, Forall_app. split; [by eapply lex_int_range | by eapply lex_frac_range].
Qed.

Lemma keyword_Ok w v s v' r : keyword w v s = Ok (v', r) -> v' = v.
Proof. unfold keyword. destruct (strip_prefix w s); [by intros [= <- _] | done]. Qed.

Lemma json_ok_arr xs : Forall json_ok xs -> json_ok (JArr xs).
Proof.
  unfold json_ok. intros Hxs. cbn [is_json engine_value]. rewrite !forallb_forall.
  rewrite Forall_forall in Hxs. split; intros x Hx; apply Hxs, list_elem_of_In, Hx.
Qed.

Lemma json_ok_obj_set k x ps : json_ok x -> json_ok (JObj ps) -> json_ok (JObj (obj_set k x ps)).
Proof.
  unfold json_ok. cbn [is_json engine_value]. rewrite !andb_true_iff, !forallb_forall.
  intros [Hx1 Hx2] [Hps1 [Hord Hps2]]. split_and!; [| by apply obj_set_ordered |];
    intros p Hp; (destruct (obj_set_props k x ps p Hp) as [-> | Hin]; [done | auto]).
Qed.

(** Unfold one [p <- m ;; k] in a hypothesis [H : ... = Ok _], naming
    the pair [m] returned [(a, b)] and its equation [E]. *)
Tactic Notation "bind_ok" hyp(H) "as" ident(a) ident(b) ident(E) :=
  match type of H with
  | result_bind ?m _ = Ok _ =>
      destruct m as [[a b] | ?] eqn:E; cbn [result_bind fst snd] in H; [| discriminate H]
  end.

Lemma parse_ok f :
  (forall s v r, parse_value f s = Ok (v, r) -> json_ok v) /\
  (forall acc s v r, Forall json_ok acc -> parse_elems f acc s = Ok (v, r) -> json_ok v) /\
  (forall acc s v r, json_ok (JObj acc) -> parse_members f acc s = Ok (v, r) -> json_ok v).
Proof.
  induction f as [|f [IHv [IHe IHm]]]; [split_and!; done |]. split_and!.
  - intros s v r H. cbn [parse_value] in H. destruct (skip_ws s) as [|c t]; [done |].
    destruct (Ascii.eqb c "{").
    { destruct (skip_ws t) as [|c' t']; [done |]. destruct (Ascii.eqb c' "}").
      - injection H as <- _. done.
      - apply (IHm [] t v r); [done | exact H]. }
    destruct (Ascii.eqb c "[").
    { destruct (skip_ws t) as [|c' t']; [done |]. destruct (Ascii.eqb c' "]").
      - injection H as <- _. done.
      - apply (IHe [] t v r); [constructor | exact H]. }
    destruct (Ascii.eqb c dquote); [bind_ok H as x t' E; by injection H as <- _ |].
    destruct (Ascii.eqb c "t"); [by apply keyword_Ok in H as -> |].
    destruct (Ascii.eqb c "f"); [by apply keyword_Ok in H as -> |].
    destruct (Ascii.eqb c "n"); [by apply keyword_Ok in H as -> |].
    destruct (_ || _); [| done]. bind_ok H as n t' E. injection H as <- _.
    split; [done |]. by eapply lex_number_representable.
  - intros acc s v r Hacc H. cbn [parse_elems] in H. bind_ok H as x t E.
    pose proof (IHv _ _ _ E) as Hx.
    destruct (skip_ws t) as [|c t']; [done |].
    assert (Forall json_ok (acc ++ [x])) by (apply Forall_app; auto).
    destruct (Ascii.eqb c ","); [by apply (IHe (acc ++ [x]) t' v r) |].
    destruct (Ascii.eqb c "]"); [| done]. injection H as <- _. by apply json_ok_arr.
  - intros acc s v r Hacc H. cbn [parse_members] in H. destruct (skip_ws s) as [|c t]; [done |].
    destruct (Ascii.eqb c dquote); [| done]. bind_ok H as k t1 Ek.
    destruct (skip_ws t1) as [|c1 t2]; [done |]. destruct (Ascii.eqb c1 ":"); [| done].
    bind_ok H as x t3 E. pose proof (IHv _ _ _ E) as Hx.
    destruct (skip_ws t3) as [|c3 t4]; [done |].
    assert (json_ok (JObj (obj_set k x acc))) as Hacc' by (by apply json_ok_obj_set).
    destruct (Ascii.eqb c3 ","); [by apply (IHm (obj_set k x acc) t4 v r) |].
    destruct (Ascii.eqb c3 "}"); [| done]. by injection H as <- _.
Qed.

(** What [JSON.parse] returns is a JSON value of the engine. *)
Lemma json_parse_ok s v : json_parse s = Ok v -> json_ok v.
Proof.
  unfold json_parse. intros H. bind_ok H as w r E.
  destruct (skip_ws r); [injection H as <-; by apply (proj1 (parse_ok (S (2 * String.length s))) s w r) | done].
Qed.

Lemma parse_members_obj f acc s v r : parse_members f acc s = Ok (v, r) -> exists ps, v = JObj ps.
Proof.
  revert acc s. induction f as [|f IH]; intros acc s H; [done |]. cbn [parse_members] in H.
  destruct (skip_ws s) as [|c t]; [done |]. destruct (Ascii.eqb c dquote); [| done].
  bind_ok H as k t1 Ek. destruct (skip_ws t1) as [|c1 t2]; [done |].
  destruct (Ascii.eqb c1 ":"); [| done]. bind_ok H as x t3 E.
  destruct (skip_ws t3) as [|c3 t4]; [done |].
  destruct (Ascii.eqb c3 ","); [by eapply IH |]. destruct (Ascii.eqb c3 "}"); [| done].
  injection H as <- _. eauto.
Qed.

Lemma parse_elems_arr f acc s v r : parse_elems f acc s = Ok (v, r) -> exists xs, v = JArr xs.
Proof.
  revert acc s. induction f as [|f IH]; intros acc s H; [done |]. cbn [parse_elems] in H.
  bind_ok H as x t E. destruct (skip_ws t) as [|c t']; [done |].
  destruct (Ascii.eqb c ","); [by eapply IH |]. destruct (Ascii.eqb c "]"); [| done].
  injection H as <- _. eauto.
Qed.

(** An object or an array is read from a text whose first non-blank
    character opens it. *)
Lemma parse_value_first f s v r :
  parse_value f s = Ok (v, r) ->
  match v with
  | JObj _ => exists t, skip_ws s = String "{" t
  | JArr _ => exists t, skip_ws s = String "[" t
  | _ => True
  end.
Proof.
  destruct f as [|f]; [done |]. cbn [parse_value].
  destruct (skip_ws s) as [|c t]; [done |].
  destruct (Ascii.eqb_spec c "{") as [-> | _].
  { destruct (skip_ws t) as [|c' t']; [done |]. destruct (Ascii.eqb c' "}").
    - intros [= <- _]. eauto.
    - intros (ps & ->)%parse_members_obj. eauto. }
  destruct (Ascii.eqb_spec c "[") as [-> | _].
  { destruct (skip_ws t) as [|c' t']; [done |]. destruct (Ascii.eqb c' "]").
    - intros [= <- _]. eauto.
    - intros (xs & ->)%parse_elems_arr. eauto. }
  destruct (Ascii.eqb c dquote); [intros H; bind_ok H as x t' E; by injection H as <- _ |].
  destruct (Ascii.eqb c "t"); [by intros ->%keyword_Ok |].
  destruct (Ascii.eqb c "f"); [by intros ->%keyword_Ok |].
  destruct (Ascii.eqb c "n"); [by intros ->%keyword_Ok |].
  destruct (_ || _); [| done]. intros H. bind_ok H as x t' E. by injection H as <- _.
Qed.

Lemma json_parse_first s v :
  json_parse s = Ok v ->
  match v with
  | JObj _ => exists t, skip_ws s = String "{" t
  | JArr _ => exists t, skip_ws s = String "[" t
  | _ => True
  end.
Proof.
  unfold json_parse. intros H. bind_ok H as w r E.
  destruct (skip_ws r); [injection H as <- | done]. by apply parse_value_first in E.
Qed.

(** [JSON.parse] reads an integer literal as the number the engine
    rounds it to. *)
Lemma lex_int_literal n r :
  ends_number r = true ->
  lex_number (int_literal n +:+ r) =
    match Binary64.of_int n with Some m => Ok (m, r) | None => Err Unsupported end.
Proof.
  intros Hr. destruct (ends_number_spec r Hr) as (_ & Hfr & Hex).
  assert (num_sign (int_literal n +:+ r) =
          (n <? 0, digits_string (Binary64.dec_digits (Z.abs n)) +:+ r)) as Hs.
  { unfold int_literal. destruct (n <? 0); [by rewrite str_app_cons |].
    pose proof (Binary64.dec_digits_range (Z.abs n) ltac:(lia)) as Hrange.
    destruct (Binary64.dec_digits (Z.abs n)) as [|d ds] eqn:E;
      [by destruct (Binary64.dec_digits_nonempty (Z.abs n)) |].
    inversion Hrange as [|? ? Hd _]; subst. destruct (digit_char_class d Hd) as (_ & _ & Hm & _).
    unfold digits_string. cbn [fold_right]. rewrite str_app_cons. simpl. by rewrite Hm. }
  unfold lex_number. rewrite Hs. cbn [fst snd]. rewrite lex_int_digits by (lia || done).
  cbn [result_bind fst snd]. rewrite Hfr. cbn [result_bind fst snd]. rewrite Hex.
  cbn [result_bind fst snd]. rewrite app_nil_r, Binary64.digits_value_dec_digits. done.
Qed.

Lemma int_literal_first n :
  exists c t, int_literal n = String c t /\
  (c = "-"%char \/ exists d, 0 <= d < 10 /\ c = digit_char d).
Proof.
  unfold int_literal. destruct (n <? 0); [eexists _, _; split; [reflexivity | by left] |].
  pose proof (Binary64.dec_digits_range (Z.abs n) ltac:(lia)) as Hr.
  destruct (Binary64.dec_digits (Z.abs n)) as [|d ds] eqn:E;
    [by destruct (Binary64.dec_digits_nonempty (Z.abs n)) |].
  inversion Hr; subst. eexists _, _. split; [reflexivity | right; eauto].
Qed.

(** An integer literal followed by a context that ends a number is read
    as the number the engine rounds it to. *)
Lemma parse_int_literal f n r :
  ends_number r = true ->
  parse_value (S f) (int_literal n +:+ r) =
    match Binary64.of_int n with Some m => Ok (JNum m, r) | None => Err Unsupported end.
Proof.
  intros Hr. destruct (int_literal_first n) as (c & t & E & Hc).
  rewrite E, str_app_cons, parse_value_num by done. rewrite <- str_app_cons, <- E, lex_int_literal by done.
  by destruct (Binary64.of_int n).
Qed.

End Json.
