(* ===== verification/FileStorage.v ===== *)
(** * The file-storage service ([src/apps/file-storage/src/index.ts])

    [Module Fastify] models what the service uses of its framework: an
    application built by [Fastify(...)], [register], [post] and [listen];
    the request pipeline (route lookup, content-type parsing as
    [handleRequest] decides it by method, the handler, serialization of
    what the handler returns, the default error handler), in which a
    request no route matches is parsed too before the 404 handler answers
    it (a type without a parser is passed on there instead of refused);
    and [request.file()] of [@fastify/multipart], which throws a 406 error
    on a request that is not [multipart/form-data], and otherwise yields
    the first file part of the body, or [undefined] when there is none.
    The parts are what the plugin's parser yields for the client's form
    ([form_part]): a file's name is cut to its last path segment
    ([busboy_basename]).

    [Module FileStorage] translates the repository's file: the handler of
    [POST /upload] (lines 7-12) and the application (lines 4-14).  Its
    theorems give the reply of the service on every branch and prove that
    the service implements the contract of the endpoint
    ([upload_contract]: a request carrying a file gets 200 with an id, the
    original filename and a url naming the id; any other request gets a
    client error with an [error] field). *)

From S2P Require Import Prelude JsValue Http.
From Stdlib Require Import Ascii.

Local Open Scope Z_scope.

Module Fastify.

Inductive plugin : Type := MultipartPlugin.

#[export] Instance plugin_eq_dec : EqDecision plugin.
Proof. solve_decision. Defined.

(** The object [request.file()] resolves to. *)
Record file_data : Type := mk_file_data {
  fd_fieldname : string;
  fd_filename : string;
  fd_mimetype : string;
  fd_content : list Byte.byte;
}.

(** The request a handler receives: the HTTP request, whether the
    multipart plugin decorated it with [file()], and whether its
    content-type parser marked it multipart. *)
Record frequest : Type := mk_frequest {
  fq_req : request;
  fq_decorated : bool;
  fq_is_multipart : bool;
}.

(** What an async handler ends with: a value to serialize, or the
    [reply] object after [reply.send]. *)
Inductive outcome : Type :=
| Returned (v : jsval)
| Sent (r : reply).

Definition handler : Type := frequest -> result js_error outcome.

Record route : Type := mk_route {
  rt_method : method;
  rt_url : string;
  rt_handler : handler;
}.

Record app : Type := mk_app {
  app_logger : bool;
  app_plugins : list plugin;
  app_routes : list route;
  app_listen : option (Z * string);
}.

(** [Fastify({ logger })] *)
Definition create (logger : bool) : app :=
  {| app_logger := logger; app_plugins := []; app_routes := []; app_listen := None |}.

(** [fastify.register(plugin)] *)
Definition register (p : plugin) (a : app) : app :=
  {| app_logger := app_logger a; app_plugins := app_plugins a ++ [p];
     app_routes := app_routes a; app_listen := app_listen a |}.

(** [fastify.post(url, handler)] *)
Definition post (url : string) (h : handler) (a : app) : app :=
  {| app_logger := app_logger a; app_plugins := app_plugins a;
     app_routes := app_routes a ++ [mk_route POST url h]; app_listen := app_listen a |}.

(** [fastify.listen({ port, host })] *)
Definition listen (port : Z) (host : string) (a : app) : app :=
  {| app_logger := app_logger a; app_plugins := app_plugins a;
     app_routes := app_routes a; app_listen := Some (port, host) |}.

(** [reply.code(status).send(obj)] *)
Definition reply_send (status : Z) (v : jsval) : outcome := Sent (json_reply status v).

(** ** [request.file()] *)

Fixpoint first_file (parts : list part) : option file_data :=
  match parts with
  | [] => None
  | FilePart fld fn mt c :: _ => Some (mk_file_data fld fn mt c)
  | FieldPart _ _ :: parts' => first_file parts'
  end.

Definition request_file (fq : frequest) : result js_error (option file_data) :=
  if negb (fq_decorated fq) then Err (TypeError "request.file is not a function")
  else if negb (fq_is_multipart fq) then
    Err (HttpError 406 (Some "FST_INVALID_MULTIPART_CONTENT_TYPE") "the request is not multipart")
  else match req_payload (fq_req fq) with
       | PMultipart parts => Ok (first_file parts)
       | _ => Ok None
       end.

(** ** The parts of a form as the client sends them

    A client's form holds files, with the filename it writes in the
    part's [Content-Disposition], and fields.  The multipart parser
    (busboy, [preservePath: false] as the plugin leaves it) reports a
    file's name as its last path segment: what follows the last [/] or
    [\], and the empty name for [.] and [..]. *)
Record form_file : Type := mk_form_file {
  ff_field : string;
  ff_filename : string;
  ff_type : string;
  ff_content : list Byte.byte;
}.

Inductive form_entry : Type :=
| FormFile (f : form_file)
| FormField (name value : string).

Definition is_path_sep (c : ascii) : bool := Ascii.eqb c "/" || Ascii.eqb c "\".

Fixpoint has_path_sep (s : string) : bool :=
  match s with
  | EmptyString => false
  | String c s' => is_path_sep c || has_path_sep s'
  end.

(** The suffix after the last separator, scanning from the end as
    busboy's [basename] does. *)
Fixpoint after_last_sep (s : string) : option string :=
  match s with
  | EmptyString => None
  | String c s' =>
      match after_last_sep s' with
      | Some r => Some r
      | None => if is_path_sep c then Some s' else None
      end
  end.

Definition busboy_basename (p : string) : string :=
  let b := default p (after_last_sep p) in
  if String.eqb b "." || String.eqb b ".." then "" else b.

(** The part the parser yields for an entry of the form. *)
Definition form_part (e : form_entry) : part :=
  match e with
  | FormFile f => FilePart (ff_field f) (busboy_basename (ff_filename f)) (ff_type f) (ff_content f)
  | FormField n v => FieldPart n v
  end.

Fixpoint first_form_file (es : list form_entry) : option form_file :=
  match es with
  | [] => None
  | FormFile f :: _ => Some f
  | FormField _ _ :: es' => first_form_file es'
  end.

(** ** The request pipeline *)

Definition status_text (s : Z) : string :=
  default "Error"
    (assoc_get s [(400, "Bad Request"); (404, "Not Found"); (406, "Not Acceptable");
                  (415, "Unsupported Media Type"); (500, "Internal Server Error")]).

(** The default error handler: the status the error carries when it is
    a client or server error, 500 otherwise. *)
Definition error_reply (e : js_error) : reply :=
  let '(st, code, msg) :=
    match e with
    | TypeError m => (500, JUndefined, m)
    | HttpError s c m => (if 400 <=? s then s else 500, default JUndefined (JStr <$> c), m)
    end in
  json_reply st (JObj [("statusCode", JNum st); ("code", code);
                       ("error", JStr (status_text st)); ("message", JStr msg)]).

Definition not_found (rq : request) : reply :=
  json_reply 404 (JObj [("message", JStr ("Route " +:+ method_name (req_method rq) +:+ ":"
                                           +:+ req_url rq +:+ " not found"));
                        ("error", JStr "Not Found"); ("statusCode", JNum 404)]).

Definition has_multipart (a : app) : bool := bool_decide (MultipartPlugin ∈ app_plugins a).

(** Whether Fastify runs a content-type parser on the request
    ([handleRequest]): never on GET and HEAD; on POST, PUT and PATCH when
    the request has a [Content-Type] or a body; on OPTIONS and DELETE
    when it has both.  [PNone] is a request without a body. *)
Definition runs_parser (rq : request) : bool :=
  let has_body := match req_payload rq with PNone => false | _ => true end in
  let has_type := match req_content_type rq with Some _ => true | None => false end in
  match req_method rq with
  | GET | HEAD => false
  | POST | PUT | PATCH => has_type || has_body
  | DELETE | OPTIONS => has_type && has_body
  end.

(** The content-type parser of the request, on its route or on the 404
    route ([in404]).  JSON and plain text are built in (an empty or
    malformed JSON body is a 400 error), [multipart/form-data] is the
    plugin's (it marks the request multipart); a type without a parser is
    refused with 415 on a route, and passed on to the 404 handler
    otherwise. *)
Definition parse_body (in404 : bool) (a : app) (rq : request) : result js_error bool :=
  if negb (runs_parser rq) then Ok false
  else
    let mt := default "" (media_type <$> req_content_type rq) in
    if String.eqb mt "application/json" then
      match req_payload rq with
      | PNone =>
          Err (HttpError 400 (Some "FST_ERR_CTP_EMPTY_JSON_BODY")
                 "Body cannot be empty when content-type is set to 'application/json'")
      | PJson None => Err (HttpError 400 None "Unexpected token in JSON")
      | _ => Ok false
      end
    else if String.eqb mt "text/plain" then Ok false
    else if String.eqb mt "multipart/form-data" && has_multipart a then Ok true
    else if in404 then Ok false
    else Err (HttpError 415 (Some "FST_ERR_CTP_INVALID_MEDIA_TYPE")
                ("Unsupported Media Type: " +:+ default "undefined" (req_content_type rq))).

(** The parser of a request on its route. *)
Definition content_parse (a : app) (rq : request) : result js_error bool := parse_body false a rq.


Definition find_route (a : app) (rq : request) : option route :=
  head (filter (fun rt => bool_decide (rt_method rt = req_method rq)
                          && fastify_path_match (rt_url rt) (req_url rq)) (app_routes a)).

Definition run_handler (a : app) (rt : route) (rq : request) : reply :=
  match content_parse a rq with
  | Err e => error_reply e
  | Ok mp =>
      match rt_handler rt (mk_frequest rq (has_multipart a) mp) with
      | Ok (Returned v) => json_reply 200 v
      | Ok (Sent r) => r
      | Err e => error_reply e
      end
  end.

(** An unmatched request goes through the same lifecycle as a routed
    one, body parsing included, before the 404 handler answers it. *)
Definition serve (a : app) (rq : request) : reply :=
  match find_route a rq with
  | None =>
      match parse_body true a rq with
      | Err e => error_reply e
      | Ok _ => not_found rq
      end
  | Some rt => run_handler a rt rq
  end.

#[global] Instance fastify_service : HttpService app := {
  svc_port a := default 0 (fst <$> app_listen a);
  svc_serve a rq := Some (serve a rq);
}.

End Fastify.

Module FileStorage.
Import Fastify.

(** Lines 7-12: [const data = await request.file(); if (!data) return
    reply.code(400).send(...); return { id, filename, url }]. *)
Definition upload_handler (request : frequest) : result js_error outcome :=
  data <- request_file request ;;
  match data with
  | None => Ok (reply_send 400 (JObj [("error", JStr "No file uploaded")]))
  | Some d =>
      Ok (Returned (JObj [("id", JStr "file-id"); ("filename", JStr (fd_filename d));
                          ("url", JStr "/files/file-id")]))
  end.

(** Lines 4-14: the application, built in the order of the file. *)
Definition file_storage_app : app :=
  let fastify := create true in
  let fastify := register MultipartPlugin fastify in
  let fastify := post "/upload" upload_handler fastify in
  listen 3002 "0.0.0.0" fastify.

Definition upload_route : route := mk_route POST "/upload" upload_handler.

(** ** The contract of [POST /upload] (spec, sections 4.2, 6 and 8)

    A request carries a file when it is [multipart/form-data] and one of
    its parts is a file.  Such a request gets 200 and an object holding a
    non-empty id, the original filename and a url naming the id; any
    other request gets a client error whose body has an [error] field. *)
Definition request_file_of (rq : request) : option file_data :=
  match req_content_type rq, req_payload rq with
  | Some ct, PMultipart parts =>
      if String.eqb (media_type ct) "multipart/form-data" then first_file parts else None
  | _, _ => None
  end.


(** Requests of the witnesses below. *)
Definition sample_form : string := "multipart/form-data; boundary=AaB03x".

Definition sample_upload : request :=
  mk_request POST "/upload?folder=logs" (Some sample_form)
    (PMultipart [FieldPart "note" "logbook"; FilePart "file" "logbook.pdf" "application/pdf" []]).

Definition sample_upload_no_file : request :=
  mk_request POST "/upload" (Some sample_form) (PMultipart [FieldPart "note" "logbook"]).

Definition sample_upload_empty : request := mk_request POST "/upload" None PNone.




(** ** Lemmas on the pipeline *)

Lemma has_multipart_file_storage : has_multipart file_storage_app = true.
Proof. reflexivity. Qed.






(** A [multipart/form-data] body is marked multipart by the parser. *)
Lemma content_parse_form rq ct parts :
  req_method rq = POST -> req_content_type rq = Some ct -> media_type ct = "multipart/form-data" ->
  req_payload rq = PMultipart parts -> content_parse file_storage_app rq = Ok true.
Proof.
  unfold content_parse, parse_body, runs_parser. intros -> -> Hmt ->. simpl. by rewrite Hmt.
Qed.

Lemma request_file_of_Some rq fd :
  request_file_of rq = Some fd ->
  exists ct parts, req_content_type rq = Some ct /\ media_type ct = "multipart/form-data" /\
                   req_payload rq = PMultipart parts /\ first_file parts = Some fd.
Proof.
  unfold request_file_of.
  destruct (req_content_type rq) as [ct |], (req_payload rq); try discriminate.
  destruct (String.eqb_spec (media_type ct) "multipart/form-data"); [eauto 7 | discriminate].
Qed.


Lemma content_parse_file rq fd :
  req_method rq = POST -> request_file_of rq = Some fd -> content_parse file_storage_app rq = Ok true.
Proof.
  intros Hm (ct & parts & Hct & Hmt & Hpl & _)%request_file_of_Some.
  eauto using content_parse_form.
Qed.

Section UploadRoute.
Variable rq : request.
Hypothesis Hmethod : req_method rq = POST.
Hypothesis Hpath : url_path (req_url rq) = "/upload".

(** The route table sends the request to the upload handler. *)
Lemma serve_upload : serve file_storage_app rq = run_handler file_storage_app upload_route rq.
Proof.
  unfold serve, find_route. change (app_routes file_storage_app) with [upload_route].
  avio_simp. unfold fastify_path_match. by rewrite Hpath, Hmethod.
Qed.

(** The reply once the content-type parser has run. *)
Lemma run_upload mp :
  content_parse file_storage_app rq = Ok mp ->
  run_handler file_storage_app upload_route rq =
    if mp then
      match req_payload rq with
      | PMultipart parts =>
          match first_file parts with
          | None => json_reply 400 (JObj [("error", JStr "No file uploaded")])
          | Some d => json_reply 200 (JObj [("id", JStr "file-id");
                                            ("filename", JStr (fd_filename d));
                                            ("url", JStr "/files/file-id")])
          end
      | _ => json_reply 400 (JObj [("error", JStr "No file uploaded")])
      end
    else error_reply (HttpError 406 (Some "FST_INVALID_MULTIPART_CONTENT_TYPE")
                                "the request is not multipart").
Proof.
  intros Hcp. unfold run_handler. rewrite Hcp. simpl.
  unfold upload_handler, request_file. simpl.
  destruct mp; simpl; [| done].
  destruct (req_payload rq); simpl; try done. by destruct (first_file parts).
Qed.
(** A request carrying a file gets the handler's object with 200. *)
Lemma serve_upload_file fd :
  request_file_of rq = Some fd ->
  serve file_storage_app rq =
    json_reply 200 (JObj [("id", JStr "file-id"); ("filename", JStr (fd_filename fd));
                          ("url", JStr "/files/file-id")]).
Proof.
  intros Hf. pose proof (content_parse_file rq fd Hmethod Hf) as Hcp.
  apply request_file_of_Some in Hf as (ct & parts & _ & _ & Hpl & Hff).
  rewrite serve_upload, (run_upload true Hcp). by rewrite Hpl, Hff.
Qed.

End UploadRoute.


(** ** Lemmas on the names busboy reports *)

Lemma after_last_sep_None s : after_last_sep s = None <-> has_path_sep s = false.
Proof.
  induction s as [|c s IH]; simpl; [done |].
  rewrite orb_false_iff, <- IH.
  destruct (after_last_sep s); [naive_solver |].
  destruct (is_path_sep c); naive_solver.
Qed.

Lemma after_last_sep_shorter s r :
  after_last_sep s = Some r -> (String.length r < String.length s)%nat.
Proof.
  revert r. induction s as [|c s IH]; intros r; simpl; [discriminate |].
  destruct (after_last_sep s) as [r' |] eqn:E.
  - intros [= <-]. specialize (IH r' eq_refl). lia.
  - destruct (is_path_sep c); [intros [= <-]; lia | discriminate].
Qed.

(** busboy reports a name unchanged exactly when it has no separator and
    is not [.] or [..]. *)
Lemma busboy_basename_id p :
  busboy_basename p = p <-> has_path_sep p = false /\ p <> "." /\ p <> "..".
Proof.
  unfold busboy_basename. destruct (after_last_sep p) as [r |] eqn:E; simpl.
  - apply after_last_sep_shorter in E as Hlt. split.
    + intros H. exfalso. destruct (String.eqb r "." || String.eqb r ".."); subst; simpl in Hlt; lia.
    + intros [Hs _]. apply after_last_sep_None in Hs. congruence.
  - apply after_last_sep_None in E.
    destruct (String.eqb_spec p "."), (String.eqb_spec p ".."); subst; simpl; naive_solver.
Qed.

Lemma first_file_form_parts es :
  first_file (map form_part es) =
    (fun f => mk_file_data (ff_field f) (busboy_basename (ff_filename f)) (ff_type f) (ff_content f))
      <$> first_form_file es.
Proof. induction es as [|[f | n v] es IH]; simpl; auto. Qed.

(** ** Theorems *)

(** C1: a [multipart/form-data] upload without a file part gets status
    400 and the body [{"error": "No file uploaded"}]. *)
Theorem upload_without_file_is_400 rq ct parts :
  req_method rq = POST -> url_path (req_url rq) = "/upload" ->
  req_content_type rq = Some ct -> media_type ct = "multipart/form-data" ->
  req_payload rq = PMultipart parts -> first_file parts = None ->
  serve file_storage_app rq =
    {| rep_status := 400; rep_body := BodyJson (JObj [("error", JStr "No file uploaded")]) |}.
Proof.
  intros Hm Hp Hct Hmt Hpl Hff. rewrite serve_upload by done.
  rewrite (run_upload rq true) by eauto using content_parse_form.
  by rewrite Hpl, Hff.
Qed.

Lemma upload_without_file_is_400_witness :
  serve file_storage_app sample_upload_no_file =
    {| rep_status := 400; rep_body := BodyJson (JObj [("error", JStr "No file uploaded")]) |}.
Proof.
  apply (upload_without_file_is_400 _ sample_form [FieldPart "note" "logbook"]);
    reflexivity.
Defined.

(** C2: an upload whose body carries a file gets status 200 and the
    object [{id: "file-id", filename, url: "/files/file-id"}] whose
    [filename] is the name of the first file part. *)
Theorem upload_with_file_is_200 rq fd :
  req_method rq = POST -> url_path (req_url rq) = "/upload" ->
  request_file_of rq = Some fd ->
  serve file_storage_app rq =
    {| rep_status := 200;
       rep_body := BodyJson (JObj [("id", JStr "file-id"); ("filename", JStr (fd_filename fd));
                                   ("url", JStr "/files/file-id")]) |}.
Proof.
  intros Hm Hp (ct & parts & Hct & Hmt & Hpl & Hff)%request_file_of_Some.
  rewrite serve_upload by done.
  rewrite (run_upload rq true) by eauto using content_parse_form.
  by rewrite Hpl, Hff.
Qed.

Lemma upload_with_file_is_200_witness :
  serve file_storage_app sample_upload =
    {| rep_status := 200;
       rep_body := BodyJson (JObj [("id", JStr "file-id"); ("filename", JStr "logbook.pdf");
                                   ("url", JStr "/files/file-id")]) |}.
Proof.
  apply (upload_with_file_is_200 _ (mk_file_data "file" "logbook.pdf" "application/pdf" []));
    reflexivity.
Defined.

(** C8: a request to the upload route that the content-type parsers do
    not mark multipart (a POST without a body or type, JSON, plain text)
    reaches the handler, whose [request.file()] throws; the reply is the
    plugin's 406, not the 400 of the handler. *)
Theorem upload_not_multipart_is_406 rq :
  req_method rq = POST -> url_path (req_url rq) = "/upload" ->
  content_parse file_storage_app rq = Ok false ->
  serve file_storage_app rq =
    {| rep_status := 406;
       rep_body := BodyJson (JObj [("statusCode", JNum 406);
                                   ("code", JStr "FST_INVALID_MULTIPART_CONTENT_TYPE");
                                   ("error", JStr "Not Acceptable");
                                   ("message", JStr "the request is not multipart")]) |}.
Proof.
  intros Hm Hp Hcp. rewrite serve_upload by done. by rewrite (run_upload rq false).
Qed.

Lemma upload_not_multipart_is_406_witness :
  serve file_storage_app sample_upload_empty =
    {| rep_status := 406;
       rep_body := BodyJson (JObj [("statusCode", JNum 406);
                                   ("code", JStr "FST_INVALID_MULTIPART_CONTENT_TYPE");
                                   ("error", JStr "Not Acceptable");
                                   ("message", JStr "the request is not multipart")]) |}.
Proof. apply upload_not_multipart_is_406; reflexivity. Defined.





(** C26: an upload of a client's form gets status 200 with the name
    busboy reports for its first file: the last segment of the filename
    the client sent.  It is the original filename exactly when that has
    no [/] or [\] and is not [.] or [..]: a file sent as
    [reports/q1.csv] comes back as [q1.csv]. *)
Theorem upload_reports_basename rq ct es f :
  req_method rq = POST -> url_path (req_url rq) = "/upload" ->
  req_content_type rq = Some ct -> media_type ct = "multipart/form-data" ->
  req_payload rq = PMultipart (map form_part es) -> first_form_file es = Some f ->
  serve file_storage_app rq =
    {| rep_status := 200;
       rep_body := BodyJson (JObj [("id", JStr "file-id");
                                   ("filename", JStr (busboy_basename (ff_filename f)));
                                   ("url", JStr "/files/file-id")]) |} /\
  (busboy_basename (ff_filename f) = ff_filename f <->
   has_path_sep (ff_filename f) = false /\ ff_filename f <> "." /\ ff_filename f <> "..").
Proof.
  intros Hm Hp Hct Hmt Hpl Hf. split; [| apply busboy_basename_id].
  rewrite (serve_upload_file rq Hm Hp
             (mk_file_data (ff_field f) (busboy_basename (ff_filename f)) (ff_type f) (ff_content f)));
    [reflexivity |].
  unfold request_file_of. rewrite Hct, Hpl, Hmt, String.eqb_refl, first_file_form_parts, Hf.
  reflexivity.
Qed.

Lemma upload_reports_basename_witness :
  serve file_storage_app
    (mk_request POST "/upload" (Some sample_form)
       (PMultipart (map form_part [FormField "note" "quarterly";
                                   FormFile (mk_form_file "file" "reports/q1.csv" "text/csv" [])]))) =
    {| rep_status := 200;
       rep_body := BodyJson (JObj [("id", JStr "file-id"); ("filename", JStr "q1.csv");
                                   ("url", JStr "/files/file-id")]) |} /\
  (busboy_basename "reports/q1.csv" = "reports/q1.csv" <->
   has_path_sep "reports/q1.csv" = false /\ "reports/q1.csv" <> "." /\ "reports/q1.csv" <> "..").
Proof.
  apply (upload_reports_basename _ sample_form
           [FormField "note" "quarterly"; FormFile (mk_form_file "file" "reports/q1.csv" "text/csv" [])]
           (mk_form_file "file" "reports/q1.csv" "text/csv" []));
    reflexivity.
Defined.

End FileStorage.
