(* ===== verification/Payment.v ===== *)
(** * The payment service ([src/apps/payment-service/src/index.ts])

    [Module Express] models what the service uses of its framework: an
    application built by [express()], [app.use], [app.post] and
    [app.listen]; the JSON body parser [express.json()] (strict mode: only
    an object or an array is accepted, a malformed or scalar body is a
    400 error, a request it does not parse keeps the default [req.body]);
    route matching (case-insensitive, optional trailing slash); the
    router's own answer to an OPTIONS request on a routed path (200 with
    the allowed methods); the final handler (404 page, error page with
    the error's status or 500).  Not modelled: the [Allow] header of the
    OPTIONS answer (replies carry a status and a body), the parser's
    100 kB limit (413) and its refusal of non-UTF charsets (415); a JSON
    payload stands for a body the parser decoded.

    The installed major version of Express is not recorded in the
    repository, and the two versions differ exactly where this handler is
    concerned: [req.body] is [undefined] until a body parser sets it;
    Express 4 (body-parser 1) sets it to [{}] before deciding whether to
    parse and ignores a rejected promise of an async handler (the request
    is never answered); Express 5 (body-parser 2) leaves it [undefined]
    when it does not parse the body and sends a rejected promise to the
    error handler.  Both are modelled, as
    [version].

    [Module Payment] translates the repository's file: the invoice handler
    (lines 6-9) and the application (lines 3-11). *)

From S2P Require Import Prelude JsValue Http.

Local Open Scope Z_scope.

Module Express.

Inductive version : Type := V4 | V5.

#[export] Instance version_eq_dec : EqDecision version.
Proof. solve_decision. Defined.

Inductive middleware : Type := JsonParser.

(** The request a route handler receives: the HTTP request and [req.body]
    as the middleware left it. *)
Record erequest : Type := mk_erequest {
  eq_req : request;
  eq_body : jsval;
}.

(** A route handler ends with the reply [res.json] sent, or throws. *)
Definition handler : Type := erequest -> result js_error reply.

Record route : Type := mk_route {
  rt_method : method;
  rt_path : string;
  rt_handler : handler;
}.

Record app : Type := mk_app {
  app_version : version;
  app_middleware : list middleware;
  app_routes : list route;
  app_port : option Z;
}.

(** [express()] *)
Definition create (v : version) : app :=
  {| app_version := v; app_middleware := []; app_routes := []; app_port := None |}.

(** [app.use(mw)] *)
Definition use (mw : middleware) (a : app) : app :=
  {| app_version := app_version a; app_middleware := app_middleware a ++ [mw];
     app_routes := app_routes a; app_port := app_port a |}.

(** [app.post(path, handler)] *)
Definition post (path : string) (h : handler) (a : app) : app :=
  {| app_version := app_version a; app_middleware := app_middleware a;
     app_routes := app_routes a ++ [mk_route POST path h]; app_port := app_port a |}.

(** [app.listen(port, callback)]; the callback only logs. *)
Definition listen (port : Z) (a : app) : app :=
  {| app_version := app_version a; app_middleware := app_middleware a;
     app_routes := app_routes a; app_port := Some port |}.

(** [res.json(obj)]: status 200 and the serialized object. *)
Definition res_json (v : jsval) : reply := json_reply 200 v.

(** [express.json()] with its defaults ([type: 'application/json'],
    [strict: true]).  Body-parser 1 (Express 4) first sets
    [req.body = req.body || {}]; body-parser 2 (Express 5) leaves
    [req.body] as it is when it does not parse the request.  A request
    without a body, or whose media type is not [application/json], is not
    parsed. *)
Definition json_parser (v : version) (rq : request) (body : jsval) : result js_error jsval :=
  let body := match v with V4 => js_or body (JObj []) | V5 => body end in
  match req_payload rq with
  | PNone => Ok body
  | pl =>
      if String.eqb (default "" (media_type <$> req_content_type rq)) "application/json" then
        match pl with
        | PJson (Some (JObj ps)) => Ok (JObj ps)
        | PJson (Some (JArr xs)) => Ok (JArr xs)
        | PJson (Some _) =>
            Err (HttpError 400 (Some "entity.parse.failed") "JSON body is not an object or array")
        | PJson None => Err (HttpError 400 (Some "entity.parse.failed") "Unexpected token in JSON")
        | _ => Ok body
        end
      else Ok body
  end.

Definition run_middleware (v : version) (mw : middleware) (rq : request)
    (body : jsval) : result js_error jsval :=
  match mw with JsonParser => json_parser v rq body end.

(** The middleware stack, in the order of [app.use]. *)
Fixpoint run_stack (v : version) (mws : list middleware) (rq : request)
    (body : jsval) : result js_error jsval :=
  match mws with
  | [] => Ok body
  | mw :: mws' => body' <- run_middleware v mw rq body ;; run_stack v mws' rq body'
  end.

Definition status_message (s : Z) : string :=
  default "Error"
    (assoc_get s [(400, "Bad Request"); (404, "Not Found"); (500, "Internal Server Error")]).

(** The final handler's error page: the error's [status] when it is a
    4xx or 5xx code, 500 otherwise.  The page shows the status message
    (in production) or the stack (in development); it is modelled by its
    status message. *)
Definition error_page (e : js_error) : reply :=
  let st := match e with
            | TypeError _ => 500
            | HttpError s _ _ => if (400 <=? s) && (s <? 600) then s else 500
            end in
  {| rep_status := st; rep_body := BodyHtml (status_message st) |}.

Definition not_found (rq : request) : reply :=
  {| rep_status := 404;
     rep_body := BodyHtml ("Cannot " +:+ method_name (req_method rq) +:+ " " +:+ url_path (req_url rq)) |}.

Definition find_route (a : app) (rq : request) : option route :=
  head (filter (fun rt => bool_decide (rt_method rt = req_method rq)
                          && express_path_match (rt_path rt) (req_url rq)) (app_routes a)).

(** The methods of the routes whose path matches the request, each
    once, in the order of the routes ([appendMethods] of the router). *)
Fixpoint append_methods (acc ms : list method) : list method :=
  match ms with
  | [] => acc
  | m :: ms' => append_methods (if bool_decide (m ∈ acc) then acc else acc ++ [m]) ms'
  end.

Definition path_methods (a : app) (rq : request) : list method :=
  append_methods [] (map rt_method (filter (fun rt => express_path_match (rt_path rt) (req_url rq))
                                           (app_routes a))).

(** The router's own answer to an OPTIONS request no route handles, on
    a path some route matches ([sendOptionsResponse]): 200 with the
    allowed methods joined by commas as the body; the same list goes to
    the [Allow] header, which the reply model does not carry. *)
Definition options_reply (ms : list method) : reply :=
  {| rep_status := 200; rep_body := BodyHtml (String.concat "," (map method_name ms)) |}.

(** What the router does with a request no route handles. *)
Definition unrouted (a : app) (rq : request) : reply :=
  if bool_decide (req_method rq = OPTIONS) && negb (bool_decide (path_methods a rq = []))
  then options_reply (path_methods a rq)
  else not_found rq.

(** An async handler that throws rejects its promise: Express 5 passes
    the error to the final handler, Express 4 drops it and never
    answers. *)
Definition handler_rejected (v : version) (e : js_error) : option reply :=
  match v with V4 => None | V5 => Some (error_page e) end.

Definition serve (a : app) (rq : request) : option reply :=
  let v := app_version a in
  match run_stack v (app_middleware a) rq JUndefined with
  | Err e => Some (error_page e)
  | Ok body =>
      match find_route a rq with
      | None => Some (unrouted a rq)
      | Some rt =>
          match rt_handler rt (mk_erequest rq body) with
          | Ok r => Some r
          | Err e => handler_rejected v e
          end
      end
  end.

#[global] Instance express_service : HttpService app := {
  svc_port a := default 0 (app_port a);
  svc_serve := serve;
}.

End Express.

Module Payment.
Import Express.

(** Lines 6-9: [const { amount_cents, currency } = req.body;
    res.json({ invoiceId: 'inv-123', status: 'issued', amount_cents,
    currency })]. *)
Definition invoice_handler (req : erequest) : result js_error reply :=
  body <- require_object_coercible (eq_body req) ;;
  let amount_cents := js_get body "amount_cents" in
  let currency := js_get body "currency" in
  Ok (res_json (JObj [("invoiceId", JStr "inv-123"); ("status", JStr "issued");
                      ("amount_cents", amount_cents); ("currency", currency)])).

Definition invoice_path : string := "/api/v1/payments/invoices".

(** Lines 3-11: the application, built in the order of the file, on the
    installed major version [v] of Express. *)
Definition payment_app (v : version) : app :=
  let app := create v in
  let app := use JsonParser app in
  let app := post invoice_path invoice_handler app in
  listen 3003 app.

Definition invoice_route : route := mk_route POST invoice_path invoice_handler.

(** A request the router sends to the invoice handler. *)
Definition on_invoice_route (rq : request) : bool :=
  bool_decide (POST = req_method rq) && express_path_match invoice_path (req_url rq).

(** The property [k] of a parsed object as the echo carries it: present
    with its value, or absent. *)
Definition echo_field (k : string) (ps : list (string * jsval)) : list (string * jsval) :=
  match assoc_get k ps with Some x => [(k, x)] | None => [] end.

Definition invoice_reply_body (ps : list (string * jsval)) : body :=
  BodyJson (JObj ([("invoiceId", JStr "inv-123"); ("status", JStr "issued")]
                  ++ echo_field "amount_cents" ps ++ echo_field "currency" ps)).

(** A request carrying no JSON for the parser: no body, or another media
    type. *)
Definition no_json_body (rq : request) : Prop :=
  req_payload rq = PNone \/
  default "" (media_type <$> req_content_type rq) <> "application/json".

(** A JSON body the strict parser refuses: malformed, or a scalar. *)
Definition rejected_json (pl : payload) : Prop :=
  pl = PJson None \/
  exists x, pl = PJson (Some x) /\ (forall ps, x <> JObj ps) /\ (forall xs, x <> JArr xs).

(** Requests of the witnesses below (spec, section 8). *)
Definition sample_json : option string := Some "application/json".

Definition sample_invoice : request :=
  mk_request POST invoice_path sample_json
    (PJson (Some (JObj [("amount_cents", JNum 1500); ("currency", JStr "usd")]))).

Definition sample_invoice_bare : request := mk_request POST invoice_path None PNone.

(** ** Lemmas on the pipeline *)

Lemma payment_routes v : app_routes (payment_app v) = [invoice_route].
Proof. reflexivity. Qed.

Lemma payment_find_route v rq :
  find_route (payment_app v) rq = if on_invoice_route rq then Some invoice_route else None.
Proof.
  unfold find_route. rewrite payment_routes. avio_simp.
Qed.

(** The router answers OPTIONS on the invoice path itself, with POST as
    the one allowed method; any other unrouted request gets the 404
    page. *)
Lemma payment_unrouted v rq :
  unrouted (payment_app v) rq =
    if bool_decide (req_method rq = OPTIONS) && express_path_match invoice_path (req_url rq)
    then options_reply [POST] else not_found rq.
Proof.
  unfold unrouted, path_methods. rewrite payment_routes, filter_cons, filter_nil.
  cbn [rt_path rt_method invoice_route].
  destruct (express_path_match invoice_path (req_url rq)); case_decide as H; try done;
    cbn [map append_methods rt_method invoice_route];
    rewrite ?(bool_decide_eq_false_2 ([POST] = [])), ?(bool_decide_eq_true_2 (@nil method = []))
      by done;
    by rewrite ?andb_true_r, ?andb_false_r.
Qed.

(** The middleware stack of the service is the JSON parser alone, run on
    [req.body = undefined]. *)
Lemma serve_payment v rq :
  serve (payment_app v) rq =
    match json_parser v rq JUndefined with
    | Err e => Some (error_page e)
    | Ok body =>
        if on_invoice_route rq then
          match invoice_handler (mk_erequest rq body) with
          | Ok r => Some r
          | Err e => handler_rejected v e
          end
        else Some (unrouted (payment_app v) rq)
    end.
Proof.
  unfold serve. rewrite payment_find_route.
  change (app_version (payment_app v)) with v.
  change (app_middleware (payment_app v)) with [JsonParser].
  cbn [run_stack run_middleware].
  destruct (json_parser v rq JUndefined); cbn [result_bind]; [| done].
  by destruct (on_invoice_route rq).
Qed.

(** What the JSON parser hands on is the unparsed default, or the
    object or array of the body. *)
Lemma json_parser_Ok v rq b :
  json_parser v rq JUndefined = Ok b ->
  b = match v with V4 => JObj [] | V5 => JUndefined end \/
  (exists ps, b = JObj ps /\ req_payload rq = PJson (Some (JObj ps))) \/
  (exists xs, b = JArr xs /\ req_payload rq = PJson (Some (JArr xs))).
Proof.
  unfold json_parser. intros H. destruct v;
    destruct (req_payload rq) as [| [[] |] | |] eqn:Hp; repeat case_match;
    simplify_eq; eauto 6.
Qed.

Lemma json_parser_no_json v rq :
  no_json_body rq ->
  json_parser v rq JUndefined = Ok (match v with V4 => JObj [] | V5 => JUndefined end).
Proof.
  unfold json_parser. intros [Hp | Hmt].
  - rewrite Hp. by destruct v.
  - destruct (req_payload rq); [by destruct v | | | ];
      (destruct (String.eqb_spec (default "" (media_type <$> req_content_type rq))
                                 "application/json"); [congruence | by destruct v]).
Qed.

(** The handler on a parsed object. *)
Lemma invoice_handler_obj rq ps :
  invoice_handler (mk_erequest rq (JObj ps)) =
    Ok (res_json (JObj [("invoiceId", JStr "inv-123"); ("status", JStr "issued");
                        ("amount_cents", default JUndefined (assoc_get "amount_cents" ps));
                        ("currency", default JUndefined (assoc_get "currency" ps))])).
Proof. reflexivity. Qed.

Lemma is_json_assoc_get ps k x :
  is_json (JObj ps) = true -> assoc_get k ps = Some x -> is_json x = true.
Proof.
  simpl. rewrite forallb_forall. intros Hall Hget.
  apply (Hall (k, x)), assoc_get_Some_In, Hget.
Qed.

(** Serializing one echoed property keeps it exactly when the request had
    it. *)
Lemma normalize_echo_field k ps :
  is_json (JObj ps) = true ->
  props_filter_map json_normalize [(k, default JUndefined (assoc_get k ps))] = echo_field k ps.
Proof.
  intros Hj. unfold echo_field. destruct (assoc_get k ps) as [x |] eqn:Hx; [| done].
  simpl. by rewrite json_normalize_json by eauto using is_json_assoc_get.
Qed.

Lemma res_json_invoice ps :
  is_json (JObj ps) = true ->
  res_json (JObj [("invoiceId", JStr "inv-123"); ("status", JStr "issued");
                  ("amount_cents", default JUndefined (assoc_get "amount_cents" ps));
                  ("currency", default JUndefined (assoc_get "currency" ps))]) =
  {| rep_status := 200; rep_body := invoice_reply_body ps |}.
Proof.
  intros Hj. unfold res_json, json_reply, invoice_reply_body. cbn [json_normalize].
  rewrite <- (normalize_echo_field "amount_cents" ps Hj), <- (normalize_echo_field "currency" ps Hj).
  rewrite <- !props_filter_map_app. reflexivity.
Qed.

Lemma json_parser_json v rq pl :
  default "" (media_type <$> req_content_type rq) = "application/json" ->
  req_payload rq = pl -> pl <> PNone ->
  json_parser v rq JUndefined =
    match pl with
    | PJson (Some (JObj ps)) => Ok (JObj ps)
    | PJson (Some (JArr xs)) => Ok (JArr xs)
    | PJson (Some _) =>
        Err (HttpError 400 (Some "entity.parse.failed") "JSON body is not an object or array")
    | PJson None => Err (HttpError 400 (Some "entity.parse.failed") "Unexpected token in JSON")
    | _ => Ok (match v with V4 => JObj [] | V5 => JUndefined end)
    end.
Proof.
  unfold json_parser. intros Hmt <- Hne. rewrite Hmt.
  destruct (req_payload rq); [done | | | ]; by destruct v.
Qed.

(** A request off the invoice path whose body the parser accepts gets
    the 404 page, whatever its method. *)
Lemma serve_unrouted v rq b :
  express_path_match invoice_path (req_url rq) = false -> json_parser v rq JUndefined = Ok b ->
  serve (payment_app v) rq = Some (not_found rq).
Proof.
  intros Hp Hb. rewrite serve_payment, Hb, payment_unrouted. unfold on_invoice_route.
  by rewrite Hp, !andb_false_r.
Qed.

(** The two versions' parsers agree, except on a request body-parser 2
    leaves alone, where body-parser 1 hands on [{}]. *)
Lemma json_parser_versions rq :
  (json_parser V5 rq JUndefined = Ok JUndefined /\ json_parser V4 rq JUndefined = Ok (JObj [])) \/
  (json_parser V4 rq JUndefined = json_parser V5 rq JUndefined /\
   json_parser V5 rq JUndefined <> Ok JUndefined).
Proof.
  unfold json_parser. cbn [js_or js_truthy].
  destruct (req_payload rq) as [| [[] |] | |]; [by left | ..];
    destruct (String.eqb _ _); (by left) || (by right).
Qed.

(** ** Theorems *)

(** C3: a JSON object posted to the invoice route is echoed: the reply
    is 200 with [invoiceId: "inv-123"], [status: "issued"], then
    [amount_cents] and [currency] with the request's values, each present
    exactly when the request has it (a missing field is dropped from the
    reply, not sent as null), on both versions of Express. *)
Theorem invoice_echoes_json_fields v rq ps :
  on_invoice_route rq = true ->
  default "" (media_type <$> req_content_type rq) = "application/json" ->
  req_payload rq = PJson (Some (JObj ps)) -> is_json (JObj ps) = true ->
  serve (payment_app v) rq = Some {| rep_status := 200; rep_body := invoice_reply_body ps |}.
Proof.
  intros Hr Hmt Hp Hj. rewrite serve_payment, (json_parser_json v rq _ Hmt Hp) by done.
  by rewrite Hr, invoice_handler_obj, res_json_invoice.
Qed.

Lemma invoice_echoes_json_fields_witness :
  serve (payment_app V4) sample_invoice =
    Some {| rep_status := 200;
            rep_body := BodyJson (JObj [("invoiceId", JStr "inv-123"); ("status", JStr "issued");
                                        ("amount_cents", JNum 1500); ("currency", JStr "usd")]) |}.
Proof.
  apply (invoice_echoes_json_fields V4 sample_invoice
           [("amount_cents", JNum 1500); ("currency", JStr "usd")]); reflexivity.
Defined.

(** C9: a malformed or scalar JSON body is refused by the body parser
    with 400 before any routing, whatever the method and path. *)
Theorem payment_rejected_json_is_400 v rq :
  default "" (media_type <$> req_content_type rq) = "application/json" ->
  rejected_json (req_payload rq) ->
  serve (payment_app v) rq = Some {| rep_status := 400; rep_body := BodyHtml "Bad Request" |}.
Proof.
  intros Hmt Hrej. rewrite serve_payment.
  destruct Hrej as [Hp | (x & Hp & Hno & Hna)];
    rewrite (json_parser_json v rq _ Hmt Hp) by discriminate; [done |].
  destruct x; try done; [by destruct (Hna xs) | by destruct (Hno props)].
Qed.

Lemma payment_rejected_json_is_400_witness :
  serve (payment_app V5) (mk_request PUT "/no/such/route" sample_json (PJson None)) =
    Some {| rep_status := 400; rep_body := BodyHtml "Bad Request" |}.
Proof. apply payment_rejected_json_is_400; [reflexivity | left; reflexivity]. Defined.

(** C10: on Express 4, an invoice request without a JSON body reaches the
    handler with [req.body = {}] and gets 200 with only [invoiceId] and
    [status]. *)
Theorem invoice_without_json_v4 rq :
  on_invoice_route rq = true -> no_json_body rq ->
  serve (payment_app V4) rq =
    Some {| rep_status := 200;
            rep_body := BodyJson (JObj [("invoiceId", JStr "inv-123"); ("status", JStr "issued")]) |}.
Proof.
  intros Hr Hno. rewrite serve_payment, (json_parser_no_json V4 rq Hno), Hr.
  by rewrite invoice_handler_obj, res_json_invoice.
Qed.

Lemma invoice_without_json_v4_witness :
  serve (payment_app V4) sample_invoice_bare =
    Some {| rep_status := 200;
            rep_body := BodyJson (JObj [("invoiceId", JStr "inv-123"); ("status", JStr "issued")]) |}.
Proof. apply invoice_without_json_v4; [reflexivity | left; reflexivity]. Defined.

(** C11: on Express 5, an invoice request without a JSON body leaves
    [req.body] undefined; destructuring it throws a [TypeError] and the
    reply is 500. *)
Theorem invoice_without_json_v5_is_500 rq :
  on_invoice_route rq = true -> no_json_body rq ->
  serve (payment_app V5) rq =
    Some {| rep_status := 500; rep_body := BodyHtml "Internal Server Error" |}.
Proof.
  intros Hr Hno. by rewrite serve_payment, (json_parser_no_json V5 rq Hno), Hr.
Qed.

Lemma invoice_without_json_v5_is_500_witness :
  serve (payment_app V5) sample_invoice_bare =
    Some {| rep_status := 500; rep_body := BodyHtml "Internal Server Error" |}.
Proof. apply invoice_without_json_v5_is_500; [reflexivity | left; reflexivity]. Defined.

(** C12: the service answers every request, on both versions: on
    Express 4 the handler never rejects, since the body parser always
    leaves an object or an array in [req.body]. *)
Theorem payment_always_answers v rq : is_Some (serve (payment_app v) rq).
Proof.
  rewrite serve_payment.
  destruct (json_parser v rq JUndefined) as [b |] eqn:Hb; [| by eexists].
  destruct (on_invoice_route rq); [| by eexists].
  apply json_parser_Ok in Hb as [-> | [(ps & -> & _) | (xs & -> & _)]];
    [destruct v |..]; by eexists.
Qed.

(** Express matches the invoice route case-insensitively, with an
    optional trailing slash and ignoring the query string. *)
Theorem invoice_route_match rq :
  on_invoice_route rq = true <->
  req_method rq = POST /\
  (str_lower (url_path (req_url rq)) = invoice_path \/
   str_lower (url_path (req_url rq)) = invoice_path +:+ "/").
Proof.
  unfold on_invoice_route, express_path_match.
  rewrite andb_true_iff, orb_true_iff, !String.eqb_eq, bool_decide_eq_true.
  split; intros [Hm Hp]; split; auto.
Qed.

(** C17: a request with a body the parser accepts (or none) that is not
    a POST to the invoice path gets Express's 404 page naming its method
    and path, except an OPTIONS request on the invoice path (a CORS
    preflight), which the router answers itself with 200 and the allowed
    method [POST].  The path is compared without case and with an
    optional trailing slash, so [/API/V1/Payments/Invoices/] is the
    invoice path. *)
Theorem payment_other_routes v rq :
  ~ (req_method rq = POST /\
     (str_lower (url_path (req_url rq)) = invoice_path \/
      str_lower (url_path (req_url rq)) = invoice_path +:+ "/")) ->
  ~ (default "" (media_type <$> req_content_type rq) = "application/json" /\
     rejected_json (req_payload rq)) ->
  serve (payment_app v) rq =
    Some (if bool_decide (req_method rq = OPTIONS) && express_path_match invoice_path (req_url rq)
          then {| rep_status := 200; rep_body := BodyHtml "POST" |}
          else {| rep_status := 404;
                  rep_body := BodyHtml ("Cannot " +:+ method_name (req_method rq) +:+ " "
                                        +:+ url_path (req_url rq)) |}).
Proof.
  intros Hroute Hrej. rewrite serve_payment.
  destruct (on_invoice_route rq) eqn:Hr; [by apply invoice_route_match in Hr |].
  destruct (json_parser v rq JUndefined) as [b | e] eqn:Hb; [by rewrite payment_unrouted |].
  exfalso. apply Hrej. unfold json_parser in Hb.
  destruct (req_payload rq) as [| [[] |] | |]; try (destruct v; discriminate);
    (destruct (String.eqb_spec (default "" (media_type <$> req_content_type rq))
                                "application/json") as [Hmt |];
     [| destruct v; discriminate]);
    split; try done; unfold rejected_json; eauto;
    (right; eexists; split; [reflexivity | split; intros ? [=]]).
Qed.

Lemma payment_other_routes_witness :
  serve (payment_app V4) (mk_request POST "/api/v1/payments/refunds" None PNone) =
    Some {| rep_status := 404; rep_body := BodyHtml "Cannot POST /api/v1/payments/refunds" |} /\
  serve (payment_app V5) (mk_request OPTIONS "/api/v1/payments/invoices" None PNone) =
    Some {| rep_status := 200; rep_body := BodyHtml "POST" |}.
Proof.
  split.
  - apply (payment_other_routes V4 (mk_request POST "/api/v1/payments/refunds" None PNone)).
    + vm_compute. intros [_ [H | H]]; discriminate.
    + vm_compute. intros [H _]; discriminate.
  - apply (payment_other_routes V5 (mk_request OPTIONS "/api/v1/payments/invoices" None PNone)).
    + intros [H _]; discriminate.
    + vm_compute. intros [H _]; discriminate.
Defined.

(** C25: the service behaves the same on Express 4 and Express 5 for
    every request, except exactly the requests routed to the invoice
    handler whose body the JSON parser of Express 5 leaves alone
    ([req.body] stays [undefined]); there Express 4 answers 200 and
    Express 5 answers 500. *)
Theorem payment_versions_agree rq :
  serve (payment_app V4) rq = serve (payment_app V5) rq <->
  ~ (on_invoice_route rq = true /\ json_parser V5 rq JUndefined = Ok JUndefined).
Proof.
  rewrite !serve_payment. split.
  - intros Heq [Hr H5]. destruct (json_parser_versions rq) as [[_ H4] | [_ Hne]]; [| done].
    revert Heq. rewrite H4, H5, Hr. discriminate.
  - intros Hn. destruct (json_parser_versions rq) as [[H5 H4] | [-> Hne]].
    + rewrite H4, H5. destruct (on_invoice_route rq); [naive_solver | done].
    + destruct (json_parser V5 rq JUndefined) as [b |] eqn:Hb; [| done].
      destruct (on_invoice_route rq); [| done].
      apply json_parser_Ok in Hb as [-> | [(ps & -> & _) | (xs & -> & _)]]; done.
Qed.

Lemma payment_versions_agree_witness :
  serve (payment_app V4) sample_invoice = serve (payment_app V5) sample_invoice.
Proof.
  apply payment_versions_agree. vm_compute. intros [_ H]. discriminate.
Defined.

End Payment.
