(* ===== verification/Wire.v ===== *)
(** * The payment service on the wire

    [Payment] models the service on request bodies already parsed and
    replies not yet serialized.  This file puts the byte level of [Json]
    at both ends:

    - [json_body] is what [express.json()] does with the text of a body
      (body-parser, [lib/types/json.js]): an empty body is [{}]; in strict
      mode a text whose first non-blank character is not [{] or [[] is a
      400 error; otherwise [JSON.parse], whose syntax errors are 400 errors
      too;
    - [serve_text] runs the service on a request given by its method, URL,
      [Content-Type] and body text;
    - [reply_text] is the body [res.json] writes, [JSON.stringify] of the
      reply value.

    The theorems show that a client reading the reply text back gets
    exactly the abstract reply of [Payment] (the echo is exact at the
    level of characters), that an [amount_cents] written as an integer
    literal comes back as the binary64 number it rounds to (exactly when
    its magnitude is at most 2^53, and altered for the odd integers
    between 2^53 and 2^54). *)

From S2P Require Import Prelude JsValue Http Binary64 Json Payment.
From Stdlib Require Import Ascii.

Local Open Scope Z_scope.

Module Wire.
Import Express Payment Json.

(** ** The service on texts *)

(** [express.json()] reading the text of a body. *)
Definition json_body (text : string) : result json_error payload :=
  if String.eqb text "" then Ok (PJson (Some (JObj [])))
  else match skip_ws text with
       | String c _ =>
           if Ascii.eqb c "{" || Ascii.eqb c "[" then
             match json_parse text with
             | Ok v => Ok (PJson (Some v))
             | Err SyntaxError => Ok (PJson None)
             | Err e => Err e
             end
           else Ok (PJson None)
       | EmptyString => Ok (PJson None)
       end%char.

(** A request given by its text: a JSON body goes through [json_body],
    another body is left as text (the JSON parser skips it). *)
Definition wire_request (m : method) (url : string) (ct : option string) (text : string) :
    result json_error request :=
  if String.eqb (default "" (media_type <$> ct)) "application/json" then
    pl <- json_body text ;; Ok (mk_request m url ct pl)
  else Ok (mk_request m url ct (PText text)).

(** The service's answer to a request text: its reply, if any, or the
    reason the body is outside the model. *)
Definition serve_text (a : Express.app) (m : method) (url : string) (ct : option string)
    (text : string) : result json_error (option reply) :=
  rq <- wire_request m url ct text ;; Ok (Express.serve a rq).

(** The body [res.json] writes. *)
Definition reply_text (r : reply) : option string :=
  match rep_body r with
  | BodyJson v => Some (text_of v)
  | _ => None
  end.

Definition json_ct : option string := Some "application/json".

(** The invoice request of the spec (section 8) with the amount written
    as the integer literal of [n]. *)
Definition amount_body (n : Z) (cur : string) : string :=
  String "{" (quote_json "amount_cents" +:+ String ":" (int_literal n +:+
    String "," (quote_json "currency" +:+ String ":" (quote_json cur +:+ String "}" EmptyString))))%char.


(** ** Lemmas *)

(** A text [JSON.parse] reads as an object is handed on as that object. *)
Lemma json_body_obj text ps :
  json_parse text = Ok (JObj ps) -> json_body text = Ok (PJson (Some (JObj ps))).
Proof.
  intros H. pose proof (json_parse_first _ _ H) as [t Ht].
  unfold json_body. destruct (String.eqb_spec text "") as [-> | _]; [done |].
  rewrite Ht. replace (Ascii.eqb "{" "{" || Ascii.eqb "{" "[")%char with true by reflexivity.
  by rewrite H.
Qed.


(** The echoed fields carry values of the request. *)
Lemma echo_field_ok k ps : json_ok (JObj ps) -> Forall (fun p => json_ok p.2) (echo_field k ps).
Proof.
  unfold json_ok, echo_field. cbn [is_json engine_value]. rewrite !andb_true_iff, !forallb_forall.
  intros (Hj & _ & He). destruct (assoc_get k ps) as [x |] eqn:Hx; [| constructor].
  apply assoc_get_Some_In in Hx. repeat constructor; [apply (Hj _ Hx) | apply (He _ Hx)].
Qed.

(** The invoice reply is a JSON value of the engine. *)
Lemma invoice_object_ok ps :
  json_ok (JObj ps) ->
  json_ok (JObj ([("invoiceId", JStr "inv-123"); ("status", JStr "issued")]
                 ++ echo_field "amount_cents" ps ++ echo_field "currency" ps)).
Proof.
  intros Hps. pose proof (echo_field_ok "amount_cents" ps Hps) as Ha.
  pose proof (echo_field_ok "currency" ps Hps) as Hc.
  unfold json_ok. cbn [is_json engine_value]. rewrite !andb_true_iff, !forallb_forall.
  split_and!.
  - intros p Hp. apply in_app_iff in Hp as [Hp | Hp]; [by repeat destruct Hp as [<- | Hp] |].
    rewrite Forall_forall in Ha, Hc. apply list_elem_of_In, elem_of_app in Hp as [Hp | Hp];
      [apply Ha | apply Hc]; done.
  - unfold echo_field. by destruct (assoc_get "amount_cents" ps), (assoc_get "currency" ps).
  - intros p Hp. apply in_app_iff in Hp as [Hp | Hp]; [by repeat destruct Hp as [<- | Hp] |].
    rewrite Forall_forall in Ha, Hc. apply list_elem_of_In, elem_of_app in Hp as [Hp | Hp];
      [apply Ha | apply Hc]; done.
Qed.

(** A request text on the invoice route that [JSON.parse] reads as an
    object gets the echo of [Payment]. *)
Lemma serve_text_invoice v url ct text ps :
  express_path_match invoice_path url = true ->
  default "" (media_type <$> ct) = "application/json" ->
  json_parse text = Ok (JObj ps) ->
  serve_text (payment_app v) POST url ct text =
    Ok (Some {| rep_status := 200; rep_body := invoice_reply_body ps |}).
Proof.
  intros Hurl Hct Hp. pose proof (json_parse_ok _ _ Hp) as [Hj _].
  unfold serve_text, wire_request. rewrite Hct, String.eqb_refl, (json_body_obj _ _ Hp).
  cbn [result_bind]. f_equal. rewrite serve_payment.
  rewrite (json_parser_json v (mk_request POST url ct (PJson (Some (JObj ps)))) _ Hct eq_refl)
    by done.
  cbn -[invoice_handler on_invoice_route res_json].
  unfold on_invoice_route. cbn [req_method req_url].
  rewrite Hurl, bool_decide_eq_true_2 by done. cbn [andb].
  by rewrite invoice_handler_obj, res_json_invoice.
Qed.

(** The reply text of the invoice echo reads back as the reply. *)
Lemma invoice_reply_text ps :
  json_ok (JObj ps) ->
  exists t w, reply_text {| rep_status := 200; rep_body := invoice_reply_body ps |} = Some t /\
    json_parse t = Ok w /\
    w = JObj ([("invoiceId", JStr "inv-123"); ("status", JStr "issued")]
              ++ echo_field "amount_cents" ps ++ echo_field "currency" ps).
Proof.
  intros Hps. destruct (invoice_object_ok ps Hps) as [Hj He].
  eexists _, _. split_and!; [reflexivity | by apply json_parse_text | reflexivity].
Qed.

(** The invoice request text is read as the object with the rounded
    amount and the currency. *)
Lemma parse_amount_body f n cur :
  parse_value (S (S (S (S (S f))))) (amount_body n cur) =
    match Binary64.of_int n with
    | Some m => Ok (JObj [("amount_cents", JNum m); ("currency", JStr cur)], EmptyString)
    | None => Err Unsupported
    end.
Proof.
  unfold amount_body. rewrite parse_value_obj, quote_json_app. cbn [skip_ws].
  change (is_ws dquote) with false. cbv iota beta.
  change (Ascii.eqb dquote "}") with false. cbv iota beta.
  rewrite <- quote_json_app, parse_member_text, parse_int_literal by reflexivity.
  destruct (Binary64.of_int n) as [m |]; [| done]. cbn [result_bind fst snd skip_ws is_ws].
  cbn [Ascii.eqb Bool.eqb andb].
  rewrite parse_member_text, quote_json_app, parse_value_str, lex_string_quoted.
  reflexivity.
Qed.

Lemma json_parse_amount n cur :
  json_parse (amount_body n cur) =
    match Binary64.of_int n with
    | Some m => Ok (JObj [("amount_cents", JNum m); ("currency", JStr cur)])
    | None => Err Unsupported
    end.
Proof.
  unfold json_parse.
  assert (2 <= String.length (amount_body n cur))%nat
    by (unfold amount_body, quote_json; rewrite str_app_cons; simpl; lia).
  replace (S (2 * String.length (amount_body n cur)))
    with (S (S (S (S (S (2 * String.length (amount_body n cur) - 4))))))%nat by lia.
  rewrite parse_amount_body. by destruct (Binary64.of_int n).
Qed.

(** A client posting the amount [n] reads back the number the engine
    rounds [n] to. *)
Lemma invoice_amount_read v n cur m :
  Binary64.of_int n = Some m ->
  exists r t w, serve_text (payment_app v) POST invoice_path json_ct (amount_body n cur) = Ok (Some r) /\
    reply_text r = Some t /\ json_parse t = Ok w /\
    js_get w "amount_cents" = JNum m /\ js_get w "currency" = JStr cur.
Proof.
  intros Hm. pose proof (json_parse_amount n cur) as Hp. rewrite Hm in Hp.
  rewrite (serve_text_invoice v invoice_path json_ct _ _ eq_refl eq_refl Hp).
  destruct (invoice_reply_text [("amount_cents", JNum m); ("currency", JStr cur)])
    as (t & w & Ht & Hw & ->); [by apply json_parse_ok in Hp |].
  eexists _, t, _. split_and!; [reflexivity | exact Ht | exact Hw | reflexivity | reflexivity].
Qed.


(** ** Theorems *)

(** C19: at the level of characters, a request text on the invoice route
    that [JSON.parse] reads as an object gets a 200 reply whose text a
    client parses back to exactly the echo of the abstract model:
    [invoiceId], [status], then [amount_cents] and [currency] when the
    request has them, on both versions of Express. *)
Theorem invoice_wire_echo v url ct text ps :
  express_path_match invoice_path url = true ->
  default "" (media_type <$> ct) = "application/json" ->
  json_parse text = Ok (JObj ps) ->
  exists r t w, serve_text (payment_app v) POST url ct text = Ok (Some r) /\
    rep_status r = 200 /\ reply_text r = Some t /\ json_parse t = Ok w /\
    w = JObj ([("invoiceId", JStr "inv-123"); ("status", JStr "issued")]
              ++ echo_field "amount_cents" ps ++ echo_field "currency" ps).
Proof.
  intros Hurl Hct Hp. rewrite (serve_text_invoice v url ct text ps Hurl Hct Hp).
  destruct (invoice_reply_text ps) as (t & w & Ht & Hw & ->); [by apply json_parse_ok in Hp |].
  eexists _, t, _. split_and!; [reflexivity | reflexivity | exact Ht | exact Hw | reflexivity].
Qed.

Lemma invoice_wire_echo_witness :
  express_path_match invoice_path "/api/v1/payments/invoices" = true /\
  json_parse (amount_body 1500 "usd") = Ok (JObj [("amount_cents", JNum 1500); ("currency", JStr "usd")]) /\
  exists r t w, serve_text (payment_app V4) POST "/api/v1/payments/invoices" json_ct
                  (amount_body 1500 "usd") = Ok (Some r) /\
    rep_status r = 200 /\ reply_text r = Some t /\ json_parse t = Ok w /\
    w = JObj ([("invoiceId", JStr "inv-123"); ("status", JStr "issued")]
              ++ echo_field "amount_cents" [("amount_cents", JNum 1500); ("currency", JStr "usd")]
              ++ echo_field "currency" [("amount_cents", JNum 1500); ("currency", JStr "usd")]).
Proof.
  split; [reflexivity |]. split; [vm_compute; reflexivity |].
  apply invoice_wire_echo; [reflexivity | reflexivity | vm_compute; reflexivity].
Defined.

(** C20: an [amount_cents] written as an integer literal of magnitude at
    most 2^53 is echoed exactly: the client reads back the same number,
    and the currency string unchanged. *)
Theorem invoice_amount_exact v n cur :
  Z.abs n <= 2 ^ 53 ->
  exists r t w, serve_text (payment_app v) POST invoice_path json_ct (amount_body n cur) = Ok (Some r) /\
    reply_text r = Some t /\ json_parse t = Ok w /\
    js_get w "amount_cents" = JNum n /\ js_get w "currency" = JStr cur.
Proof. intros Hn. apply invoice_amount_read, Binary64.of_int_small, Hn. Qed.

Lemma invoice_amount_exact_witness :
  Z.abs (2 ^ 53) <= 2 ^ 53 /\
  exists r t w, serve_text (payment_app V5) POST invoice_path json_ct (amount_body (2 ^ 53) "usd") = Ok (Some r) /\
    reply_text r = Some t /\ json_parse t = Ok w /\
    js_get w "amount_cents" = JNum (2 ^ 53) /\ js_get w "currency" = JStr "usd".
Proof. split; [lia | apply invoice_amount_exact; lia]. Defined.

(** C21: above 2^53 the echo is not exact: for every odd amount between
    2^53 and 2^54 the client reads back a different number (the body
    parser rounds it to binary64 and the reply carries the rounded
    value). *)
Theorem invoice_amount_rounded v n cur :
  2 ^ 53 < Z.abs n < 2 ^ 54 -> Z.odd n = true ->
  exists r t w m, serve_text (payment_app v) POST invoice_path json_ct (amount_body n cur) = Ok (Some r) /\
    reply_text r = Some t /\ json_parse t = Ok w /\ js_get w "amount_cents" = JNum m /\ m <> n.
Proof.
  intros Hn Hodd. destruct (Binary64.of_int_finite n) as [m Hm].
  { apply Z.lt_trans with (2 ^ 54); [lia | apply Z.pow_lt_mono_r; lia]. }
  destruct (invoice_amount_read v n cur m Hm) as (r & t & w & H1 & H2 & H3 & H4 & _).
  exists r, t, w, m. split_and!; try done. intros ->. by apply (Binary64.of_int_odd_above n).
Qed.

Lemma invoice_amount_rounded_witness :
  (2 ^ 53 < Z.abs (2 ^ 53 + 1) < 2 ^ 54 /\ Z.odd (2 ^ 53 + 1) = true) /\
  exists r t w m, serve_text (payment_app V4) POST invoice_path json_ct (amount_body (2 ^ 53 + 1) "usd") = Ok (Some r) /\
    reply_text r = Some t /\ json_parse t = Ok w /\ js_get w "amount_cents" = JNum m /\ m <> 2 ^ 53 + 1.
Proof.
  split; [split; [lia | reflexivity] |].
  apply invoice_amount_rounded; [lia | reflexivity].
Defined.

End Wire.
