(* ===== verification/User.v ===== *)
(** * The user entity ([src/apps/backend/src/entities/user.entity.ts])

    The file declares the TypeORM entity [User] of the table [users]: a
    uuid primary key generated on insertion, a unique [email], a
    [password_hash], a [name], a [role] stored in a [varchar] column and
    typed in TypeScript as one of four literals, and a [created_at] set by
    the database on insertion.  The entity has no methods; what it
    determines is the shape of a row and the constraints the database
    enforces when a row is inserted.

    [Role] is the union of literals with its varchar spelling
    ([role_to_string], [role_of_string]).  [user_row] is a row as the
    table stores it (the role is a string: the column is [varchar] and no
    check constraint restricts it).  The table is a [gmap] from the
    primary key to the row.  [insert_user] is the insertion TypeORM
    performs for a new entity: the id comes from the uuid generator, the
    creation date from the database clock, and the primary key and the
    unique index on [email] refuse a duplicate.  [save_user] is
    [repository.save] of an entity that carries its id: an update that
    keeps the id and the creation date, or an insertion when the id is
    not stored.  [step] is the table over time, with its clock: ticks,
    insertions, saves and deletions in any order.  The repository's code
    calls none of these operations itself; they are what the entity's
    decorators make of the operations TypeORM offers on it, so the
    theorems hold for whatever code of the product writes users.

    The theorems show the table invariant ([table_wf]: every row is
    stored under its id, no two rows share an email) preserved by every
    insertion, and, by induction on the steps, in every reachable
    database together with the creation dates lying between the start
    and the clock ([db_inv]) and, when only entities are saved, every row
    reading back as a [User]; the result of insertion and save on each
    branch; and what the schema does not enforce: a role outside the four
    literals, and emails that differ only in case. *)

From S2P Require Import Prelude.

Local Open Scope Z_scope.

Module User.

(** Line 18: [role: 'pilot' | 'shop_manager' | 'technician' | 'admin']. *)
Inductive Role : Type := pilot | shop_manager | technician | admin.

#[export] Instance Role_eq_dec : EqDecision Role.
Proof. solve_decision. Defined.

Definition role_to_string (r : Role) : string :=
  match r with
  | pilot => "pilot"
  | shop_manager => "shop_manager"
  | technician => "technician"
  | admin => "admin"
  end.

Definition role_of_string (s : string) : option Role :=
  if String.eqb s "pilot" then Some pilot
  else if String.eqb s "shop_manager" then Some shop_manager
  else if String.eqb s "technician" then Some technician
  else if String.eqb s "admin" then Some admin
  else None.

Definition role_to_nat (r : Role) : nat :=
  match r with pilot => 0%nat | shop_manager => 1%nat | technician => 2%nat | admin => 3%nat end.

Definition role_of_nat (n : nat) : Role :=
  match n with O => pilot | S O => shop_manager | S (S O) => technician | _ => admin end.

#[export] Instance Role_countable : Countable Role.
Proof. refine (inj_countable' role_to_nat role_of_nat _). by intros []. Qed.

(** Lines 4-22: the entity as TypeScript types it.  [created_at] is the
    [Date] as milliseconds since the epoch. *)
Record User : Type := mk_user {
  id : string;
  email : string;
  password_hash : string;
  name : string;
  role : Role;
  created_at : Z;
}.

(** A row of [users] as the database stores it: [role] is [varchar]. *)
Record user_row : Type := mk_row {
  row_id : string;
  row_email : string;
  row_password_hash : string;
  row_name : string;
  row_role : string;
  row_created_at : Z;
}.

(** A row read back as the entity, when its role is one of the literals. *)
Definition of_row (r : user_row) : option User :=
  match role_of_string (row_role r) with
  | Some rl =>
      Some {| id := row_id r; email := row_email r; password_hash := row_password_hash r;
              name := row_name r; role := rl; created_at := row_created_at r |}
  | None => None
  end.

(** The columns an insertion supplies; [id] and [created_at] are the
    database's. *)
Record user_input : Type := mk_input {
  in_email : string;
  in_password_hash : string;
  in_name : string;
  in_role : string;
}.

Definition input_of (e p n : string) (r : Role) : user_input :=
  {| in_email := e; in_password_hash := p; in_name := n; in_role := role_to_string r |}.

Inductive db_error : Type :=
| PrimaryKeyViolation (key : string)
| UniqueViolation (column : string) (value : string).

(** Line 8: [@Column({ unique: true }) email]: the unique index compares
    the stored strings. *)
Definition email_taken (e : string) (t : gmap string user_row) : bool :=
  existsb (fun kr => String.eqb (row_email kr.2) e) (map_to_list t).

(** Lines 3-22: inserting a new [User]: [@PrimaryGeneratedColumn('uuid')]
    takes the generated [gen_id], [@CreateDateColumn] the clock [now]; the
    primary key and the unique index refuse a duplicate. *)
Definition insert_user (gen_id : string) (now : Z) (inp : user_input)
    (t : gmap string user_row) : result db_error (user_row * gmap string user_row) :=
  if decide (is_Some (t !! gen_id)) then Err (PrimaryKeyViolation gen_id)
  else if email_taken (in_email inp) t then Err (UniqueViolation "email" (in_email inp))
  else
    let row := {| row_id := gen_id; row_email := in_email inp;
                  row_password_hash := in_password_hash inp; row_name := in_name inp;
                  row_role := in_role inp; row_created_at := now |} in
    Ok (row, <[gen_id := row]> t).

(** Lines 3-22: [repository.save] of an entity that carries its [id]:
    when the row exists TypeORM updates its columns and leaves the primary
    key and the [@CreateDateColumn] as they are; the unique index refuses
    an email stored in another row.  An id not in the table is inserted
    like a new entity. *)
Definition save_user (k : string) (now : Z) (inp : user_input)
    (t : gmap string user_row) : result db_error (user_row * gmap string user_row) :=
  match t !! k with
  | Some old =>
      if email_taken (in_email inp) (delete k t) then Err (UniqueViolation "email" (in_email inp))
      else
        let row := {| row_id := k; row_email := in_email inp;
                      row_password_hash := in_password_hash inp; row_name := in_name inp;
                      row_role := in_role inp; row_created_at := row_created_at old |} in
        Ok (row, <[k := row]> t)
  | None => insert_user k now inp t
  end.

(** The table invariant: a row is stored under its id, and no two rows
    share an email. *)
Definition table_wf (t : gmap string user_row) : Prop :=
  (forall k r, t !! k = Some r -> row_id r = k) /\
  (forall k1 k2 r1 r2, t !! k1 = Some r1 -> t !! k2 = Some r2 ->
                       row_email r1 = row_email r2 -> k1 = k2).

(** The invariant as a check that computes on a concrete table. *)
Definition table_wfb (t : gmap string user_row) : bool :=
  forallb (fun kr => String.eqb (row_id kr.2) kr.1) (map_to_list t) &&
  bool_decide (NoDup (map (fun kr => row_email kr.2) (map_to_list t))).

(** Every stored role is one of the four literals. *)
Definition roles_typed (t : gmap string user_row) : Prop :=
  map_Forall (fun _ r => is_Some (role_of_string (row_role r))) t.

(** Rows of the witnesses below. *)
Definition sample_row : user_row :=
  {| row_id := "6f1c2a4e-0b7d-4c1e-9a51-3d2f8e7b9c10"; row_email := "Pilot@Example.com";
     row_password_hash := "$2b$10$abcdefghijklmnopqrstuv"; row_name := "Ada";
     row_role := "pilot"; row_created_at := 1767225600000 |}.

Definition sample_table : gmap string user_row := {[row_id sample_row := sample_row]}.

Definition sample_gen_id : string := "0d9e8f7a-6b5c-4d3e-8f2a-1b0c9d8e7f6a".

(** ** The users table over time

    The database holds the table and its clock.  What can happen to it:
    time passes ([StepTick]); an insertion of a new entity with a fresh
    uuid from the generator is applied at the current clock
    ([StepInsert]); an entity that carries its id is saved ([StepSave]);
    a row is deleted by its id ([StepDelete], [repository.delete(id)]).
    A refused insertion or save leaves the database as it is.
    [step P] admits the insertions whose input satisfies [P]: any row for
    SQL written by hand, the rows of typed entities ([entity_input]) for
    the application's [repository.save(user)]. *)

Record db : Type := mk_db {
  db_table : gmap string user_row;
  db_clock : Z;
}.

Inductive step (P : user_input -> Prop) : db -> db -> Prop :=
| StepTick d dt :
    0 <= dt -> step P d (mk_db (db_table d) (db_clock d + dt))
| StepInsert d gid inp row t' :
    P inp -> insert_user gid (db_clock d) inp (db_table d) = Ok (row, t') ->
    step P d (mk_db t' (db_clock d))
| StepSave d k inp row t' :
    P inp -> save_user k (db_clock d) inp (db_table d) = Ok (row, t') ->
    step P d (mk_db t' (db_clock d))
| StepDelete d k :
    step P d (mk_db (delete k (db_table d)) (db_clock d)).

(** The columns of a [User] entity built by the application. *)
Definition entity_input (inp : user_input) : Prop :=
  exists e p n r, inp = input_of e p n r.

(** The invariant of the database started empty at [c0]: the table is
    well formed and every row was created between [c0] and now. *)
Definition db_inv (c0 : Z) (d : db) : Prop :=
  table_wf (db_table d) /\
  map_Forall (fun _ r => c0 <= row_created_at r <= db_clock d) (db_table d) /\
  c0 <= db_clock d.

(** Every row reads back as the [User] stored under its key. *)
Definition rows_entities (t : gmap string user_row) : Prop :=
  map_Forall (fun k r => exists u, of_row r = Some u /\ id u = k) t.

(** ** Lemmas *)

Lemma email_taken_spec e t :
  email_taken e t = true <-> exists k r, t !! k = Some r /\ row_email r = e.
Proof.
  unfold email_taken. rewrite existsb_exists. split.
  - intros [[k r] [Hin Heq%String.eqb_eq]]. apply list_elem_of_In, elem_of_map_to_list in Hin.
    eauto.
  - intros (k & r & Hk & <-). exists (k, r). split; [| apply String.eqb_refl].
    apply list_elem_of_In, elem_of_map_to_list, Hk.
Qed.

Lemma email_taken_false e t :
  email_taken e t = false <-> forall k r, t !! k = Some r -> row_email r <> e.
Proof.
  rewrite <- not_true_iff_false, email_taken_spec. split.
  - intros H k r Hk He. apply H. eauto.
  - intros H (k & r & Hk & He). by apply (H k r).
Qed.

Lemma insert_user_Ok gid now inp t row t' :
  insert_user gid now inp t = Ok (row, t') ->
  t !! gid = None /\ email_taken (in_email inp) t = false /\
  row = {| row_id := gid; row_email := in_email inp; row_password_hash := in_password_hash inp;
           row_name := in_name inp; row_role := in_role inp; row_created_at := now |} /\
  t' = <[gid := row]> t.
Proof.
  unfold insert_user. case_decide as Hs; [discriminate |].
  destruct (email_taken (in_email inp) t); [discriminate |].
  intros [= <- <-]. apply eq_None_not_Some in Hs. auto.
Qed.

(** With a fresh id, only the unique index can refuse the row. *)
Lemma insert_user_fresh gid now inp t :
  t !! gid = None ->
  insert_user gid now inp t =
    if email_taken (in_email inp) t then Err (UniqueViolation "email" (in_email inp))
    else let row := {| row_id := gid; row_email := in_email inp;
                       row_password_hash := in_password_hash inp; row_name := in_name inp;
                       row_role := in_role inp; row_created_at := now |} in
         Ok (row, <[gid := row]> t).
Proof. intros Hfresh. unfold insert_user. by rewrite decide_False by (rewrite Hfresh; apply is_Some_None). Qed.

(** The accepted insertion, for computing on concrete tables. *)
Lemma insert_user_accept gid now inp t :
  t !! gid = None -> email_taken (in_email inp) t = false ->
  insert_user gid now inp t =
    Ok ({| row_id := gid; row_email := in_email inp; row_password_hash := in_password_hash inp;
           row_name := in_name inp; row_role := in_role inp; row_created_at := now |},
        <[gid := {| row_id := gid; row_email := in_email inp;
                    row_password_hash := in_password_hash inp; row_name := in_name inp;
                    row_role := in_role inp; row_created_at := now |}]> t).
Proof. intros Hfresh Htaken. by rewrite insert_user_fresh, Htaken. Qed.

Lemma table_wfb_sound t : table_wfb t = true -> table_wf t.
Proof.
  unfold table_wfb. rewrite andb_true_iff, forallb_forall, bool_decide_eq_true.
  intros [Hid Hnd]. split.
  - intros k r Hk. apply String.eqb_eq, (Hid (k, r)), list_elem_of_In, elem_of_map_to_list, Hk.
  - intros k1 k2 r1 r2 H1 H2 He.
    apply elem_of_map_to_list in H1, H2.
    by injection (NoDup_map_eq _ _ _ _ Hnd H1 H2 He).
Qed.

Lemma role_of_string_to_string r : role_of_string (role_to_string r) = Some r.
Proof. by destruct r. Qed.


Lemma email_taken_delete_false e k t :
  email_taken e (delete k t) = false <->
  forall k' r, t !! k' = Some r -> k' <> k -> row_email r <> e.
Proof.
  rewrite email_taken_false. setoid_rewrite lookup_delete_Some. naive_solver.
Qed.

(** Storing a row under its own id, with an email no other row has,
    keeps the table well formed. *)
Lemma table_wf_insert k row t :
  table_wf t -> row_id row = k ->
  (forall k' r, t !! k' = Some r -> k' <> k -> row_email r <> row_email row) ->
  table_wf (<[k := row]> t).
Proof.
  intros [Hid Huniq] Hrow Hfree. split.
  - intros k' r. rewrite lookup_insert. case_decide; [intros [= <-]; by subst | apply Hid].
  - intros k1 k2 r1 r2. rewrite !lookup_insert.
    do 2 case_decide; subst; intros; simplify_eq/=; [done | | | eauto];
      exfalso; eapply Hfree; eauto.
Qed.

Lemma table_wf_delete k t : table_wf t -> table_wf (delete k t).
Proof.
  intros [Hid Huniq]. split.
  - intros k' r (_ & Hk)%lookup_delete_Some. eauto.
  - intros k1 k2 r1 r2 (_ & H1)%lookup_delete_Some (_ & H2)%lookup_delete_Some. eauto.
Qed.

(** What an accepted insertion stores: the row under the generated id,
    with the supplied columns, an email no other row has, and the clock. *)
Lemma insert_user_rows gid now inp t row t' :
  insert_user gid now inp t = Ok (row, t') ->
  t' = <[gid := row]> t /\ row_id row = gid /\ row_email row = in_email inp /\
  row_role row = in_role inp /\
  (forall k' r, t !! k' = Some r -> k' <> gid -> row_email r <> in_email inp) /\
  row_created_at row = now.
Proof.
  intros (_ & Htaken & -> & ->)%insert_user_Ok. rewrite email_taken_false in Htaken.
  split_and!; eauto.
Qed.

(** An accepted save of an existing row keeps its id and creation date. *)
Lemma save_user_update k now inp t old row t' :
  t !! k = Some old -> save_user k now inp t = Ok (row, t') ->
  email_taken (in_email inp) (delete k t) = false /\
  row = {| row_id := k; row_email := in_email inp; row_password_hash := in_password_hash inp;
           row_name := in_name inp; row_role := in_role inp;
           row_created_at := row_created_at old |} /\
  t' = <[k := row]> t.
Proof.
  intros Hk. unfold save_user. rewrite Hk.
  destruct (email_taken _ _); [discriminate | by intros [= <- <-]].
Qed.

(** What an accepted save stores: the row under its id, with the
    supplied columns and an email no other row has, created now or when
    the row it replaces was. *)
Lemma save_user_rows k now inp t row t' :
  save_user k now inp t = Ok (row, t') ->
  t' = <[k := row]> t /\ row_id row = k /\ row_email row = in_email inp /\
  row_role row = in_role inp /\
  (forall k' r, t !! k' = Some r -> k' <> k -> row_email r <> in_email inp) /\
  (row_created_at row = now \/
   exists old, t !! k = Some old /\ row_created_at row = row_created_at old).
Proof.
  destruct (t !! k) as [old |] eqn:Hk.
  - intros (Htaken & -> & ->)%(save_user_update _ _ _ _ old); [| done].
    rewrite email_taken_delete_false in Htaken. split_and!; eauto.
  - unfold save_user. rewrite Hk.
    intros (? & ? & ? & ? & ? & ?)%insert_user_rows. split_and!; auto.
Qed.

(** An insertion keeps each row under its own id and the emails distinct. *)
Lemma insert_user_wf gid now inp t row t' :
  table_wf t -> insert_user gid now inp t = Ok (row, t') -> table_wf t'.
Proof.
  intros Hwf (-> & Hid & He & _ & Hfree & _)%insert_user_rows.
  apply table_wf_insert; [done | done |]. rewrite He. exact Hfree.
Qed.

Lemma save_user_wf k now inp t row t' :
  table_wf t -> save_user k now inp t = Ok (row, t') -> table_wf t'.
Proof.
  intros Hwf (-> & Hid & He & _ & Hfree & _)%save_user_rows.
  apply table_wf_insert; [done | done |]. rewrite He. exact Hfree.
Qed.

(** Storing an entity's row under its id keeps every row readable. *)
Lemma rows_entities_insert k row t r :
  rows_entities t -> row_id row = k -> row_role row = role_to_string r ->
  rows_entities (<[k := row]> t).
Proof.
  intros Ht Hid Hrole. apply map_Forall_insert_2; [| done].
  unfold of_row. rewrite Hrole, role_of_string_to_string. by eexists.
Qed.

(** Each step keeps the invariant of the database started at [c0]. *)
Lemma step_inv P c0 d d' : db_inv c0 d -> step P d d' -> db_inv c0 d'.
Proof.
  intros (Hwf & Hrows & Hc) Hs.
  destruct Hs as [d dt Hdt | d gid inp row t' _ Hins | d k inp row t' _ Hsave | d k];
    unfold db_inv; cbn [db_table db_clock].
  - split_and!; [done | | lia]. eapply map_Forall_impl; [exact Hrows |]. intros ???; simpl in *; lia.
  - split_and!; [by eapply insert_user_wf | | done].
    apply insert_user_rows in Hins as (-> & _ & _ & _ & _ & Hat).
    apply map_Forall_insert_2; [lia | done].
  - split_and!; [by eapply save_user_wf | | done].
    apply save_user_rows in Hsave as (-> & _ & _ & _ & _ & [Hat | (old & Hk & Hat)]);
      (apply map_Forall_insert_2; [| done]); [lia |].
    rewrite Hat. exact (Hrows k old Hk).
  - split_and!; [by apply table_wf_delete | by apply map_Forall_delete | done].
Qed.

(** Each step of the application keeps every row readable as its entity. *)
Lemma step_entities d d' :
  rows_entities (db_table d) -> step entity_input d d' -> rows_entities (db_table d').
Proof.
  intros Ht Hs.
  destruct Hs as [d dt _ | d gid inp row t' (e & p & n & r & ->) Hins
                 | d k inp row t' (e & p & n & r & ->) Hsave | d k]; cbn [db_table].
  - done.
  - apply insert_user_rows in Hins as (-> & Hid & _ & Hrole & _).
    exact (rows_entities_insert _ _ _ r Ht Hid Hrole).
  - apply save_user_rows in Hsave as (-> & Hid & _ & Hrole & _).
    exact (rows_entities_insert _ _ _ r Ht Hid Hrole).
  - by apply map_Forall_delete.
Qed.

#[export] Hint Resolve role_of_string_to_string : avio.

(** ** Theorems *)

(** C4: every insertion preserves the table invariant: each row stays
    stored under its own id and no two rows share an email. *)
Theorem insert_preserves_wf gid now inp t row t' :
  table_wf t -> insert_user gid now inp t = Ok (row, t') -> table_wf t'.
Proof. apply insert_user_wf. Qed.

Lemma insert_preserves_wf_witness :
  table_wf (<[sample_gen_id := {| row_id := sample_gen_id; row_email := "pilot@example.com";
                                  row_password_hash := "$2b$10$zyxwvutsrqponmlkjihgfe";
                                  row_name := "Grace"; row_role := "technician";
                                  row_created_at := 1767312000000 |}]> sample_table).
Proof.
  apply (insert_preserves_wf sample_gen_id 1767312000000
           (mk_input "pilot@example.com" "$2b$10$zyxwvutsrqponmlkjihgfe" "Grace" "technician")
           sample_table
           {| row_id := sample_gen_id; row_email := "pilot@example.com";
              row_password_hash := "$2b$10$zyxwvutsrqponmlkjihgfe";
              row_name := "Grace"; row_role := "technician";
              row_created_at := 1767312000000 |}).
  - apply table_wfb_sound. vm_compute. reflexivity.
  - apply insert_user_accept; vm_compute; reflexivity.
Defined.

(** C13: a successful insertion stores the new row under the generated
    id, with the supplied columns and the clock as [created_at], leaves
    every other row as it was and adds one row. *)
Theorem insert_user_stores_row gid now inp t row t' :
  insert_user gid now inp t = Ok (row, t') ->
  t' !! gid = Some row /\ row_id row = gid /\ row_email row = in_email inp /\
  row_password_hash row = in_password_hash inp /\ row_name row = in_name inp /\
  row_role row = in_role inp /\ row_created_at row = now /\
  (forall k, k <> gid -> t' !! k = t !! k) /\ size t' = S (size t).
Proof.
  intros (Hfresh & _ & -> & ->)%insert_user_Ok. simpl.
  split; [apply lookup_insert_eq |]. do 6 (split; [done |]).
  split; [intros k Hk; by apply lookup_insert_ne | by apply map_size_insert_None].
Qed.

Lemma insert_user_stores_row_witness :
  sample_table !! sample_gen_id = None /\
  (<[sample_gen_id := {| row_id := sample_gen_id; row_email := "ops@example.com";
                         row_password_hash := "h"; row_name := "Lin"; row_role := "admin";
                         row_created_at := 42 |}]> sample_table) !! sample_gen_id =
    Some {| row_id := sample_gen_id; row_email := "ops@example.com";
            row_password_hash := "h"; row_name := "Lin"; row_role := "admin";
            row_created_at := 42 |}.
Proof.
  split; [vm_compute; reflexivity |].
  apply (insert_user_stores_row sample_gen_id 42 (mk_input "ops@example.com" "h" "Lin" "admin")
           sample_table).
  apply insert_user_accept; vm_compute; reflexivity.
Defined.

(** C5: inserting a user whose email is already stored (with a fresh
    id) fails with the unique violation on [email]. *)
Theorem insert_duplicate_email_rejected gid now inp t k r :
  t !! gid = None -> t !! k = Some r -> row_email r = in_email inp ->
  insert_user gid now inp t = Err (UniqueViolation "email" (in_email inp)).
Proof.
  intros Hfresh Hk He. rewrite insert_user_fresh by done.
  by rewrite (proj2 (email_taken_spec _ _)) by eauto.
Qed.

Lemma insert_duplicate_email_rejected_witness :
  insert_user sample_gen_id 0 (mk_input "Pilot@Example.com" "h" "Bob" "pilot") sample_table =
    Err (UniqueViolation "email" "Pilot@Example.com").
Proof.
  apply (insert_duplicate_email_rejected sample_gen_id 0 (mk_input "Pilot@Example.com" "h" "Bob" "pilot")
           sample_table (row_id sample_row) sample_row);
    vm_compute; reflexivity.
Defined.

(** C14: an insertion succeeds exactly when the generated id is not a
    key of the table and no stored row has the very same email string:
    the unique index compares emails byte for byte, so an address that
    differs from a stored one only in letter case is accepted. *)
Theorem insert_succeeds_iff gid now inp t :
  (exists row t', insert_user gid now inp t = Ok (row, t')) <->
  t !! gid = None /\ (forall k r, t !! k = Some r -> row_email r <> in_email inp).
Proof.
  rewrite <- email_taken_false. split.
  - intros (row & t' & (? & ? & _)%insert_user_Ok). done.
  - intros [Hfresh Htaken]. rewrite insert_user_fresh, Htaken by done. eauto.
Qed.



(** C7: the schema does not restrict [role]: an insertion with a fresh id
    and a free email succeeds with a role outside the four literals, and
    the stored row no longer reads back as a [User]. *)
Theorem insert_role_unchecked gid now inp t :
  t !! gid = None -> email_taken (in_email inp) t = false ->
  role_of_string (in_role inp) = None ->
  exists row t', insert_user gid now inp t = Ok (row, t') /\
                 ~ roles_typed t' /\ of_row row = None.
Proof.
  intros Hfresh Htaken Hrole. rewrite insert_user_fresh, Htaken by done.
  eexists _, _. split; [reflexivity |]. split.
  - intros Htyped. pose proof (map_Forall_lookup_1 _ _ gid _ Htyped (lookup_insert_eq _ _ _)) as H.
    simpl in H. rewrite Hrole in H. by destruct H.
  - unfold of_row. simpl. by rewrite Hrole.
Qed.

Lemma insert_role_unchecked_witness :
  exists row t',
    insert_user sample_gen_id 0 (mk_input "root@example.com" "h" "Root" "superuser") sample_table
      = Ok (row, t') /\ ~ roles_typed t' /\ of_row row = None.
Proof. apply insert_role_unchecked; vm_compute; reflexivity. Defined.

(** C15: insertions of typed entities keep every stored role among the
    four literals, and the new row reads back as the entity with the
    generated id and the clock's date. *)
Theorem insert_typed_preserves_roles gid now e p n r t row t' :
  roles_typed t -> insert_user gid now (input_of e p n r) t = Ok (row, t') ->
  roles_typed t' /\
  of_row row = Some {| id := gid; email := e; password_hash := p; name := n;
                       role := r; created_at := now |}.
Proof.
  intros Htyped (_ & _ & -> & ->)%insert_user_Ok. simpl.
  split.
  - apply map_Forall_insert_2; [| done]. simpl. rewrite role_of_string_to_string. by eexists.
  - unfold of_row. simpl. by rewrite role_of_string_to_string.
Qed.

Lemma insert_typed_preserves_roles_witness :
  roles_typed (<[sample_gen_id := {| row_id := sample_gen_id; row_email := "tech@example.com";
                                     row_password_hash := "h"; row_name := "Kim";
                                     row_role := "technician"; row_created_at := 7 |}]> sample_table) /\
  of_row {| row_id := sample_gen_id; row_email := "tech@example.com"; row_password_hash := "h";
            row_name := "Kim"; row_role := "technician"; row_created_at := 7 |} =
    Some {| id := sample_gen_id; email := "tech@example.com"; password_hash := "h"; name := "Kim";
            role := technician; created_at := 7 |}.
Proof.
  apply (insert_typed_preserves_roles sample_gen_id 7 "tech@example.com" "h" "Kim" technician
           sample_table).
  - apply map_Forall_singleton. vm_compute. by eexists.
  - apply insert_user_accept; vm_compute; reflexivity.
Defined.

(** C22: in every database reached from an empty table at clock [c0],
    by any interleaving of clock ticks and accepted insertions of any
    columns, the table is well formed (each row under its own id, no two
    rows with one email) and every row was created between [c0] and the
    current clock: [@CreateDateColumn] never stamps a date in the future. *)
Theorem reachable_inv P c0 d :
  rtc (step P) (mk_db ∅ c0) d -> db_inv c0 d.
Proof.
  revert d. apply rtc_ind_r.
  - unfold db_inv, table_wf. cbn [db_table db_clock].
    split_and!; [intros *; by rewrite lookup_empty.. | apply map_Forall_empty | lia].
  - intros d1 d2 _ Hs IH. by eapply step_inv.
Qed.

Lemma reachable_inv_witness :
  db_inv 0 (mk_db {[sample_gen_id := {| row_id := sample_gen_id; row_email := "ops@example.com";
                                        row_password_hash := "h"; row_name := "Lin";
                                        row_role := "admin"; row_created_at := 0 |}]} 5).
Proof.
  apply (reachable_inv (fun _ => True) 0).
  eapply rtc_l; [| apply rtc_once].
  - apply (StepInsert _ (mk_db ∅ 0) sample_gen_id (mk_input "ops@example.com" "h" "Lin" "admin")
             {| row_id := sample_gen_id; row_email := "ops@example.com"; row_password_hash := "h";
                row_name := "Lin"; row_role := "admin"; row_created_at := 0 |});
      [exact I | apply insert_user_accept; vm_compute; reflexivity].
  - apply (StepTick _ (mk_db _ 0) 5). lia.
Defined.

(** C23: while the application only saves [User] entities, every row of
    every reachable table reads back as a [User] whose [id] is the row's
    key, at any interleaving of clock ticks and insertions. *)
Theorem reachable_entities c0 d :
  rtc (step entity_input) (mk_db ∅ c0) d -> rows_entities (db_table d).
Proof.
  revert d. apply rtc_ind_r.
  - apply map_Forall_empty.
  - intros d1 d2 _ Hs IH. by eapply step_entities.
Qed.

Lemma reachable_entities_witness :
  rows_entities {[sample_gen_id := {| row_id := sample_gen_id; row_email := "ops@example.com";
                                      row_password_hash := "h"; row_name := "Lin";
                                      row_role := "admin"; row_created_at := 3 |}]}.
Proof.
  apply (reachable_entities 0 (mk_db _ 3)).
  eapply rtc_l; [| apply rtc_once].
  - apply (StepTick _ (mk_db ∅ 0) 3). lia.
  - apply (StepInsert _ (mk_db ∅ 3) sample_gen_id (input_of "ops@example.com" "h" "Lin" admin)
             {| row_id := sample_gen_id; row_email := "ops@example.com"; row_password_hash := "h";
                row_name := "Lin"; row_role := "admin"; row_created_at := 3 |});
      [by exists "ops@example.com", "h", "Lin", admin | apply insert_user_accept; vm_compute; reflexivity].
Defined.

(** C24: saving an entity that carries the id of a stored row updates
    that row in place when no other row has the new email (the row's own
    email does not count): the id and the [@CreateDateColumn] date stay,
    the other columns take the entity's values, and the table keeps its
    other rows. *)
Theorem save_existing_keeps_created_at k now inp t old :
  t !! k = Some old -> email_taken (in_email inp) (delete k t) = false ->
  exists row, save_user k now inp t = Ok (row, <[k := row]> t) /\
    row_id row = k /\ row_created_at row = row_created_at old /\
    row_email row = in_email inp /\ row_password_hash row = in_password_hash inp /\
    row_name row = in_name inp /\ row_role row = in_role inp.
Proof.
  intros Hk Htaken. unfold save_user. rewrite Hk, Htaken. by eexists.
Qed.

Lemma save_existing_keeps_created_at_witness :
  exists row,
    save_user (row_id sample_row) 1767312000000
      (mk_input "Pilot@Example.com" "$2b$10$newhashnewhashnewhash" "Ada L." "admin") sample_table
      = Ok (row, <[row_id sample_row := row]> sample_table) /\
    row_id row = row_id sample_row /\ row_created_at row = 1767225600000 /\
    row_email row = "Pilot@Example.com" /\ row_password_hash row = "$2b$10$newhashnewhashnewhash" /\
    row_name row = "Ada L." /\ row_role row = "admin".
Proof.
  apply (save_existing_keeps_created_at (row_id sample_row) 1767312000000
           (mk_input "Pilot@Example.com" "$2b$10$newhashnewhashnewhash" "Ada L." "admin")
           sample_table sample_row); vm_compute; reflexivity.
Defined.

End User.
