(* ===== verification/Deployment.v ===== *)
(** * The deployment: the two HTTP services side by side

    The spec (sections 2 and 9) keeps each capability in a process of its
    own.  A process is what its [HttpService] instance offers: the port it
    listens on and its function from requests to replies.  [deliver]
    sends a request to the port it is addressed to: the process listening
    there answers (or never does), and a port nobody listens on refuses the
    connection.  The theorem shows that the payment process on port 3003
    does not serve the upload endpoint: whatever the method, a request for
    [/upload] gets Express's 404 page there. *)

From S2P Require Import Prelude JsValue Http FileStorage Payment.

Local Open Scope Z_scope.

Module Deployment.

Record process : Type := mk_process {
  proc_name : string;
  proc_port : Z;
  proc_serve : request -> option reply;
}.

Definition process_of {A} `{HttpService A} (nm : string) (a : A) : process :=
  {| proc_name := nm; proc_port := svc_port a; proc_serve := svc_serve a |}.

(** [file-storage/src/index.ts] line 14 and [payment-service/src/index.ts]
    line 11: the two processes and the ports they listen on. *)
Definition file_storage_process : process :=
  process_of "file-storage" FileStorage.file_storage_app.

Definition payment_process (v : Express.version) : process :=
  process_of "payment-service" (Payment.payment_app v).

Definition processes (v : Express.version) : list process :=
  [file_storage_process; payment_process v].

Inductive delivery : Type :=
| Refused
| NoAnswer
| Answered (r : reply).

Definition deliver (ps : list process) (port : Z) (rq : request) : delivery :=
  match head (filter (fun p => bool_decide (proc_port p = port)) ps) with
  | None => Refused
  | Some p => match proc_serve p rq with Some r => Answered r | None => NoAnswer end
  end.

(** ** Theorems *)


(** A request to a port reaches the process listening on it. *)
Lemma deliver_processes v port rq :
  deliver (processes v) port rq =
    if decide (port = 3002) then Answered (Fastify.serve FileStorage.file_storage_app rq)
    else if decide (port = 3003) then
      match Express.serve (Payment.payment_app v) rq with
      | Some r => Answered r
      | None => NoAnswer
      end
    else Refused.
Proof.
  unfold deliver, processes. cbn -[bool_decide Fastify.serve Express.serve].
  destruct (decide (port = 3002)) as [-> |].
  - rewrite bool_decide_eq_true_2 by done. reflexivity.
  - rewrite bool_decide_eq_false_2 by (cbn; congruence).
    destruct (decide (port = 3003)) as [-> |].
    + rewrite bool_decide_eq_true_2 by done. reflexivity.
    + rewrite bool_decide_eq_false_2 by (cbn; congruence). reflexivity.
Qed.


(** C18: the upload endpoint is not served by the payment process: a
    request for [/upload] without a body sent to port 3003 gets Express's
    404 page, on both versions of Express. *)
Theorem upload_unreachable_on_payment_port v rq :
  url_path (req_url rq) = "/upload" -> req_payload rq = PNone ->
  deliver (processes v) 3003 rq = Answered (Express.not_found rq).
Proof.
  intros Hp Hpl. rewrite deliver_processes. cbn -[Express.serve].
  erewrite Payment.serve_unrouted; [done | |].
  - unfold express_path_match. by rewrite Hp.
  - unfold Express.json_parser. rewrite Hpl. reflexivity.
Qed.

Lemma upload_unreachable_on_payment_port_witness :
  deliver (processes Express.V5) 3003 (mk_request POST "/upload" None PNone) =
    Answered (Express.not_found (mk_request POST "/upload" None PNone)).
Proof. apply upload_unreachable_on_payment_port; reflexivity. Defined.



End Deployment.
