(* ===== verification/TopNav.v ===== *)
(** * The navigation bar ([src/apps/frontend/src/components/layout/TopNav.tsx])

    [TopNav] is a React function component without props, state or
    effects: it returns a fixed JSX tree.  The tree is modelled as a
    [node] (an element with its tag, its props and its children, or a
    text), and [render] is the static markup React's server renderer
    produces for it ([className] becomes the [class] attribute, text and
    attribute values are HTML-escaped).  The component is a constant
    tree, so what the bar shows is read off [TopNav] itself; the file
    holds its translation and its rendering. *)

From S2P Require Import Prelude.
From Stdlib Require Import Ascii.

Module TopNav.

Inductive node : Type :=
| Text (s : string)
| Elem (tag : string) (props : list (string * string)) (children : list node).

(** Lines 1-13: [export default function TopNav() { return (<nav ...>...</nav>); }]. *)
Definition TopNav : node :=
  Elem "nav" [("className", "bg-white shadow-sm border-b")]
    [Elem "div" [("className", "max-w-7xl mx-auto px-4 sm:px-6 lg:px-8")]
       [Elem "div" [("className", "flex justify-between h-16")]
          [Elem "div" [("className", "flex items-center")]
             [Elem "h1" [("className", "text-xl font-bold")] [Text "AvioSync"]]]]].

(** ** Static rendering *)

Definition quote_char : ascii := ascii_of_nat 34.

Definition quote : string := String quote_char EmptyString.

Definition escape_char (c : ascii) : string :=
  match nat_of_ascii c with
  | 38 => "&amp;"
  | 60 => "&lt;"
  | 62 => "&gt;"
  | 34 => "&quot;"
  | 39 => "&#x27;"
  | _ => String c EmptyString
  end.

Fixpoint escape_html (s : string) : string :=
  match s with
  | EmptyString => EmptyString
  | String c s' => escape_char c +:+ escape_html s'
  end.

(** The DOM attribute a React prop renders as. *)
Definition attr_name (p : string) : string :=
  if String.eqb p "className" then "class" else p.

Definition render_attr (kv : string * string) : string :=
  " " +:+ attr_name kv.1 +:+ "=" +:+ quote +:+ escape_html kv.2 +:+ quote.

Fixpoint render (n : node) : string :=
  match n with
  | Text s => escape_html s
  | Elem t ps cs =>
      "<" +:+ t +:+ String.concat "" (map render_attr ps) +:+ ">"
      +:+ String.concat "" (map render cs) +:+ "</" +:+ t +:+ ">"
  end.

End TopNav.
